(** * circular: the template node compiler, the update timer and the
      named-template plugins

    A shallow embedding of [circular/template/tpl.py] and
    [circular/template/tags/template.py].

    Conventions of the embedding.
    - A Python [str] is the list of its code points ([str], a list of
      [N]); [str.upper] is the full uppercase mapping of the Unicode
      character database, one code point at a time, given by its table.
      String literals of this file are ASCII and are read through [lit].
    - A Python [dict] whose iteration order is observed is an association
      list in insertion order; the [**kwargs] dictionaries, the plugin heap
      and the template cache are [gmap]s.
    - A call that may raise returns a [result]; state that outlives a raised
      exception (the element, the class attributes) is returned next to it. *)

From Stdlib Require Import Ascii String ZArith Lia.
From stdpp Require Import base option list sorting strings gmap.

Local Open Scope string_scope.
Local Open Scope list_scope.

(** ** Python strings *)

Abbreviation str := (list N).

(** An ASCII literal as a [str]. *)
Definition lit (s : string) : str :=
  (fun c => N_of_ascii c) <$> list_ascii_of_string s.
Coercion lit : string >-> list.

#[local] Arguments cons {A} & _ _.
#[local] Arguments Some {A} & _.
#[local] Arguments pair {A B} & _ _.

(** [a == b] on strings. *)
Definition str_eqb (a b : str) : bool := bool_decide (a = b).

(** ** Exceptions *)

Inductive exn : Type :=
| TypeError
| UnboundLocalError
| KeyError (key : option str)
| FetchError.

Inductive result (A : Type) : Type :=
| Ok (a : A)
| Raise (e : exn).
Arguments Ok {A} a.
Arguments Raise {A} e.

Definition is_ok {A} (r : result A) : bool :=
  match r with Ok _ => true | Raise _ => false end.

(** ** Python string primitives *)

Module PyStr.
Local Open Scope N_scope.

(** The code point of an ASCII character. *)
Definition chr (c : ascii) : N := N_of_ascii c.
Arguments chr c%_char.

(** The uppercase mapping: every code point [c] with [c.upper() != c],
    next to the code points of [c.upper()], in ascending order of [c]
    (Unicode 14.0.0, as CPython 3.11 has it). A code point may map to two
    or three: 223 (sharp s) maps to 83 83. *)
Definition upper_table : list (N * list N) :=
  [(97, [65]); (98, [66]); (99, [67]); (100, [68]); (101, [69]); (102, [70]);
   (103, [71]); (104, [72]); (105, [73]); (106, [74]); (107, [75]);
   (108, [76]); (109, [77]); (110, [78]); (111, [79]); (112, [80]);
   (113, [81]); (114, [82]); (115, [83]); (116, [84]); (117, [85]);
   (118, [86]); (119, [87]); (120, [88]); (121, [89]); (122, [90]);
   (181, [924]); (223, [83; 83]); (224, [192]); (225, [193]); (226, [194]);
   (227, [195]); (228, [196]); (229, [197]); (230, [198]); (231, [199]);
   (232, [200]); (233, [201]); (234, [202]); (235, [203]); (236, [204]);
   (237, [205]); (238, [206]); (239, [207]); (240, [208]); (241, [209]);
   (242, [210]); (243, [211]); (244, [212]); (245, [213]); (246, [214]);
   (248, [216]); (249, [217]); (250, [218]); (251, [219]); (252, [220]);
   (253, [221]); (254, [222]); (255, [376]); (257, [256]); (259, [258]);
   (261, [260]); (263, [262]); (265, [264]); (267, [266]); (269, [268]);
   (271, [270]); (273, [272]); (275, [274]); (277, [276]); (279, [278]);
   (281, [280]); (283, [282]); (285, [284]); (287, [286]); (289, [288]);
   (291, [290]); (293, [292]); (295, [294]); (297, [296]); (299, [298]);
   (301, [300]); (303, [302]); (305, [73]); (307, [306]); (309, [308]);
   (311, [310]); (314, [313]); (316, [315]); (318, [317]); (320, [319]);
   (322, [321]); (324, [323]); (326, [325]); (328, [327]); (329, [700; 78]);
   (331, [330]); (333, [332]); (335, [334]); (337, [336]); (339, [338]);
   (341, [340]); (343, [342]); (345, [344]); (347, [346]); (349, [348]);
   (351, [350]); (353, [352]); (355, [354]); (357, [356]); (359, [358]);
   (361, [360]); (363, [362]); (365, [364]); (367, [366]); (369, [368]);
   (371, [370]); (373, [372]); (375, [374]); (378, [377]); (380, [379]);
   (382, [381]); (383, [83]); (384, [579]); (387, [386]); (389, [388]);
   (392, [391]); (396, [395]); (402, [401]); (405, [502]); (409, [408]);
   (410, [573]); (414, [544]); (417, [416]); (419, [418]); (421, [420]);
   (424, [423]); (429, [428]); (432, [431]); (436, [435]); (438, [437]);
   (441, [440]); (445, [444]); (447, [503]); (453, [452]); (454, [452]);
   (456, [455]); (457, [455]); (459, [458]); (460, [458]); (462, [461]);
   (464, [463]); (466, [465]); (468, [467]); (470, [469]); (472, [471]);
   (474, [473]); (476, [475]); (477, [398]); (479, [478]); (481, [480]);
   (483, [482]); (485, [484]); (487, [486]); (489, [488]); (491, [490]);
   (493, [492]); (495, [494]); (496, [74; 780]); (498, [497]); (499, [497]);
   (501, [500]); (505, [504]); (507, [506]); (509, [508]); (511, [510]);
   (513, [512]); (515, [514]); (517, [516]); (519, [518]); (521, [520]);
   (523, [522]); (525, [524]); (527, [526]); (529, [528]); (531, [530]);
   (533, [532]); (535, [534]); (537, [536]); (539, [538]); (541, [540]);
   (543, [542]); (547, [546]); (549, [548]); (551, [550]); (553, [552]);
   (555, [554]); (557, [556]); (559, [558]); (561, [560]); (563, [562]);
   (572, [571]); (575, [11390]); (576, [11391]); (578, [577]); (583, [582]);
   (585, [584]); (587, [586]); (589, [588]); (591, [590]); (592, [11375]);
   (593, [11373]); (594, [11376]); (595, [385]); (596, [390]); (598, [393]);
   (599, [394]); (601, [399]); (603, [400]); (604, [42923]); (608, [403]);
   (609, [42924]); (611, [404]); (613, [42893]); (614, [42922]);
   (616, [407]); (617, [406]); (618, [42926]); (619, [11362]);
   (620, [42925]); (623, [412]); (625, [11374]); (626, [413]); (629, [415]);
   (637, [11364]); (640, [422]); (642, [42949]); (643, [425]);
   (647, [42929]); (648, [430]); (649, [580]); (650, [433]); (651, [434]);
   (652, [581]); (658, [439]); (669, [42930]); (670, [42928]); (837, [921]);
   (881, [880]); (883, [882]); (887, [886]); (891, [1021]); (892, [1022]);
   (893, [1023]); (912, [921; 776; 769]); (940, [902]); (941, [904]);
   (942, [905]); (943, [906]); (944, [933; 776; 769]); (945, [913]);
   (946, [914]); (947, [915]); (948, [916]); (949, [917]); (950, [918]);
   (951, [919]); (952, [920]); (953, [921]); (954, [922]); (955, [923]);
   (956, [924]); (957, [925]); (958, [926]); (959, [927]); (960, [928]);
   (961, [929]); (962, [931]); (963, [931]); (964, [932]); (965, [933]);
   (966, [934]); (967, [935]); (968, [936]); (969, [937]); (970, [938]);
   (971, [939]); (972, [908]); (973, [910]); (974, [911]); (976, [914]);
   (977, [920]); (981, [934]); (982, [928]); (983, [975]); (985, [984]);
   (987, [986]); (989, [988]); (991, [990]); (993, [992]); (995, [994]);
   (997, [996]); (999, [998]); (1001, [1000]); (1003, [1002]);
   (1005, [1004]); (1007, [1006]); (1008, [922]); (1009, [929]);
   (1010, [1017]); (1011, [895]); (1013, [917]); (1016, [1015]);
   (1019, [1018]); (1072, [1040]); (1073, [1041]); (1074, [1042]);
   (1075, [1043]); (1076, [1044]); (1077, [1045]); (1078, [1046]);
   (1079, [1047]); (1080, [1048]); (1081, [1049]); (1082, [1050]);
   (1083, [1051]); (1084, [1052]); (1085, [1053]); (1086, [1054]);
   (1087, [1055]); (1088, [1056]); (1089, [1057]); (1090, [1058]);
   (1091, [1059]); (1092, [1060]); (1093, [1061]); (1094, [1062]);
   (1095, [1063]); (1096, [1064]); (1097, [1065]); (1098, [1066]);
   (1099, [1067]); (1100, [1068]); (1101, [1069]); (1102, [1070]);
   (1103, [1071]); (1104, [1024]); (1105, [1025]); (1106, [1026]);
   (1107, [1027]); (1108, [1028]); (1109, [1029]); (1110, [1030]);
   (1111, [1031]); (1112, [1032]); (1113, [1033]); (1114, [1034]);
   (1115, [1035]); (1116, [1036]); (1117, [1037]); (1118, [1038]);
   (1119, [1039]); (1121, [1120]); (1123, [1122]); (1125, [1124]);
   (1127, [1126]); (1129, [1128]); (1131, [1130]); (1133, [1132]);
   (1135, [1134]); (1137, [1136]); (1139, [1138]); (1141, [1140]);
   (1143, [1142]); (1145, [1144]); (1147, [1146]); (1149, [1148]);
   (1151, [1150]); (1153, [1152]); (1163, [1162]); (1165, [1164]);
   (1167, [1166]); (1169, [1168]); (1171, [1170]); (1173, [1172]);
   (1175, [1174]); (1177, [1176]); (1179, [1178]); (1181, [1180]);
   (1183, [1182]); (1185, [1184]); (1187, [1186]); (1189, [1188]);
   (1191, [1190]); (1193, [1192]); (1195, [1194]); (1197, [1196]);
   (1199, [1198]); (1201, [1200]); (1203, [1202]); (1205, [1204]);
   (1207, [1206]); (1209, [1208]); (1211, [1210]); (1213, [1212]);
   (1215, [1214]); (1218, [1217]); (1220, [1219]); (1222, [1221]);
   (1224, [1223]); (1226, [1225]); (1228, [1227]); (1230, [1229]);
   (1231, [1216]); (1233, [1232]); (1235, [1234]); (1237, [1236]);
   (1239, [1238]); (1241, [1240]); (1243, [1242]); (1245, [1244]);
   (1247, [1246]); (1249, [1248]); (1251, [1250]); (1253, [1252]);
   (1255, [1254]); (1257, [1256]); (1259, [1258]); (1261, [1260]);
   (1263, [1262]); (1265, [1264]); (1267, [1266]); (1269, [1268]);
   (1271, [1270]); (1273, [1272]); (1275, [1274]); (1277, [1276]);
   (1279, [1278]); (1281, [1280]); (1283, [1282]); (1285, [1284]);
   (1287, [1286]); (1289, [1288]); (1291, [1290]); (1293, [1292]);
   (1295, [1294]); (1297, [1296]); (1299, [1298]); (1301, [1300]);
   (1303, [1302]); (1305, [1304]); (1307, [1306]); (1309, [1308]);
   (1311, [1310]); (1313, [1312]); (1315, [1314]); (1317, [1316]);
   (1319, [1318]); (1321, [1320]); (1323, [1322]); (1325, [1324]);
   (1327, [1326]); (1377, [1329]); (1378, [1330]); (1379, [1331]);
   (1380, [1332]); (1381, [1333]); (1382, [1334]); (1383, [1335]);
   (1384, [1336]); (1385, [1337]); (1386, [1338]); (1387, [1339]);
   (1388, [1340]); (1389, [1341]); (1390, [1342]); (1391, [1343]);
   (1392, [1344]); (1393, [1345]); (1394, [1346]); (1395, [1347]);
   (1396, [1348]); (1397, [1349]); (1398, [1350]); (1399, [1351]);
   (1400, [1352]); (1401, [1353]); (1402, [1354]); (1403, [1355]);
   (1404, [1356]); (1405, [1357]); (1406, [1358]); (1407, [1359]);
   (1408, [1360]); (1409, [1361]); (1410, [1362]); (1411, [1363]);
   (1412, [1364]); (1413, [1365]); (1414, [1366]); (1415, [1333; 1362]);
   (4304, [7312]); (4305, [7313]); (4306, [7314]); (4307, [7315]);
   (4308, [7316]); (4309, [7317]); (4310, [7318]); (4311, [7319]);
   (4312, [7320]); (4313, [7321]); (4314, [7322]); (4315, [7323]);
   (4316, [7324]); (4317, [7325]); (4318, [7326]); (4319, [7327]);
   (4320, [7328]); (4321, [7329]); (4322, [7330]); (4323, [7331]);
   (4324, [7332]); (4325, [7333]); (4326, [7334]); (4327, [7335]);
   (4328, [7336]); (4329, [7337]); (4330, [7338]); (4331, [7339]);
   (4332, [7340]); (4333, [7341]); (4334, [7342]); (4335, [7343]);
   (4336, [7344]); (4337, [7345]); (4338, [7346]); (4339, [7347]);
   (4340, [7348]); (4341, [7349]); (4342, [7350]); (4343, [7351]);
   (4344, [7352]); (4345, [7353]); (4346, [7354]); (4349, [7357]);
   (4350, [7358]); (4351, [7359]); (5112, [5104]); (5113, [5105]);
   (5114, [5106]); (5115, [5107]); (5116, [5108]); (5117, [5109]);
   (7296, [1042]); (7297, [1044]); (7298, [1054]); (7299, [1057]);
   (7300, [1058]); (7301, [1058]); (7302, [1066]); (7303, [1122]);
   (7304, [42570]); (7545, [42877]); (7549, [11363]); (7566, [42950]);
   (7681, [7680]); (7683, [7682]); (7685, [7684]); (7687, [7686]);
   (7689, [7688]); (7691, [7690]); (7693, [7692]); (7695, [7694]);
   (7697, [7696]); (7699, [7698]); (7701, [7700]); (7703, [7702]);
   (7705, [7704]); (7707, [7706]); (7709, [7708]); (7711, [7710]);
   (7713, [7712]); (7715, [7714]); (7717, [7716]); (7719, [7718]);
   (7721, [7720]); (7723, [7722]); (7725, [7724]); (7727, [7726]);
   (7729, [7728]); (7731, [7730]); (7733, [7732]); (7735, [7734]);
   (7737, [7736]); (7739, [7738]); (7741, [7740]); (7743, [7742]);
   (7745, [7744]); (7747, [7746]); (7749, [7748]); (7751, [7750]);
   (7753, [7752]); (7755, [7754]); (7757, [7756]); (7759, [7758]);
   (7761, [7760]); (7763, [7762]); (7765, [7764]); (7767, [7766]);
   (7769, [7768]); (7771, [7770]); (7773, [7772]); (7775, [7774]);
   (7777, [7776]); (7779, [7778]); (7781, [7780]); (7783, [7782]);
   (7785, [7784]); (7787, [7786]); (7789, [7788]); (7791, [7790]);
   (7793, [7792]); (7795, [7794]); (7797, [7796]); (7799, [7798]);
   (7801, [7800]); (7803, [7802]); (7805, [7804]); (7807, [7806]);
   (7809, [7808]); (7811, [7810]); (7813, [7812]); (7815, [7814]);
   (7817, [7816]); (7819, [7818]); (7821, [7820]); (7823, [7822]);
   (7825, [7824]); (7827, [7826]); (7829, [7828]); (7830, [72; 817]);
   (7831, [84; 776]); (7832, [87; 778]); (7833, [89; 778]);
   (7834, [65; 702]); (7835, [7776]); (7841, [7840]); (7843, [7842]);
   (7845, [7844]); (7847, [7846]); (7849, [7848]); (7851, [7850]);
   (7853, [7852]); (7855, [7854]); (7857, [7856]); (7859, [7858]);
   (7861, [7860]); (7863, [7862]); (7865, [7864]); (7867, [7866]);
   (7869, [7868]); (7871, [7870]); (7873, [7872]); (7875, [7874]);
   (7877, [7876]); (7879, [7878]); (7881, [7880]); (7883, [7882]);
   (7885, [7884]); (7887, [7886]); (7889, [7888]); (7891, [7890]);
   (7893, [7892]); (7895, [7894]); (7897, [7896]); (7899, [7898]);
   (7901, [7900]); (7903, [7902]); (7905, [7904]); (7907, [7906]);
   (7909, [7908]); (7911, [7910]); (7913, [7912]); (7915, [7914]);
   (7917, [7916]); (7919, [7918]); (7921, [7920]); (7923, [7922]);
   (7925, [7924]); (7927, [7926]); (7929, [7928]); (7931, [7930]);
   (7933, [7932]); (7935, [7934]); (7936, [7944]); (7937, [7945]);
   (7938, [7946]); (7939, [7947]); (7940, [7948]); (7941, [7949]);
   (7942, [7950]); (7943, [7951]); (7952, [7960]); (7953, [7961]);
   (7954, [7962]); (7955, [7963]); (7956, [7964]); (7957, [7965]);
   (7968, [7976]); (7969, [7977]); (7970, [7978]); (7971, [7979]);
   (7972, [7980]); (7973, [7981]); (7974, [7982]); (7975, [7983]);
   (7984, [7992]); (7985, [7993]); (7986, [7994]); (7987, [7995]);
   (7988, [7996]); (7989, [7997]); (7990, [7998]); (7991, [7999]);
   (8000, [8008]); (8001, [8009]); (8002, [8010]); (8003, [8011]);
   (8004, [8012]); (8005, [8013]); (8016, [933; 787]); (8017, [8025]);
   (8018, [933; 787; 768]); (8019, [8027]); (8020, [933; 787; 769]);
   (8021, [8029]); (8022, [933; 787; 834]); (8023, [8031]); (8032, [8040]);
   (8033, [8041]); (8034, [8042]); (8035, [8043]); (8036, [8044]);
   (8037, [8045]); (8038, [8046]); (8039, [8047]); (8048, [8122]);
   (8049, [8123]); (8050, [8136]); (8051, [8137]); (8052, [8138]);
   (8053, [8139]); (8054, [8154]); (8055, [8155]); (8056, [8184]);
   (8057, [8185]); (8058, [8170]); (8059, [8171]); (8060, [8186]);
   (8061, [8187]); (8064, [7944; 921]); (8065, [7945; 921]);
   (8066, [7946; 921]); (8067, [7947; 921]); (8068, [7948; 921]);
   (8069, [7949; 921]); (8070, [7950; 921]); (8071, [7951; 921]);
   (8072, [7944; 921]); (8073, [7945; 921]); (8074, [7946; 921]);
   (8075, [7947; 921]); (8076, [7948; 921]); (8077, [7949; 921]);
   (8078, [7950; 921]); (8079, [7951; 921]); (8080, [7976; 921]);
   (8081, [7977; 921]); (8082, [7978; 921]); (8083, [7979; 921]);
   (8084, [7980; 921]); (8085, [7981; 921]); (8086, [7982; 921]);
   (8087, [7983; 921]); (8088, [7976; 921]); (8089, [7977; 921]);
   (8090, [7978; 921]); (8091, [7979; 921]); (8092, [7980; 921]);
   (8093, [7981; 921]); (8094, [7982; 921]); (8095, [7983; 921]);
   (8096, [8040; 921]); (8097, [8041; 921]); (8098, [8042; 921]);
   (8099, [8043; 921]); (8100, [8044; 921]); (8101, [8045; 921]);
   (8102, [8046; 921]); (8103, [8047; 921]); (8104, [8040; 921]);
   (8105, [8041; 921]); (8106, [8042; 921]); (8107, [8043; 921]);
   (8108, [8044; 921]); (8109, [8045; 921]); (8110, [8046; 921]);
   (8111, [8047; 921]); (8112, [8120]); (8113, [8121]); (8114, [8122; 921]);
   (8115, [913; 921]); (8116, [902; 921]); (8118, [913; 834]);
   (8119, [913; 834; 921]); (8124, [913; 921]); (8126, [921]);
   (8130, [8138; 921]); (8131, [919; 921]); (8132, [905; 921]);
   (8134, [919; 834]); (8135, [919; 834; 921]); (8140, [919; 921]);
   (8144, [8152]); (8145, [8153]); (8146, [921; 776; 768]);
   (8147, [921; 776; 769]); (8150, [921; 834]); (8151, [921; 776; 834]);
   (8160, [8168]); (8161, [8169]); (8162, [933; 776; 768]);
   (8163, [933; 776; 769]); (8164, [929; 787]); (8165, [8172]);
   (8166, [933; 834]); (8167, [933; 776; 834]); (8178, [8186; 921]);
   (8179, [937; 921]); (8180, [911; 921]); (8182, [937; 834]);
   (8183, [937; 834; 921]); (8188, [937; 921]); (8526, [8498]);
   (8560, [8544]); (8561, [8545]); (8562, [8546]); (8563, [8547]);
   (8564, [8548]); (8565, [8549]); (8566, [8550]); (8567, [8551]);
   (8568, [8552]); (8569, [8553]); (8570, [8554]); (8571, [8555]);
   (8572, [8556]); (8573, [8557]); (8574, [8558]); (8575, [8559]);
   (8580, [8579]); (9424, [9398]); (9425, [9399]); (9426, [9400]);
   (9427, [9401]); (9428, [9402]); (9429, [9403]); (9430, [9404]);
   (9431, [9405]); (9432, [9406]); (9433, [9407]); (9434, [9408]);
   (9435, [9409]); (9436, [9410]); (9437, [9411]); (9438, [9412]);
   (9439, [9413]); (9440, [9414]); (9441, [9415]); (9442, [9416]);
   (9443, [9417]); (9444, [9418]); (9445, [9419]); (9446, [9420]);
   (9447, [9421]); (9448, [9422]); (9449, [9423]); (11312, [11264]);
   (11313, [11265]); (11314, [11266]); (11315, [11267]); (11316, [11268]);
   (11317, [11269]); (11318, [11270]); (11319, [11271]); (11320, [11272]);
   (11321, [11273]); (11322, [11274]); (11323, [11275]); (11324, [11276]);
   (11325, [11277]); (11326, [11278]); (11327, [11279]); (11328, [11280]);
   (11329, [11281]); (11330, [11282]); (11331, [11283]); (11332, [11284]);
   (11333, [11285]); (11334, [11286]); (11335, [11287]); (11336, [11288]);
   (11337, [11289]); (11338, [11290]); (11339, [11291]); (11340, [11292]);
   (11341, [11293]); (11342, [11294]); (11343, [11295]); (11344, [11296]);
   (11345, [11297]); (11346, [11298]); (11347, [11299]); (11348, [11300]);
   (11349, [11301]); (11350, [11302]); (11351, [11303]); (11352, [11304]);
   (11353, [11305]); (11354, [11306]); (11355, [11307]); (11356, [11308]);
   (11357, [11309]); (11358, [11310]); (11359, [11311]); (11361, [11360]);
   (11365, [570]); (11366, [574]); (11368, [11367]); (11370, [11369]);
   (11372, [11371]); (11379, [11378]); (11382, [11381]); (11393, [11392]);
   (11395, [11394]); (11397, [11396]); (11399, [11398]); (11401, [11400]);
   (11403, [11402]); (11405, [11404]); (11407, [11406]); (11409, [11408]);
   (11411, [11410]); (11413, [11412]); (11415, [11414]); (11417, [11416]);
   (11419, [11418]); (11421, [11420]); (11423, [11422]); (11425, [11424]);
   (11427, [11426]); (11429, [11428]); (11431, [11430]); (11433, [11432]);
   (11435, [11434]); (11437, [11436]); (11439, [11438]); (11441, [11440]);
   (11443, [11442]); (11445, [11444]); (11447, [11446]); (11449, [11448]);
   (11451, [11450]); (11453, [11452]); (11455, [11454]); (11457, [11456]);
   (11459, [11458]); (11461, [11460]); (11463, [11462]); (11465, [11464]);
   (11467, [11466]); (11469, [11468]); (11471, [11470]); (11473, [11472]);
   (11475, [11474]); (11477, [11476]); (11479, [11478]); (11481, [11480]);
   (11483, [11482]); (11485, [11484]); (11487, [11486]); (11489, [11488]);
   (11491, [11490]); (11500, [11499]); (11502, [11501]); (11507, [11506]);
   (11520, [4256]); (11521, [4257]); (11522, [4258]); (11523, [4259]);
   (11524, [4260]); (11525, [4261]); (11526, [4262]); (11527, [4263]);
   (11528, [4264]); (11529, [4265]); (11530, [4266]); (11531, [4267]);
   (11532, [4268]); (11533, [4269]); (11534, [4270]); (11535, [4271]);
   (11536, [4272]); (11537, [4273]); (11538, [4274]); (11539, [4275]);
   (11540, [4276]); (11541, [4277]); (11542, [4278]); (11543, [4279]);
   (11544, [4280]); (11545, [4281]); (11546, [4282]); (11547, [4283]);
   (11548, [4284]); (11549, [4285]); (11550, [4286]); (11551, [4287]);
   (11552, [4288]); (11553, [4289]); (11554, [4290]); (11555, [4291]);
   (11556, [4292]); (11557, [4293]); (11559, [4295]); (11565, [4301]);
   (42561, [42560]); (42563, [42562]); (42565, [42564]); (42567, [42566]);
   (42569, [42568]); (42571, [42570]); (42573, [42572]); (42575, [42574]);
   (42577, [42576]); (42579, [42578]); (42581, [42580]); (42583, [42582]);
   (42585, [42584]); (42587, [42586]); (42589, [42588]); (42591, [42590]);
   (42593, [42592]); (42595, [42594]); (42597, [42596]); (42599, [42598]);
   (42601, [42600]); (42603, [42602]); (42605, [42604]); (42625, [42624]);
   (42627, [42626]); (42629, [42628]); (42631, [42630]); (42633, [42632]);
   (42635, [42634]); (42637, [42636]); (42639, [42638]); (42641, [42640]);
   (42643, [42642]); (42645, [42644]); (42647, [42646]); (42649, [42648]);
   (42651, [42650]); (42787, [42786]); (42789, [42788]); (42791, [42790]);
   (42793, [42792]); (42795, [42794]); (42797, [42796]); (42799, [42798]);
   (42803, [42802]); (42805, [42804]); (42807, [42806]); (42809, [42808]);
   (42811, [42810]); (42813, [42812]); (42815, [42814]); (42817, [42816]);
   (42819, [42818]); (42821, [42820]); (42823, [42822]); (42825, [42824]);
   (42827, [42826]); (42829, [42828]); (42831, [42830]); (42833, [42832]);
   (42835, [42834]); (42837, [42836]); (42839, [42838]); (42841, [42840]);
   (42843, [42842]); (42845, [42844]); (42847, [42846]); (42849, [42848]);
   (42851, [42850]); (42853, [42852]); (42855, [42854]); (42857, [42856]);
   (42859, [42858]); (42861, [42860]); (42863, [42862]); (42874, [42873]);
   (42876, [42875]); (42879, [42878]); (42881, [42880]); (42883, [42882]);
   (42885, [42884]); (42887, [42886]); (42892, [42891]); (42897, [42896]);
   (42899, [42898]); (42900, [42948]); (42903, [42902]); (42905, [42904]);
   (42907, [42906]); (42909, [42908]); (42911, [42910]); (42913, [42912]);
   (42915, [42914]); (42917, [42916]); (42919, [42918]); (42921, [42920]);
   (42933, [42932]); (42935, [42934]); (42937, [42936]); (42939, [42938]);
   (42941, [42940]); (42943, [42942]); (42945, [42944]); (42947, [42946]);
   (42952, [42951]); (42954, [42953]); (42961, [42960]); (42967, [42966]);
   (42969, [42968]); (42998, [42997]); (43859, [42931]); (43888, [5024]);
   (43889, [5025]); (43890, [5026]); (43891, [5027]); (43892, [5028]);
   (43893, [5029]); (43894, [5030]); (43895, [5031]); (43896, [5032]);
   (43897, [5033]); (43898, [5034]); (43899, [5035]); (43900, [5036]);
   (43901, [5037]); (43902, [5038]); (43903, [5039]); (43904, [5040]);
   (43905, [5041]); (43906, [5042]); (43907, [5043]); (43908, [5044]);
   (43909, [5045]); (43910, [5046]); (43911, [5047]); (43912, [5048]);
   (43913, [5049]); (43914, [5050]); (43915, [5051]); (43916, [5052]);
   (43917, [5053]); (43918, [5054]); (43919, [5055]); (43920, [5056]);
   (43921, [5057]); (43922, [5058]); (43923, [5059]); (43924, [5060]);
   (43925, [5061]); (43926, [5062]); (43927, [5063]); (43928, [5064]);
   (43929, [5065]); (43930, [5066]); (43931, [5067]); (43932, [5068]);
   (43933, [5069]); (43934, [5070]); (43935, [5071]); (43936, [5072]);
   (43937, [5073]); (43938, [5074]); (43939, [5075]); (43940, [5076]);
   (43941, [5077]); (43942, [5078]); (43943, [5079]); (43944, [5080]);
   (43945, [5081]); (43946, [5082]); (43947, [5083]); (43948, [5084]);
   (43949, [5085]); (43950, [5086]); (43951, [5087]); (43952, [5088]);
   (43953, [5089]); (43954, [5090]); (43955, [5091]); (43956, [5092]);
   (43957, [5093]); (43958, [5094]); (43959, [5095]); (43960, [5096]);
   (43961, [5097]); (43962, [5098]); (43963, [5099]); (43964, [5100]);
   (43965, [5101]); (43966, [5102]); (43967, [5103]); (64256, [70; 70]);
   (64257, [70; 73]); (64258, [70; 76]); (64259, [70; 70; 73]);
   (64260, [70; 70; 76]); (64261, [83; 84]); (64262, [83; 84]);
   (64275, [1348; 1350]); (64276, [1348; 1333]); (64277, [1348; 1339]);
   (64278, [1358; 1350]); (64279, [1348; 1341]); (65345, [65313]);
   (65346, [65314]); (65347, [65315]); (65348, [65316]); (65349, [65317]);
   (65350, [65318]); (65351, [65319]); (65352, [65320]); (65353, [65321]);
   (65354, [65322]); (65355, [65323]); (65356, [65324]); (65357, [65325]);
   (65358, [65326]); (65359, [65327]); (65360, [65328]); (65361, [65329]);
   (65362, [65330]); (65363, [65331]); (65364, [65332]); (65365, [65333]);
   (65366, [65334]); (65367, [65335]); (65368, [65336]); (65369, [65337]);
   (65370, [65338]); (66600, [66560]); (66601, [66561]); (66602, [66562]);
   (66603, [66563]); (66604, [66564]); (66605, [66565]); (66606, [66566]);
   (66607, [66567]); (66608, [66568]); (66609, [66569]); (66610, [66570]);
   (66611, [66571]); (66612, [66572]); (66613, [66573]); (66614, [66574]);
   (66615, [66575]); (66616, [66576]); (66617, [66577]); (66618, [66578]);
   (66619, [66579]); (66620, [66580]); (66621, [66581]); (66622, [66582]);
   (66623, [66583]); (66624, [66584]); (66625, [66585]); (66626, [66586]);
   (66627, [66587]); (66628, [66588]); (66629, [66589]); (66630, [66590]);
   (66631, [66591]); (66632, [66592]); (66633, [66593]); (66634, [66594]);
   (66635, [66595]); (66636, [66596]); (66637, [66597]); (66638, [66598]);
   (66639, [66599]); (66776, [66736]); (66777, [66737]); (66778, [66738]);
   (66779, [66739]); (66780, [66740]); (66781, [66741]); (66782, [66742]);
   (66783, [66743]); (66784, [66744]); (66785, [66745]); (66786, [66746]);
   (66787, [66747]); (66788, [66748]); (66789, [66749]); (66790, [66750]);
   (66791, [66751]); (66792, [66752]); (66793, [66753]); (66794, [66754]);
   (66795, [66755]); (66796, [66756]); (66797, [66757]); (66798, [66758]);
   (66799, [66759]); (66800, [66760]); (66801, [66761]); (66802, [66762]);
   (66803, [66763]); (66804, [66764]); (66805, [66765]); (66806, [66766]);
   (66807, [66767]); (66808, [66768]); (66809, [66769]); (66810, [66770]);
   (66811, [66771]); (66967, [66928]); (66968, [66929]); (66969, [66930]);
   (66970, [66931]); (66971, [66932]); (66972, [66933]); (66973, [66934]);
   (66974, [66935]); (66975, [66936]); (66976, [66937]); (66977, [66938]);
   (66979, [66940]); (66980, [66941]); (66981, [66942]); (66982, [66943]);
   (66983, [66944]); (66984, [66945]); (66985, [66946]); (66986, [66947]);
   (66987, [66948]); (66988, [66949]); (66989, [66950]); (66990, [66951]);
   (66991, [66952]); (66992, [66953]); (66993, [66954]); (66995, [66956]);
   (66996, [66957]); (66997, [66958]); (66998, [66959]); (66999, [66960]);
   (67000, [66961]); (67001, [66962]); (67003, [66964]); (67004, [66965]);
   (68800, [68736]); (68801, [68737]); (68802, [68738]); (68803, [68739]);
   (68804, [68740]); (68805, [68741]); (68806, [68742]); (68807, [68743]);
   (68808, [68744]); (68809, [68745]); (68810, [68746]); (68811, [68747]);
   (68812, [68748]); (68813, [68749]); (68814, [68750]); (68815, [68751]);
   (68816, [68752]); (68817, [68753]); (68818, [68754]); (68819, [68755]);
   (68820, [68756]); (68821, [68757]); (68822, [68758]); (68823, [68759]);
   (68824, [68760]); (68825, [68761]); (68826, [68762]); (68827, [68763]);
   (68828, [68764]); (68829, [68765]); (68830, [68766]); (68831, [68767]);
   (68832, [68768]); (68833, [68769]); (68834, [68770]); (68835, [68771]);
   (68836, [68772]); (68837, [68773]); (68838, [68774]); (68839, [68775]);
   (68840, [68776]); (68841, [68777]); (68842, [68778]); (68843, [68779]);
   (68844, [68780]); (68845, [68781]); (68846, [68782]); (68847, [68783]);
   (68848, [68784]); (68849, [68785]); (68850, [68786]); (71872, [71840]);
   (71873, [71841]); (71874, [71842]); (71875, [71843]); (71876, [71844]);
   (71877, [71845]); (71878, [71846]); (71879, [71847]); (71880, [71848]);
   (71881, [71849]); (71882, [71850]); (71883, [71851]); (71884, [71852]);
   (71885, [71853]); (71886, [71854]); (71887, [71855]); (71888, [71856]);
   (71889, [71857]); (71890, [71858]); (71891, [71859]); (71892, [71860]);
   (71893, [71861]); (71894, [71862]); (71895, [71863]); (71896, [71864]);
   (71897, [71865]); (71898, [71866]); (71899, [71867]); (71900, [71868]);
   (71901, [71869]); (71902, [71870]); (71903, [71871]); (93792, [93760]);
   (93793, [93761]); (93794, [93762]); (93795, [93763]); (93796, [93764]);
   (93797, [93765]); (93798, [93766]); (93799, [93767]); (93800, [93768]);
   (93801, [93769]); (93802, [93770]); (93803, [93771]); (93804, [93772]);
   (93805, [93773]); (93806, [93774]); (93807, [93775]); (93808, [93776]);
   (93809, [93777]); (93810, [93778]); (93811, [93779]); (93812, [93780]);
   (93813, [93781]); (93814, [93782]); (93815, [93783]); (93816, [93784]);
   (93817, [93785]); (93818, [93786]); (93819, [93787]); (93820, [93788]);
   (93821, [93789]); (93822, [93790]); (93823, [93791]); (125218, [125184]);
   (125219, [125185]); (125220, [125186]); (125221, [125187]);
   (125222, [125188]); (125223, [125189]); (125224, [125190]);
   (125225, [125191]); (125226, [125192]); (125227, [125193]);
   (125228, [125194]); (125229, [125195]); (125230, [125196]);
   (125231, [125197]); (125232, [125198]); (125233, [125199]);
   (125234, [125200]); (125235, [125201]); (125236, [125202]);
   (125237, [125203]); (125238, [125204]); (125239, [125205]);
   (125240, [125206]); (125241, [125207]); (125242, [125208]);
   (125243, [125209]); (125244, [125210]); (125245, [125211]);
   (125246, [125212]); (125247, [125213]); (125248, [125214]);
   (125249, [125215]); (125250, [125216]); (125251, [125217])].

(** The entry of [c] in a table in ascending order. *)
Fixpoint table_lookup (c : N) (t : list (N * list N)) : option (list N) :=
  match t with
  | [] => None
  | (k, u) :: t' =>
      if c =? k then Some u
      else if c <? k then None
      else table_lookup c t'
  end.

(** [c.upper()] for one code point. *)
Definition upper_cp (c : N) : list N :=
  default [c] (table_lookup c upper_table).

(** [s.upper()]: the mapping does not look at the neighbours of a code
    point. *)
Fixpoint upper (s : str) : str :=
  match s with
  | [] => []
  | c :: s' => upper_cp c ++ upper s'
  end.

(** [s.replace(c, '')] for a one-character [c]. *)
Definition strip_char (c : N) (s : str) : str :=
  filter (fun x => x <> c) s.

(** [s.startswith(p)]. *)
Fixpoint startswith (s p : str) : bool :=
  match p, s with
  | [], _ => true
  | _ :: _, [] => false
  | a :: p', b :: s' => (a =? b) && startswith s' p'
  end.

(** [s[n:]]. *)
Definition slice_from (n : nat) (s : str) : str := drop n s.

End PyStr.

(** ** PrefixLookupDict *)

Module PrefixLookupDict.
Import PyStr.

(** [key.upper().replace('-','').replace('_','')], the expression shared
    by [_canonical] and [set_prefix]. *)
Definition squash (key : str) : str :=
  strip_char (chr "_") (strip_char (chr "-") (upper key)).

(** [PrefixLookupDict._canonical], with [self._prefix] as first argument. *)
Definition _canonical (prefix key : str) : str :=
  let k := squash key in
  if startswith k prefix then slice_from (length prefix) k else k.

(** The dictionary: its prefix and its items in insertion order. *)
Record t (V : Type) : Type := mk {
  _prefix : str;
  items : list (str * V)
}.
Arguments mk {V} _ _.
Arguments _prefix {V} _.
Arguments items {V} _.

Section Dict.
Context {V : Type}.

Fixpoint alist_get (k : str) (l : list (str * V)) : option V :=
  match l with
  | [] => None
  | (k', v) :: l' => if str_eqb k k' then Some v else alist_get k l'
  end.

(** [dict.__setitem__]: an existing key keeps its place. *)
Fixpoint alist_set (k : str) (v : V) (l : list (str * V))
  : list (str * V) :=
  match l with
  | [] => [(k, v)]
  | (k', v') :: l' =>
      if str_eqb k k' then (k', v) :: l' else (k', v') :: alist_set k v l'
  end.

Fixpoint alist_del (k : str) (l : list (str * V))
  : list (str * V) :=
  match l with
  | [] => []
  | (k', v') :: l' =>
      if str_eqb k k' then l' else (k', v') :: alist_del k l'
  end.

Definition __setitem__ (d : t V) (key : str) (value : V) : t V :=
  mk (_prefix d) (alist_set (_canonical (_prefix d) key) value (items d)).

(** [None] stands for the [KeyError] of a missing key. *)
Definition __getitem__ (d : t V) (key : str) : option V :=
  alist_get (_canonical (_prefix d) key) (items d).

Definition __contains__ (d : t V) (key : str) : bool :=
  bool_decide (is_Some (__getitem__ d key)).

(** [remove]: [del self[key]] with every exception swallowed. *)
Definition remove (d : t V) (key : str) : t V :=
  mk (_prefix d) (alist_del (_canonical (_prefix d) key) (items d)).

Definition set_prefix (d : t V) (prefix : str) : t V :=
  mk (squash prefix) (items d).

Definition empty : t V := mk "" [].

(** [PrefixLookupDict(init)] for a [dict] argument:
    [for (k,v) in init.items(): self[k] = v]. *)
Definition of_items (init : list (str * V)) : t V :=
  foldl (fun d kv => __setitem__ d kv.1 kv.2) empty init.

End Dict.

(** [PrefixLookupDict(init)] for a [list] argument:
    [for item in init: self[item] = item]. *)
Definition of_list (init : list str) : t str :=
  foldl (fun d item => __setitem__ d item item) empty init.

End PrefixLookupDict.

(** ** The markup node (external collaborator) *)

Module DOM.

Record Attr : Type := mkAttr { name : str; value : str }.

#[global] Instance Attr_eq_dec : EqDecision Attr.
Proof. solve_decision. Defined.

(** How [for attr in element.attributes] behaves while the body removes
    attributes is the collaborator's business: [Snapshot] iterates over
    the attributes present when the loop starts, [Live] reads the current
    attribute list by position, as a Python list iterator does. *)
Inductive iteration : Type := Snapshot | Live.

End DOM.

(** ** Plugin classes *)

Module PyClass.

(** The constructor a class has: that of one of the two classes of
    [tags/template.py], or one that is not part of the sources. *)
Inductive class_body : Type :=
| TemplatePluginBody
| IncludeBody
| ExternalBody.

(** A class as [register_plugin] and the call [cls(...)] see it. *)
Record plugin_class : Type := mkClass {
  __name__ : str;
  NAME : option str;
  PRIORITY : option Z;
  co_varnames : list str;    (* __init__.__code__.co_varnames: the
                                parameters, then the other locals *)
  co_argcount : nat;         (* __init__.__code__.co_argcount, [self] included *)
  defaults : nat;            (* len(__init__.__defaults__) *)
  body : class_body
}.

End PyClass.

(** ** Plugin descriptors and the assignment record *)

(** The [meta] dictionary built by [register_plugin]. *)
Record Descriptor : Type := mkDescriptor {
  d_class : PyClass.plugin_class;           (* meta['class'] *)
  d_args : PrefixLookupDict.t str;       (* meta['args'] *)
  d_name : str;                          (* meta['name'] *)
  d_priority : Z                            (* meta['priority'] *)
}.

(** One [(descriptor, positional-args, keyword-args)] tuple. *)
Definition Entry : Type := Descriptor * list str * gmap str str.

Definition entry_meta (en : Entry) : Descriptor := en.1.1.
Definition entry_args (en : Entry) : list str := en.1.2.
Definition entry_kwargs (en : Entry) : gmap str str := en.2.

Record Element : Type := mkElement {
  nodeName : str;
  attributes : list DOM.Attr;
  _plugins : option (list Entry)            (* hasattr / getattr / setattr *)
}.

Definition removeAttribute (e : Element) (n : str) : Element :=
  mkElement (nodeName e)
            (filter (fun a => DOM.name a ≠ n) (attributes e))
            (_plugins e).

Definition set_plugins (e : Element) (ps : list Entry) : Element :=
  mkElement (nodeName e) (attributes e) (Some ps).

(** ** The attribute loops

    Both loops of the compiler have the shape
    [for attr in element.attributes: if attr.name in D: (use D[attr.name]);
     element.removeAttribute(attr.name)].
    [for_attributes] runs that loop for a lookup [sel] (the membership test
    and the item access at once) and returns the element together with the
    attributes whose body ran, in order, each with what the lookup gave. *)

Section AttributeLoop.
Context {B : Type} (sel : DOM.Attr -> option B).

Fixpoint scan_snapshot (todo : list DOM.Attr) (e : Element)
         (hits : list (DOM.Attr * B)) : Element * list (DOM.Attr * B) :=
  match todo with
  | [] => (e, hits)
  | a :: todo' =>
      match sel a with
      | Some b =>
          scan_snapshot todo' (removeAttribute e (DOM.name a)) (hits ++ [(a, b)])
      | None => scan_snapshot todo' e hits
      end
  end.

(** The position-based iterator: [i] is the next index, the loop stops
    when [i] runs past the current list. One unit of [fuel] per iteration. *)
Fixpoint scan_live (fuel i : nat) (e : Element)
         (hits : list (DOM.Attr * B)) : Element * list (DOM.Attr * B) :=
  match fuel with
  | O => (e, hits)
  | S fuel' =>
      match attributes e !! i with
      | None => (e, hits)
      | Some a =>
          match sel a with
          | Some b =>
              scan_live fuel' (S i) (removeAttribute e (DOM.name a))
                        (hits ++ [(a, b)])
          | None => scan_live fuel' (S i) e hits
          end
      end
  end.

Definition for_attributes (it : DOM.iteration) (e : Element)
  : Element * list (DOM.Attr * B) :=
  match it with
  | DOM.Snapshot => scan_snapshot (attributes e) e []
  | DOM.Live => scan_live (length (attributes e)) 0 e []
  end.

End AttributeLoop.

(** ** [list.sort(key=...)]

    Python's sort is stable; a stable sort has one possible outcome, computed
    here by insertion. *)

Section Sort.
Context {A : Type} (key : A -> Z).

Fixpoint insert_sorted (x : A) (l : list A) : list A :=
  match l with
  | [] => [x]
  | y :: l' =>
      if (key x <=? key y)%Z then x :: y :: l' else y :: insert_sorted x l'
  end.

Definition key_le (x y : A) : Prop := (key x <= key y)%Z.

Fixpoint list_sort (l : list A) : list A :=
  match l with
  | [] => []
  | x :: l' => insert_sorted x (list_sort l')
  end.

End Sort.

(** ** The node compiler: discovery *)

Module Discovery.

Abbreviation Registry := (PrefixLookupDict.t Descriptor).

(** The loop of [_build_kwargs] (lines 80-83): the attributes matched
    against [ld], each with the argument name [ld[attr.name]]. *)
Definition kwargs_hits (it : DOM.iteration) (element : Element)
           (plugin : Descriptor) : Element * list (DOM.Attr * str) :=
  let ld := PrefixLookupDict.of_items (PrefixLookupDict.items (d_args plugin)) in
  for_attributes
    (fun attr => PrefixLookupDict.__getitem__ ld (DOM.name attr)) it element.

(** [kwargs[ld[attr.name]] = attr.value], for the matched attributes in turn. *)
Definition kwargs_of (hits : list (DOM.Attr * str)) : gmap str str :=
  foldl (fun kwargs '(attr, k) => <[k := DOM.value attr]> kwargs) ∅ hits.

(** [TplNode._build_kwargs]. *)
Definition _build_kwargs (it : DOM.iteration) (element : Element)
           (plugin : Descriptor) : Element * gmap str str :=
  let '(element', hits) := kwargs_hits it element plugin in
  (element', kwargs_of hits).

(** Lines 107-111: the trigger attributes, in encounter order. *)
Definition find_triggers (it : DOM.iteration) (PLUGINS : Registry)
           (tpl_element : Element)
  : Element * list (DOM.Attr * Descriptor) :=
  for_attributes
    (fun attr => PrefixLookupDict.__getitem__ PLUGINS (DOM.name attr))
    it tpl_element.

Definition priority_of (x : str * Descriptor) : Z := d_priority x.2.

(** Lines 107-114: [plugin_metas] after the sort. *)
Definition plugin_metas (it : DOM.iteration) (PLUGINS : Registry)
           (tpl_element : Element) : Element * list (str * Descriptor) :=
  let '(e, hits) := find_triggers it PLUGINS tpl_element in
  (e, list_sort priority_of ((fun hit => (DOM.value hit.1, hit.2)) <$> hits)).

(** Lines 115-117: [for (arg,p) in plugin_metas: plugins.append(...)]. *)
Definition build_step (it : DOM.iteration) (acc : Element * list Entry)
           (x : str * Descriptor) : Element * list Entry :=
  let '(e, plugins) := acc in
  let '(arg, p) := x in
  let '(e', kwargs) := _build_kwargs it e p in
  (e', plugins ++ [(p, [arg], kwargs)]).

Definition build_entries (it : DOM.iteration) (e : Element)
           (metas : list (str * Descriptor)) : Element * list Entry :=
  foldl (build_step it) (e, []) metas.

(** The arguments of the call on line 121. *)
Inductive pyarg : Type :=
| ArgMeta (m : Descriptor)
| ArgList (l : list str)
| ArgDict (kw : gmap str str)
| ArgTuple (en : Entry).

(** [plugins.append] called with the given arguments: [list.append] takes
    exactly one argument and raises [TypeError] on any other number. The
    list holds entries, and the only one-argument call of the source passes
    a tuple. *)
Definition list_append (plugins : list Entry) (args : list pyarg)
  : result (list Entry) :=
  match args with
  | [ArgTuple en] => Ok (plugins ++ [en])
  | _ => Raise TypeError
  end.

(** What the first pass (lines 107-123) leaves behind. *)
Record pass : Type := mkPass {
  elem_after : Element;            (* the element, as mutated *)
  local_p : option Descriptor;     (* the local variable [p]; [None]: unbound *)
  outcome : result (list Entry)    (* the list stored under [_plugins] *)
}.

(** Lines 107-123 of [TplNode.__init__]. *)
Definition discover (it : DOM.iteration) (PLUGINS : Registry)
           (tpl_element : Element) : pass :=
  let '(e1, metas) := plugin_metas it PLUGINS tpl_element in
  let '(e2, plugins) := build_entries it e1 metas in
  let p := last metas.*2 in
  match PrefixLookupDict.__getitem__ PLUGINS (nodeName e2) with
  | Some tplug =>
      let '(e3, kwargs) := _build_kwargs it e2 tplug in
      match list_append plugins [ArgMeta tplug; ArgList []; ArgDict kwargs] with
      | Ok plugins' => mkPass (set_plugins e3 plugins') p (Ok plugins')
      | Raise err => mkPass e3 p (Raise err)
      end
  | None => mkPass (set_plugins e2 plugins) p (Ok plugins)
  end.

(** *** What each plugin receives

    The same pass, keeping for every entry the attributes themselves
    instead of their values: the trigger attribute (none for the plugin
    named by the tag) and the attributes taken as keyword arguments, each
    with the argument name it was matched to. *)
Record delivery : Type := mkDelivery {
  to_plugin : Descriptor;
  as_trigger : option DOM.Attr;
  as_kwargs : list (DOM.Attr * str)
}.

Definition received (d : delivery) : list DOM.Attr :=
  option_list (as_trigger d) ++ (as_kwargs d).*1.

(** The entry a delivery stands for. *)
Definition entry_of (d : delivery) : Entry :=
  (to_plugin d, option_list (DOM.value <$> as_trigger d),
   kwargs_of (as_kwargs d)).

Definition attr_priority (x : DOM.Attr * Descriptor) : Z := d_priority x.2.

(** Lines 115-117 again, on the trigger attributes. *)
Definition deliver_step (it : DOM.iteration) (acc : Element * list delivery)
           (x : DOM.Attr * Descriptor) : Element * list delivery :=
  let '(e, ds) := acc in
  let '(attr, p) := x in
  let '(e', hits) := kwargs_hits it e p in
  (e', ds ++ [mkDelivery p (Some attr) hits]).

Definition deliver_entries (it : DOM.iteration) (e : Element)
           (triggers : list (DOM.Attr * Descriptor))
  : Element * list delivery :=
  foldl (deliver_step it) (e, []) triggers.

(** All the attributes handed out, plugin after plugin. *)
Definition all_received (ds : list delivery) : list DOM.Attr :=
  concat (received <$> ds).

Definition all_kwargs (ds : list delivery) : list DOM.Attr :=
  concat ((fun d => (as_kwargs d).*1) <$> ds).

Definition all_triggers (ds : list delivery) : list DOM.Attr :=
  omap as_trigger ds.

(** Lines 107-121: every delivery of the first pass, in the order of the
    assignment list, the tag's plugin last. *)
Definition deliveries (it : DOM.iteration) (PLUGINS : Registry)
           (tpl_element : Element) : Element * list delivery :=
  let '(e1, hits) := find_triggers it PLUGINS tpl_element in
  let '(e2, ds) := deliver_entries it e1 (list_sort attr_priority hits) in
  match PrefixLookupDict.__getitem__ PLUGINS (nodeName e2) with
  | Some tplug =>
      let '(e3, hits) := kwargs_hits it e2 tplug in
      (e3, ds ++ [mkDelivery tplug None hits])
  | None => (e2, ds)
  end.

End Discovery.

(** ** Helpers of the statements *)

(** The element with the attributes of the given names taken off. *)
Definition without (names : list str) (e : Element) : Element :=
  mkElement (nodeName e)
            (filter (fun a => DOM.name a ∉ names) (attributes e))
            (_plugins e).

Definition attr_names (l : list DOM.Attr) : list str := DOM.name <$> l.

(** ** Objects: compiled nodes, plugin instances, class attributes *)

(** A compiled node: its sequence number and a reference to its plugin. *)
Record TplNode : Type := mkTplNode {
  _hash : nat;
  plugin : nat
}.

(** The state of a plugin instance. The classes other than the two of
    [tags/template.py] are not part of the sources: an instance of such a
    class is the record of its constructor call
    [cls(tpl_element, *args, **kwargs)]. *)
Inductive plugin_state : Type :=
| Constructed (cls : str) (tpl_element : Element) (args : list str)
              (kwargs : gmap str str)
| TemplateState (_template : TplNode) (_name : str)
| IncludeState (_name : option str) (_tpl_instance : option TplNode).

(** Modelled from the spec: the event mixin is not part of the sources; an
    instance keeps the nodes subscribed to its change notifications
    ("every instantiated plugin registers a subscription so that any change
    notification it emits is re-emitted by the owning TplNode"). *)
Record plugin_obj : Type := mkObj {
  obj_state : plugin_state;
  listeners : list nat
}.

Record World : Type := mkWorld {
  _HASH_SEQ : nat;                          (* TplNode._HASH_SEQ *)
  PLUGINS : Discovery.Registry;             (* TplNode.PLUGINS *)
  heap : gmap nat plugin_obj                (* the plugin instances, by identity *)
}.

Definition with_plugins (R : Discovery.Registry) (w : World) : World :=
  mkWorld (_HASH_SEQ w) R (heap w).

Definition with_heap (h : gmap nat plugin_obj) (w : World) : World :=
  mkWorld (_HASH_SEQ w) (PLUGINS w) h.

(** A new object gets an identity no live object has. *)
Definition alloc (st : plugin_state) (w : World) : nat * World :=
  let r := fresh (dom (heap w)) in
  (r, with_heap (<[r := mkObj st []]> (heap w)) w).

(** The three-argument [bind] of the event mixin:
    [plugin.bind('change', node, 'change')] subscribes the node. *)
Definition bind_change (r node_hash : nat) (w : World) : World :=
  with_heap (alter (fun o => mkObj (obj_state o) (listeners o ++ [node_hash])) r
                   (heap w)) w.

(** [self.plugin.bind('change', self, 'change')] (lines 95, 131, 137 and
    141), dispatched on the class of the instance. [TemplatePlugin] defines
    a [bind(self, ctx)] of its own (lines 69-71), which hides the mixin's:
    the call hands three arguments to a method with one parameter and
    raises [TypeError]. [Include] and the classes outside the sources get
    the mixin's [bind]. *)
Definition plugin_bind (r node_hash : nat) (w : World) : World * result unit :=
  match obj_state <$> heap w !! r with
  | Some (TemplateState _ _) => (w, Raise TypeError)
  | Some _ => (bind_change r node_hash w, Ok tt)
  | None => (w, Raise TypeError)
  end.

(** [TemplatePlugin.clone] (lines 78-80): [return self]. The [async]
    decorators of [tags/template.py] are not part of the sources.
    Modelled from the spec: a decorated method without a suspend point runs
    synchronously and returns what its body returns. *)
Definition TemplatePlugin_clone (self : nat) (w : World) : World * result nat :=
  (w, Ok self).

(** [plugin.clone()], dispatched on the class of the instance.
    Modelled from the spec: the [clone] of the base class [TagPlugin] is not
    part of the sources; it yields an independent, identically configured
    instance ([Include.__init__] copies [_name] from the include it is
    given). *)
Definition plugin_clone (r : nat) (w : World) : World * result nat :=
  match heap w !! r with
  | None => (w, Raise TypeError)
  | Some o =>
      match obj_state o with
      | TemplateState _ _ => TemplatePlugin_clone r w
      | Constructed cls e args kwargs =>
          let '(r', w') := alloc (Constructed cls e args kwargs) w in (w', Ok r')
      | IncludeState n _ =>
          let '(r', w') := alloc (IncludeState n None) w in (w', Ok r')
      end
  end.

(** ** The constructors of the named-template plugins *)

(** The part of a context the plugins use: [ctx.circular.TEMPLATE_CACHE]. *)
Record Context : Type := mkContext {
  TEMPLATE_CACHE : gmap str nat
}.

Section TagConstructors.
(** Collaborators that are not part of the sources. *)
(** The network: the markup behind a locator, or [None] when the fetch fails. *)
Variable fetch : str -> option str.
(** [tpl_element.set_html(tpl_src)]. *)
Variable set_html : Element -> option str -> Element.
(** [_compile(tpl_element)]. *)
Variable _compile : World -> Element -> World * result TplNode.
(** [TagPlugin.__init__], reached through [super()], given a markup node
    and given a plugin instance. *)
Variable TagPlugin_init : Element -> result unit.
Variable TagPlugin_init_from : nat -> result unit.

(** Modelled from the spec: [HTTPRequest] is not part of the sources. The
    remote fetch collaborator "given a source locator, asynchronously
    returns raw markup text or signals failure without throwing"; the body
    is then "empty/absent". With [throw_on_error] a failure is raised. The
    suspend point of [yield] resumes synchronously with the outcome. *)
Definition HTTPRequest (src : str) (throw_on_error : bool)
  : result (option str) :=
  match fetch src with
  | Some body => Ok (Some body)
  | None => if throw_on_error then Raise FetchError else Ok None
  end.

(** [TemplatePlugin.__init__] (lines 60-67); the result is the new instance. *)
Definition TemplatePlugin_init (w : World) (tpl_element : Element)
           (name : str) (src : option str) : World * result nat :=
  match TagPlugin_init tpl_element with
  | Raise err => (w, Raise err)
  | Ok _ =>
      let fetched :=
        match src with
        | Some s =>
            match HTTPRequest s false with
            | Ok tpl_src => Ok (set_html tpl_element tpl_src)
            | Raise err => Raise err
            end
        | None => Ok tpl_element
        end in
      match fetched with
      | Raise err => (w, Raise err)
      | Ok tpl_element =>
          match _compile w tpl_element with
          | (w', Ok tpl) =>
              let '(self, w'') := alloc (TemplateState tpl name) w' in
              (w'', Ok self)
          | (w', Raise err) => (w', Raise err)
          end
      end
  end.

(** [Include.__init__] (lines 107-113); [tpl_element] is a markup node or
    an existing include. *)
Definition Include_init (w : World) (tpl_element : Element + nat)
           (name : option str) : World * result nat :=
  let base :=
    match tpl_element with
    | inl e => TagPlugin_init e
    | inr other => TagPlugin_init_from other
    end in
  match base with
  | Raise err => (w, Raise err)
  | Ok _ =>
      let _name :=
        match tpl_element with
        | inr other =>
            match obj_state <$> heap w !! other with
            | Some (IncludeState n _) => n
            | _ => name
            end
        | inl _ => name
        end in
      let '(self, w') := alloc (IncludeState _name None) w in
      (w', Ok self)
  end.

End TagConstructors.

(** ** TplNode *)

Module TplNodeImpl.
Export PyClass.
Import Discovery.

(** [TplNode.register_plugin]; [getattr(cls,'NAME',None) or cls.__name__]
    falls back on the class name for a missing or empty [NAME]. *)
Definition register_plugin (R : Registry) (plugin_class : plugin_class)
  : Registry :=
  let plugin_name :=
    match NAME plugin_class with
    | Some n => if str_eqb n "" then __name__ plugin_class else n
    | None => __name__ plugin_class
    end in
  let args := PrefixLookupDict.of_list (co_varnames plugin_class) in
  let args := PrefixLookupDict.remove args "self" in
  let args := PrefixLookupDict.remove args "tpl_element" in
  let meta := mkDescriptor plugin_class args plugin_name
                           (default 0%Z (PRIORITY plugin_class)) in
  PrefixLookupDict.__setitem__ R plugin_name meta.

(** [TplNode.set_prefix]. *)
Definition set_prefix (w : World) (prefix : str) : World :=
  with_plugins (PrefixLookupDict.set_prefix (PLUGINS w) prefix) w.

(** The argument of the constructor: [isinstance(tpl_element, TplNode)]
    or a markup node. *)
Inductive init_arg : Type :=
| FromNode (n : TplNode)
| FromElement (e : Element).

(** [plugins.pop()] on a non-empty list: the rest and the last item. *)
Definition list_pop {A} (l : list A) : option (list A * A) :=
  match last l with
  | Some x => Some (removelast l, x)
  | None => None
  end.

(** The collaborators of the two constructors of [tags/template.py]. *)
Record externals : Type := mkExternals {
  ext_fetch : str -> option str;
  ext_set_html : Element -> option str -> Element;
  ext_compile : World -> Element -> World * result TplNode;
  ext_TagPlugin_init : Element -> result unit;
  ext_TagPlugin_init_from : nat -> result unit
}.

(** The call [cls(tpl_element, *args, **kwargs)] against the parameters of
    [cls.__init__], as Python binds a call to a signature of plain
    parameters (the two constructors of the sources have no others):
    [self], [tpl_element] and [args] fill the parameters from the left, of
    which there must be enough; every keyword must name a parameter that
    is not filled yet; a parameter left without a value must be one of the
    last [defaults]. Anything else is a [TypeError]. The result holds the
    values given to the parameters after the first two. *)
Definition bind_arguments (cls : plugin_class) (args : list str)
           (kwargs : gmap str str) : result (gmap str str) :=
  let params := take (co_argcount cls) (co_varnames cls) in
  let filled := 2 + length args in
  let bound : gmap str str :=
    list_to_map (zip (drop 2 params) args) ∪ kwargs in
  if bool_decide
       (filled <= co_argcount cls
        /\ map_Forall (fun k _ => k ∈ drop filled params) kwargs
        /\ Forall (fun p => is_Some (bound !! p))
                  (drop 2 (take (co_argcount cls - defaults cls) params)))
  then Ok bound
  else Raise TypeError.

(** [cls(tpl_element, *args, **kwargs)]: the arguments are bound, then the
    constructor of the class runs. A class outside the sources leaves the
    record of the call. *)
Definition call_class (env : externals) (cls : plugin_class)
           (tpl_element : Element) (args : list str) (kwargs : gmap str str)
           (w : World) : World * result nat :=
  match bind_arguments cls args kwargs with
  | Raise err => (w, Raise err)
  | Ok bound =>
      match body cls with
      | TemplatePluginBody =>
          match bound !! ("name" : str) with
          | Some name =>
              TemplatePlugin_init (ext_fetch env) (ext_set_html env)
                                  (ext_compile env) (ext_TagPlugin_init env)
                                  w tpl_element name (bound !! ("src" : str))
          | None => (w, Raise TypeError)
          end
      | IncludeBody =>
          Include_init (ext_TagPlugin_init env) (ext_TagPlugin_init_from env)
                       w (inl tpl_element) (bound !! ("name" : str))
      | ExternalBody =>
          let '(r, w') :=
            alloc (Constructed (__name__ cls) tpl_element args kwargs) w in
          (w', Ok r)
      end
  end.

(** [self.plugin = new] followed by
    [self.plugin.bind('change', self, 'change')] and the return. *)
Definition subscribe (new : World * result nat) (self_hash : nat)
  : World * result TplNode :=
  match new with
  | (w, Ok r) =>
      match plugin_bind r self_hash w with
      | (w', Ok _) => (w', Ok (mkTplNode self_hash r))
      | (w', Raise err) => (w', Raise err)
      end
  | (w, Raise err) => (w, Raise err)
  end.

(** The same for the three classes of the fall-back cases ([TextPlugin],
    [InterpolatedAttrsPlugin], [GenericTagPlugin]), which are not part of
    the sources and are called with the element alone. *)
Definition construct (cls : str) (e : Element) (args : list str)
           (kwargs : gmap str str) (self_hash : nat) (w : World)
  : World * TplNode :=
  let '(r, w') := alloc (Constructed cls e args kwargs) w in
  (bind_change r self_hash w', mkTplNode self_hash r).

(** [TplNode.__init__] (lines 86-141). The result carries the class
    attributes and the argument as the statements of the constructor leave
    them, also when it raises; what the constructor of a plugin class does
    to the element it is given is that class's business. *)
Definition __init__ (env : externals) (it : DOM.iteration) (w : World)
           (tpl_element : init_arg) : World * init_arg * result TplNode :=
  let self_hash := _HASH_SEQ w in
  let w := mkWorld (S self_hash) (PLUGINS w) (heap w) in
  match tpl_element with
  | FromNode n =>
      let '(w', node) := subscribe (plugin_clone (plugin n) w) self_hash in
      (w', tpl_element, node)
  | FromElement e =>
      if str_eqb (nodeName e) "#text" then
        let '(w', node) := construct "TextPlugin" e [] ∅ self_hash w in
        (w', FromElement e, Ok node)
      else
        let ps :=
          match _plugins e with
          | None => discover it (PLUGINS w) e
          | Some plugins => mkPass e None (Ok plugins)
          end in
        let e := elem_after ps in
        match outcome ps with
        | Raise err => (w, FromElement e, Raise err)
        | Ok plugins =>
            match list_pop plugins with
            | Some (rest, (plug_meta, args, kwargs)) =>
                let e := set_plugins e rest in
                match local_p ps with
                | None => (w, FromElement e, Raise UnboundLocalError)
                | Some p =>
                    let '(w', node) :=
                      subscribe (call_class env (d_class p) e args kwargs w)
                                self_hash in
                    (w', FromElement e, node)
                end
            | None =>
                let cls : str :=
                  if (0 <? length (attributes e))%nat
                  then "InterpolatedAttrsPlugin" else "GenericTagPlugin" in
                let '(w', node) := construct cls e [] ∅ self_hash w in
                (w', FromElement e, Ok node)
            end
        end
  end.

(** [TplNode.clone]: [return TplNode(self)]. *)
Definition clone (env : externals) (it : DOM.iteration) (w : World)
           (self : TplNode) : World * result TplNode :=
  let '(w', _, r) := __init__ env it w (FromNode self) in (w', r).

End TplNodeImpl.

(** ** Template: the root and its update timer *)

Module Template.

(** The root object together with the part of the browser it talks to.
    [intervals] are the live timers whose callback is [self.update]. *)
Record state : Type := mkState {
  update_timer : option nat;    (* self.update_timer *)
  subscribed : nat;             (* subscriptions of [_start_timer] to the root *)
  intervals : list nat;         (* browser.timer: intervals not yet cleared *)
  next_interval : nat;          (* browser.timer: the next identifier *)
  root_updates : nat            (* calls of [self.root.update()] so far *)
}.

(** [Template.__init__]: [self.update_timer = None]. *)
Definition __init__ (next : nat) : state := mkState None 0 [] next 0.

(** [timer.set_interval(self.update, 50)]. *)
Definition set_interval (s : state) : nat * state :=
  let id := next_interval s in
  (id, mkState (update_timer s) (subscribed s) (id :: intervals s) (S id)
               (root_updates s)).

(** [timer.clear_interval(id)]. *)
Definition clear_interval (id : nat) (s : state) : state :=
  mkState (update_timer s) (subscribed s)
          (filter (fun j => j ≠ id) (intervals s)) (next_interval s)
          (root_updates s).

Definition set_update_timer (t : option nat) (s : state) : state :=
  mkState t (subscribed s) (intervals s) (next_interval s) (root_updates s).

(** [Template._start_timer] (lines 217-219). *)
Definition _start_timer (s : state) : state :=
  match update_timer s with
  | None => let '(id, s') := set_interval s in set_update_timer (Some id) s'
  | Some _ => s
  end.

(** [Template.bind_ctx], line 215: [self.root.bind('change', self._start_timer)].
    (Binding the root and replacing the placeholder touch nothing of the
    timer.) *)
Definition bind_ctx (s : state) : state :=
  mkState (update_timer s) (S (subscribed s)) (intervals s) (next_interval s)
          (root_updates s).

(** The root emits one change notification: every subscription runs. *)
Definition emit_change (s : state) : state :=
  Nat.iter (subscribed s) _start_timer s.

(** [Template.update] (lines 221-228); [emitted] is the number of change
    notifications the root emits while [self.root.update()] runs. *)
Definition update (emitted : nat) (s : state) : state :=
  let s := mkState (update_timer s) (subscribed s) (intervals s)
                   (next_interval s) (S (root_updates s)) in
  let s := Nat.iter emitted emit_change s in
  let s := match update_timer s with
           | Some id => clear_interval id s
           | None => s
           end in
  set_update_timer None s.

Inductive event : Type :=
| Change                          (* a change notification reaches the root *)
| Fire (id : nat) (emitted : nat) (* the browser's timer [id] comes due *).

(** The browser only runs the callback of a live interval. *)
Definition step (s : state) (ev : event) : state :=
  match ev with
  | Change => emit_change s
  | Fire id emitted =>
      if bool_decide (id ∈ intervals s) then update emitted s else s
  end.

Definition run (evs : list event) (s : state) : state := foldl step s evs.

Definition is_fire (ev : event) : Prop :=
  match ev with Fire _ _ => True | Change => False end.

(** The states a template goes through. *)
Inductive reachable : state -> Prop :=
| reach_init next : reachable (__init__ next)
| reach_bind s : reachable s -> reachable (bind_ctx s)
| reach_step s ev : reachable s -> reachable (step s ev).

End Template.

(** ** The named-template plugins *)

Section Tags.
(** Collaborators that are not part of the sources. *)
Context {Rendered : Type}.
(** The collaborators of the constructors, which [TplNode.clone] hands on. *)
Variable env : TplNodeImpl.externals.
(** The iteration discipline of the markup collaborator. *)
Variable it : DOM.iteration.
(** [TagPlugin.bind_ctx], reached through [super()]. *)
Variable TagPlugin_bind_ctx : World -> nat -> Context -> World * result unit.
(** [TplNode.bind_ctx] on an instantiated template. *)
Variable node_bind_ctx : World -> TplNode -> Context -> World * result Rendered.

(** [TemplatePlugin.bind] (lines 69-71). *)
Definition TemplatePlugin_bind (w : World) (self : nat) (ctx : Context)
  : result Context :=
  match obj_state <$> heap w !! self with
  | Some (TemplateState _ name) =>
      Ok (mkContext (<[name := self]> (TEMPLATE_CACHE ctx)))
  | _ => Raise TypeError
  end.

(** [TemplatePlugin.instantiate] (lines 73-76). *)
Definition TemplatePlugin_instantiate (w : World) (self : nat) (ctx : Context)
  : World * result TplNode :=
  match obj_state <$> heap w !! self with
  | Some (TemplateState _template _) =>
      TplNodeImpl.clone env it w _template
  | _ => (w, Raise TypeError)
  end.

(** [TemplatePlugin.update] (lines 82-83): [pass]. *)
Definition TemplatePlugin_update (w : World) (self : nat) : World := w.

Definition set_tpl_instance (self : nat) (inst : TplNode) (w : World) : World :=
  with_heap
    (alter (fun o =>
              match obj_state o with
              | IncludeState n _ => mkObj (IncludeState n (Some inst)) (listeners o)
              | _ => o
              end) self (heap w)) w.

(** [Include.bind_ctx] (lines 115-119). A missing key of the cache (or a
    name that was never given) is the [KeyError] of the subscript. *)
Definition Include_bind_ctx (w : World) (self : nat) (ctx : Context)
  : World * result Rendered :=
  match TagPlugin_bind_ctx w self ctx with
  | (w1, Raise err) => (w1, Raise err)
  | (w1, Ok _) =>
      match obj_state <$> heap w1 !! self with
      | Some (IncludeState _name _) =>
          match _name ≫= (fun n => TEMPLATE_CACHE ctx !! n) with
          | None => (w1, Raise (KeyError _name))
          | Some definition =>
              match TemplatePlugin_instantiate w1 definition ctx with
              | (w2, Ok inst) =>
                  node_bind_ctx (set_tpl_instance self inst w2) inst ctx
              | (w2, Raise err) => (w2, Raise err)
              end
          end
      | _ => (w1, Raise TypeError)
      end
  end.

End Tags.

(** ** Spellings of an attribute name *)

Module Spelling.
Import PyStr.

(** Two spellings of one logical name: equal up to the case of letters
    (stretches with the same uppercase form) and up to hyphens and
    underscores put in or left out. *)
Inductive same_name : str -> str -> Prop :=
| same_nil : same_name [] []
| same_case u1 u2 s1 s2 :
    upper u1 = upper u2 -> same_name s1 s2 ->
    same_name (u1 ++ s1) (u2 ++ s2)
| same_skip_l c s1 s2 :
    c = chr "-" \/ c = chr "_" -> same_name s1 s2 ->
    same_name (c :: s1) s2
| same_skip_r c s1 s2 :
    c = chr "-" \/ c = chr "_" -> same_name s1 s2 ->
    same_name s1 (c :: s2).

(** A code point that [squash] leaves alone. *)
Definition plain (c : N) : Prop :=
  upper_cp c = [c] /\ c <> chr "-" /\ c <> chr "_".

Definition all_plain (s : str) : Prop := Forall plain s.

(** What the uppercase table is checked for, entry by entry: the code
    points of an uppercase form are their own uppercase form, no hyphen or
    underscore comes or goes, and a form has one to three code points. *)
Definition entry_ok (e : N * list N) : Prop :=
  Forall (fun x => upper_cp x = [x] /\ x <> chr "-" /\ x <> chr "_") e.2
  /\ e.1 <> chr "-" /\ e.1 <> chr "_"
  /\ 1 <= length e.2 <= 3.

#[global] Instance entry_ok_dec e : Decision (entry_ok e).
Proof. unfold entry_ok. apply _. Defined.

End Spelling.

(** Decides [same_name] for two ASCII literals that differ code point by
    code point. *)
Ltac spelled :=
  vm_compute;
  repeat first [ apply Spelling.same_nil
               | apply (Spelling.same_case [_] [_]); [reflexivity|]
               | apply Spelling.same_skip_l; [left; reflexivity|]
               | apply Spelling.same_skip_r; [right; reflexivity|] ].

(** The outcome of an attribute loop started with the hits [hits0]: the
    names of the new hits are gone from the element, no name is hit twice,
    every hit was an attribute of the element that the lookup accepts. *)
Definition loop_post {B} (sel : DOM.Attr -> option B) (e : Element)
           (hits0 : list (DOM.Attr * B))
           (r : Element * list (DOM.Attr * B)) : Prop :=
  exists new,
    r = (without (attr_names new.*1) e, hits0 ++ new)
    /\ NoDup (attr_names new.*1)
    /\ (forall a b, (a, b) ∈ new -> a ∈ attributes e /\ sel a = Some b).

(** [e'] is [e] with the attributes [taken] consumed: their names are gone,
    none is taken twice, all of them were on [e]. *)
Definition consumes (e : Element) (taken : list DOM.Attr) (e' : Element)
  : Prop :=
  e' = without (attr_names taken) e
  /\ NoDup (attr_names taken)
  /\ (forall a, a ∈ taken -> a ∈ attributes e).

(** ** Sample inputs *)

Module Sample.
Import TplNodeImpl.

(** The two classes of [tags/template.py], and two plugins with the
    priorities 10 and 20 whose constructors are
    [For(self, tpl_element, loop_spec)] and
    [If(self, tpl_element, cond, else_=None)]. *)
Definition TemplateClass : plugin_class :=
  mkClass "TemplatePlugin" (Some "Template") (Some 200%Z)
          ["self"; "tpl_element"; "name"; "src"; "tpl_src"] 4 1
          TemplatePluginBody.
Definition IncludeClass : plugin_class :=
  mkClass "Include" None None ["self"; "tpl_element"; "name"] 3 1 IncludeBody.
Definition ForClass : plugin_class :=
  mkClass "For" None (Some 10%Z) ["self"; "tpl_element"; "loop_spec"] 3 0
          ExternalBody.
Definition IfClass : plugin_class :=
  mkClass "If" None (Some 20%Z) ["self"; "tpl_element"; "cond"; "else_"] 4 1
          ExternalBody.

(** The registry after registering the four classes and
    [set_prefix('tpl-')]. *)
Definition registry : Discovery.Registry :=
  PrefixLookupDict.set_prefix
    (foldl register_plugin PrefixLookupDict.empty
           [TemplateClass; IncludeClass; ForClass; IfClass])
    "tpl-".

Definition world : World := mkWorld 0 registry ∅.

Definition attr (n v : str) : DOM.Attr := DOM.mkAttr n v.

(** [<li tpl-if="x" class="row" tpl-for="x in xs" else_="no">] *)
Definition li_if_for : Element :=
  mkElement "LI" [attr "tpl-if" "x"; attr "class" "row";
                  attr "tpl-for" "x in xs"; attr "else_" "no"] None.

(** The same node with the two plugin attributes the other way round. *)
Definition li_for_if : Element :=
  mkElement "LI" [attr "tpl-for" "x in xs"; attr "class" "row";
                  attr "tpl-if" "x"; attr "else_" "no"] None.


(** [<tpl-include name="avatar">] *)
Definition include_tag : Element :=
  mkElement "TPL-INCLUDE" [attr "name" "avatar"] None.

(** [<div tpl-include="avatar">] and [<div tpl-template="avatar">] *)
Definition include_div : Element :=
  mkElement "DIV" [attr "tpl-include" "avatar"] None.
Definition template_div : Element :=
  mkElement "DIV" [attr "tpl-template" "avatar"] None.

(** Collaborators for the named-template plugins: a network on which
    every fetch fails, a base class that does nothing, [_compile] as the
    construction of a node from the markup (by a compiler that itself
    meets no template definition), and binding as the identity. *)
Definition no_network (src : str) : option str := None.
Definition set_html (e : Element) (body : option str) : Element := e.
Definition TagPlugin_init (e : Element) : result unit := Ok tt.
Definition TagPlugin_init_from (other : nat) : result unit := Ok tt.
Definition leaves : externals :=
  mkExternals no_network set_html (fun w _ => (w, Raise TypeError))
              TagPlugin_init TagPlugin_init_from.
Definition _compile (w : World) (e : Element) : World * result TplNode :=
  let '(w', _, r) := __init__ leaves DOM.Snapshot w (FromElement e) in (w', r).
Definition env : externals :=
  mkExternals no_network set_html _compile TagPlugin_init TagPlugin_init_from.
Definition TagPlugin_bind_ctx (w : World) (self : nat) (ctx : Context)
  : World * result unit := (w, Ok tt).
Definition node_bind_ctx (w : World) (n : TplNode) (ctx : Context)
  : World * result TplNode := (w, Ok n).

(** The world that [TplNode(<div tpl-template="avatar">)] leaves behind:
    the compiled body (node 1, a pass-through plugin at address 0) and the
    definition at address 1. *)
Definition template_world : World :=
  mkWorld 2 registry
          (<[1%nat := mkObj (TemplateState (mkTplNode 1 0) "avatar") []]>
             (<[0%nat := mkObj (Constructed "GenericTagPlugin"
                                            (mkElement "DIV" [] (Some []))
                                            [] ∅) [1%nat]]> ∅)).

(** An include of the name ["missing"] at address 2, and a context whose
    cache defines ["avatar"] only. *)
Definition include_world : World :=
  with_heap (<[2%nat := mkObj (IncludeState (Some "missing") None) []]>
               (heap template_world)) template_world.
Definition avatar_ctx : Context := mkContext {[ ("avatar" : str) := 1%nat ]}.

(** [<div>], to be filled from a remote source. *)
Definition empty_div : Element := mkElement "DIV" [] None.

End Sample.

(** What an entry says about its trigger: the positional arguments and the
    descriptor; the same for a trigger attribute as it was met. *)
Abbreviation entry_info := (fun en : Entry => (entry_args en, entry_meta en)).
Abbreviation hit_info :=
  (fun hit : DOM.Attr * Descriptor => ([DOM.value hit.1], hit.2)).
Abbreviation info_priority :=
  (fun x : list str * Descriptor => d_priority x.2).

(** The class and the positional arguments of the constructor call behind a
    node's plugin. *)
Definition constructed_as (w : World) (n : TplNode)
  : option (str * list str) :=
  match heap w !! plugin n with
  | Some o =>
      match obj_state o with
      | Constructed cls _ args _ => Some (cls, args)
      | _ => None
      end
  | None => None
  end.

(** The classes of the entries cached on the constructor's argument. *)
Definition cached_classes (a : TplNodeImpl.init_arg) : option (list str) :=
  match a with
  | TplNodeImpl.FromElement e =>
      match _plugins e with
      | Some l =>
          Some ((fun en => PyClass.__name__ (d_class (entry_meta en))) <$> l)
      | None => None
      end
  | TplNodeImpl.FromNode _ => None
  end.

(** What holds of the timer in every state a template goes through: the
    live intervals are exactly the armed one, and identifiers are not reused. *)
Definition timer_inv (s : Template.state) : Prop :=
  Template.intervals s = option_list (Template.update_timer s)
  /\ (forall id, Template.update_timer s = Some id ->
                 (id < Template.next_interval s)%nat).

(** ** The remaining operations of PrefixLookupDict *)

Module PrefixLookupDictOps.
Import PrefixLookupDict.

Section Ops.
Context {V : Type}.

(** [__delitem__] (lines 39-40): [dict.__delitem__] on the canonical key,
    which raises [KeyError] for a key that is not there. *)
Definition __delitem__ (d : t V) (key : str) : result (t V) :=
  let k := _canonical (_prefix d) key in
  match alist_get k (items d) with
  | Some _ => Ok (mk (_prefix d) (alist_del k (items d)))
  | None => Raise (KeyError (Some k))
  end.

(** [update] (lines 35-37): [for (k,v) in other.items(): self[k] = v]. *)
Definition update (d : t V) (other : list (str * V)) : t V :=
  foldl (fun d kv => __setitem__ d kv.1 kv.2) d other.

(** A dictionary holds a key once. *)
Definition keys_unique (d : t V) : Prop := NoDup (items d).*1.

(** The value of the last pair of [l] whose key is spelled like [key]. *)
Definition last_spelled (prefix key : str) (l : list (str * V))
  : option V :=
  snd <$> last (filter (fun kv => _canonical prefix kv.1 = _canonical prefix key) l).

End Ops.

End PrefixLookupDictOps.

(** The name a class is registered under:
    [getattr(plugin_class,'NAME',None) or plugin_class.__name__]. *)
Definition registered_name (c : PyClass.plugin_class) : str :=
  match PyClass.NAME c with
  | Some n => if str_eqb n "" then PyClass.__name__ c else n
  | None => PyClass.__name__ c
  end.

(** The markup node behind the constructor's argument, if it is one. *)
Definition arg_element (a : TplNodeImpl.init_arg) : option Element :=
  match a with
  | TplNodeImpl.FromElement e => Some e
  | TplNodeImpl.FromNode _ => None
  end.

(** The change notifications among the events, and the timer as a count. *)
Fixpoint num_changes (evs : list Template.event) : nat :=
  match evs with
  | [] => 0
  | Template.Change :: evs' => S (num_changes evs')
  | Template.Fire _ _ :: evs' => num_changes evs'
  end.

Definition armed (s : Template.state) : nat :=
  match Template.update_timer s with Some _ => 1 | None => 0 end.

(** ** Helpers of the statements on cloning and construction *)

(** The state of the copy that [plugin.clone()] makes of an instance that
    is not a template definition. *)
Definition copy_state (st : plugin_state) : plugin_state :=
  match st with
  | IncludeState name _ => IncludeState name None
  | st => st
  end.

Definition is_definition (st : plugin_state) : Prop :=
  match st with TemplateState _ _ => True | _ => False end.

#[global] Instance is_definition_dec st : Decision (is_definition st).
Proof. destruct st; apply _. Defined.

(** A compiler that leaves the class attributes and the existing plugin
    instances as a run of [TplNode.__init__] does: the sequence counter does
    not go down, the registry stays, and an instance that exists keeps its
    state. *)
Definition keeps (w w' : World) : Prop :=
  _HASH_SEQ w <= _HASH_SEQ w'
  /\ PLUGINS w' = PLUGINS w
  /\ (forall k o, heap w !! k = Some o ->
                  exists ls, heap w' !! k = Some (mkObj (obj_state o) ls)).

Definition quiet (env : TplNodeImpl.externals) : Prop :=
  forall w e, keeps w (TplNodeImpl.ext_compile env w e).1.

(** The same with the sequence counter where it was. *)
Definition same_frame (w w' : World) : Prop :=
  _HASH_SEQ w' = _HASH_SEQ w
  /\ PLUGINS w' = PLUGINS w
  /\ (forall k o, heap w !! k = Some o ->
                  exists ls, heap w' !! k = Some (mkObj (obj_state o) ls)).

(** What every run of the constructor satisfies, with [w0] the world
    after line 89 and [h] the sequence number taken. *)
Definition init_post (env : TplNodeImpl.externals) (w0 : World) (h : nat)
           (r : World * TplNodeImpl.init_arg * result TplNode) : Prop :=
  (quiet env -> keeps w0 r.1.1)
  /\ forall node, r.2 = Ok node ->
       same_frame w0 r.1.1 /\ _hash node = h
       /\ is_Some (heap r.1.1 !! plugin node).

(** * Properties *)

(** ** Strings *)

Lemma str_eqb_spec (a b : str) : reflect (a = b) (str_eqb a b).
Proof.
  unfold str_eqb. destruct (decide (a = b)) as [H|H].
  - rewrite bool_decide_eq_true_2 by exact H. now constructor.
  - rewrite bool_decide_eq_false_2 by exact H. now constructor.
Qed.

Lemma str_eqb_refl (a : str) : str_eqb a a = true.
Proof. now apply bool_decide_eq_true_2. Qed.

(** ** Canonical keys *)

Module CanonicalFacts.
Import PyStr PrefixLookupDict Spelling.

Lemma table_lookup_elem c t u : table_lookup c t = Some u -> (c, u) ∈ t.
Proof.
  induction t as [|[k v] t IH]; simpl; [discriminate|].
  destruct (N.eqb_spec c k) as [->|Hne].
  - intros [= ->]. apply list_elem_of_here.
  - destruct (c <? k)%N; [discriminate|].
    intros H. apply list_elem_of_further. now apply IH.
Qed.

(** The table, checked entry by entry. *)
Lemma upper_table_ok : Forall entry_ok upper_table.
Proof. apply (bool_decide_unpack _). vm_compute. reflexivity. Qed.

(** A code point is its own uppercase form or has a checked entry. *)
Lemma upper_cp_cases c : upper_cp c = [c] \/ entry_ok (c, upper_cp c).
Proof.
  unfold upper_cp. destruct (table_lookup c upper_table) as [u|] eqn:Hl.
  - right. simpl. apply table_lookup_elem in Hl.
    pose proof upper_table_ok as Hok. rewrite Forall_forall in Hok.
    now apply Hok.
  - now left.
Qed.

Lemma upper_cp_fixed c x : x ∈ upper_cp c -> upper_cp x = [x].
Proof.
  destruct (upper_cp_cases c) as [Hc|(Hall & _)].
  - rewrite Hc. intros Hx. apply list_elem_of_singleton in Hx as ->. exact Hc.
  - simpl in Hall. rewrite Forall_forall in Hall.
    intros Hx. now apply Hall in Hx as [Hx _].
Qed.

(** Uppercasing neither makes nor loses a hyphen or an underscore. *)
Lemma upper_cp_marks c x :
  x ∈ upper_cp c -> x = chr "-" \/ x = chr "_" -> upper_cp c = [x].
Proof.
  destruct (upper_cp_cases c) as [Hc|(Hall & _)].
  - rewrite Hc. intros Hx. now apply list_elem_of_singleton in Hx as ->.
  - simpl in Hall. rewrite Forall_forall in Hall.
    intros Hx. apply Hall in Hx as (_ & Hh & Hu). intros [?|?]; contradiction.
Qed.

Lemma upper_cp_length c : 1 <= length (upper_cp c) <= 3.
Proof.
  destruct (upper_cp_cases c) as [->|(_ & _ & _ & Hlen)]; [simpl; lia|].
  exact Hlen.
Qed.

Lemma upper_app a b : upper (a ++ b) = upper a ++ upper b.
Proof.
  induction a as [|c a IH]; [reflexivity|].
  simpl. now rewrite IH, app_assoc.
Qed.

Lemma elem_of_upper x s : x ∈ upper s <-> exists c, c ∈ s /\ x ∈ upper_cp c.
Proof.
  induction s as [|c s IH]; simpl.
  - split; [intros H; now apply elem_of_nil in H|].
    intros (c & H & _). now apply elem_of_nil in H.
  - rewrite elem_of_app, IH. split.
    + intros [H|(c' & Hc' & H)].
      * exists c. split; [apply list_elem_of_here | exact H].
      * exists c'. split; [now apply list_elem_of_further | exact H].
    + intros (c' & Hc' & H). apply elem_of_cons in Hc' as [->|Hc'].
      * now left.
      * right. eauto.
Qed.

Lemma upper_fixed s : Forall (fun x => upper_cp x = [x]) s -> upper s = s.
Proof.
  induction 1 as [|c s Hc _ IH]; [reflexivity|].
  simpl. now rewrite Hc, IH.
Qed.

(** [upper] is idempotent. *)
Lemma upper_idem s : upper (upper s) = upper s.
Proof.
  apply upper_fixed, Forall_forall. intros x Hx.
  apply elem_of_upper in Hx as (c & _ & Hx). now apply (upper_cp_fixed c).
Qed.

Lemma squash_app a b : squash (a ++ b) = squash a ++ squash b.
Proof. unfold squash, strip_char. now rewrite upper_app, !filter_app. Qed.

Lemma squash_all_plain s : all_plain (squash s).
Proof.
  apply Forall_forall. intros x Hx. unfold squash, strip_char in Hx.
  apply list_elem_of_filter in Hx as [Hu Hx].
  apply list_elem_of_filter in Hx as [Hh Hx].
  apply elem_of_upper in Hx as (c & _ & Hx).
  split; [now apply (upper_cp_fixed c)|]. now split.
Qed.

Lemma filter_all {A} (P : A -> Prop) `{forall x, Decision (P x)} (l : list A) :
  Forall P l -> filter P l = l.
Proof.
  induction 1 as [|x l Hx _ IH]; [reflexivity|].
  now rewrite filter_cons_True, IH.
Qed.

Lemma squash_plain s : all_plain s -> squash s = s.
Proof.
  intros Hs. unfold squash, strip_char.
  rewrite upper_fixed
    by (eapply Forall_impl; [exact Hs|]; now intros x (Hx & _)).
  rewrite (filter_all (fun x => x <> chr "-"))
    by (eapply Forall_impl; [exact Hs|]; now intros x (_ & Hx & _)).
  apply filter_all. eapply Forall_impl; [exact Hs|]. now intros x (_ & _ & Hx).
Qed.

Lemma squash_idem s : squash (squash s) = squash s.
Proof. apply squash_plain, squash_all_plain. Qed.

Lemma slice_from_plain n s : all_plain s -> all_plain (slice_from n s).
Proof. apply Forall_drop. Qed.

Lemma canonical_all_plain prefix key : all_plain (_canonical prefix key).
Proof.
  unfold _canonical.
  destruct (startswith (squash key) prefix);
    [apply slice_from_plain|]; apply squash_all_plain.
Qed.

Lemma startswith_empty s : startswith s [] = true.
Proof. now destruct s. Qed.

Lemma squash_mark c : c = chr "-" \/ c = chr "_" -> squash [c] = [].
Proof. now intros [-> | ->]. Qed.

Lemma squash_upper_eq u1 u2 : upper u1 = upper u2 -> squash u1 = squash u2.
Proof. unfold squash. now intros ->. Qed.

Lemma same_name_squash s1 s2 : same_name s1 s2 -> squash s1 = squash s2.
Proof.
  induction 1 as [|u1 u2 s1 s2 Hu _ IH|c s1 s2 Hc _ IH|c s1 s2 Hc _ IH].
  - reflexivity.
  - now rewrite !squash_app, (squash_upper_eq _ _ Hu), IH.
  - change (c :: s1) with ([c] ++ s1). now rewrite squash_app, squash_mark.
  - change (c :: s2) with ([c] ++ s2). now rewrite squash_app, squash_mark.
Qed.

(** Two code points with the same uppercase form, as a spelling variant. *)
Lemma same_char c1 c2 s1 s2 :
  upper_cp c1 = upper_cp c2 -> same_name s1 s2 ->
  same_name (c1 :: s1) (c2 :: s2).
Proof.
  intros Hc Hs. apply (same_case [c1] [c2]); [|exact Hs].
  simpl. now rewrite Hc.
Qed.

(** Changing the case, as a spelling variant. *)
Lemma same_name_upper s : same_name s (upper s).
Proof.
  rewrite <- (app_nil_r s) at 1. rewrite <- (app_nil_r (upper s)).
  apply same_case; [now rewrite upper_idem | constructor].
Qed.

(** What one application gives on a key that is already canonical. *)
Lemma canonical_again prefix key :
  _canonical prefix (_canonical prefix key) =
  let k := _canonical prefix key in
  if startswith k prefix then slice_from (length prefix) k else k.
Proof.
  unfold _canonical at 1.
  now rewrite (squash_plain _ (canonical_all_plain prefix key)).
Qed.

End CanonicalFacts.

Module CanonicalClaim.
Import PyStr PrefixLookupDict Spelling CanonicalFacts.

(** C2, as amended. [_canonical] is a total function on all strings of
    Unicode code points; applying it twice gives the same key as applying
    it once whenever the prefix is empty or the key obtained once does not
    begin with the prefix again; and two spellings of one name that differ
    only in case, hyphens or underscores get the same key, whatever the
    prefix. *)
Theorem canonical_idempotent_and_spelling_blind (prefix key : str) :
  (prefix = "" \/ startswith (_canonical prefix key) prefix = false ->
   _canonical prefix (_canonical prefix key) = _canonical prefix key)
  /\ (forall key', same_name key key' ->
                   _canonical prefix key = _canonical prefix key').
Proof.
  split.
  - intros H. rewrite canonical_again. cbv zeta.
    destruct H as [-> | ->]; [|reflexivity].
    now rewrite startswith_empty.
  - intros key' H. unfold _canonical.
    now rewrite (same_name_squash _ _ H).
Qed.

Lemma canonical_idempotent_and_spelling_blind_witness :
  (_canonical "TPL" (_canonical "TPL" "tpl-for") = _canonical "TPL" "tpl-for")
  /\ _canonical "TPL" "tpl-for" = _canonical "TPL" "TPL_For"
  /\ _canonical "TPL" "tpl-for" = "FOR".
Proof.
  destruct (canonical_idempotent_and_spelling_blind "TPL" "tpl-for")
    as [Hidem Hsame].
  split; [apply Hidem; right; reflexivity|].
  split; [|reflexivity].
  apply Hsame. spelled.
Defined.

(** Beyond ASCII: [stra(sharp s)e] and [STRASSE] are one name, and so are
    the two cases of e-acute. *)
Example canonical_of_sharp_s :
  upper [223%N] = "SS"
  /\ _canonical "" ("stra" ++ [223%N] ++ "e") = "STRASSE"
  /\ same_name ("stra" ++ [223%N] ++ "e") "STRASSE"
  /\ _canonical "" [233%N] = _canonical "" [201%N].
Proof.
  split; [reflexivity|]. split; [reflexivity|]. split; [|reflexivity].
  apply (same_case ("stra" ++ [223%N] ++ "e") "STRASSE" [] []);
    [reflexivity | constructor].
Qed.

(** C2 as stated fails: with the prefix set through [set_prefix "tpl-"],
    the key of ["tpl-tpl-for"] is ["TPLFOR"], whose key is ["FOR"]. *)
Lemma canonical_not_idempotent :
  let d := set_prefix (@empty Descriptor) "tpl-" in
  _canonical (_prefix d) "tpl-tpl-for" = "TPLFOR"
  /\ _canonical (_prefix d) (_canonical (_prefix d) "tpl-tpl-for") = "FOR"
  /\ _canonical (_prefix d) (_canonical (_prefix d) "tpl-tpl-for")
     <> _canonical (_prefix d) "tpl-tpl-for".
Proof. repeat split; try reflexivity. discriminate. Qed.

End CanonicalClaim.

(** ** The attribute loops *)

Section LoopFacts.
Context {B : Type} (sel : DOM.Attr -> option B).

Lemma without_nil e : without [] e = e.
Proof.
  destruct e as [n l p]. unfold without; simpl. f_equal.
  induction l as [|a l IH]; [reflexivity|].
  rewrite filter_cons_True; [now rewrite IH | apply not_elem_of_nil].
Qed.

Lemma without_remove names n e :
  without names (removeAttribute e n) = without (n :: names) e.
Proof.
  unfold without, removeAttribute; simpl. f_equal.
  rewrite list_filter_filter. apply list_filter_iff.
  intros a. rewrite not_elem_of_cons. tauto.
Qed.

Lemma NoDup_names_remove e n :
  NoDup (attr_names (attributes e)) ->
  NoDup (attr_names (attributes (removeAttribute e n))).
Proof.
  unfold attr_names, removeAttribute; simpl.
  generalize (attributes e). intros l. induction l as [|a l IH]; simpl.
  - intros _. constructor.
  - rewrite NoDup_cons. intros [Hn Hl]. rewrite filter_cons.
    destruct (decide (DOM.name a ≠ n)); [|now apply IH].
    rewrite fmap_cons, NoDup_cons. split; [|now apply IH].
    rewrite list_elem_of_fmap. intros (x & Hx & Hin).
    apply list_elem_of_filter in Hin as [_ Hin].
    apply Hn, list_elem_of_fmap. eauto.
Qed.

Lemma loop_post_nil e hits0 : loop_post sel e hits0 (e, hits0).
Proof.
  exists []. simpl. rewrite without_nil, app_nil_r.
  split; [reflexivity|]. split; [constructor|].
  intros a b H. now apply elem_of_nil in H.
Qed.

(** One iteration that consumes [a], followed by the rest of the loop. *)
Lemma loop_post_hit e hits0 a b r :
  a ∈ attributes e -> sel a = Some b ->
  loop_post sel (removeAttribute e (DOM.name a)) (hits0 ++ [(a, b)]) r ->
  loop_post sel e hits0 r.
Proof.
  intros Ha Hsel (new & -> & Hnd & Hin).
  exists ((a, b) :: new). simpl. split; [|split].
  - now rewrite without_remove, <- app_assoc.
  - apply NoDup_cons. split; [|exact Hnd].
    unfold attr_names. rewrite list_elem_of_fmap. intros (x & Hx & Hxin).
    apply list_elem_of_fmap in Hxin as ([x' b'] & -> & Hxb).
    apply Hin in Hxb as [Hxb _]. simpl in *.
    unfold removeAttribute in Hxb; simpl in Hxb.
    apply list_elem_of_filter in Hxb as [Hne _]. congruence.
  - intros a' b' H. apply elem_of_cons in H as [H | H].
    + now inversion H; subst.
    + apply Hin in H as [H1 H2]. split; [|exact H2].
      unfold removeAttribute in H1; simpl in H1.
      now apply list_elem_of_filter in H1 as [_ H1].
Qed.

Lemma scan_snapshot_post todo e hits0 :
  NoDup (attr_names todo) ->
  (forall a, a ∈ todo -> a ∈ attributes e) ->
  loop_post sel e hits0 (scan_snapshot sel todo e hits0).
Proof.
  revert e hits0. induction todo as [|a todo IH]; intros e hits0 Hnd Hsub.
  - apply loop_post_nil.
  - simpl. apply NoDup_cons in Hnd as [Hfresh Hnd].
    destruct (sel a) as [b|] eqn:Hsel.
    + apply (loop_post_hit e hits0 a b); [apply Hsub; left | exact Hsel |].
      apply IH; [exact Hnd|].
      intros x Hx. unfold removeAttribute; simpl.
      apply list_elem_of_filter. split; [|apply Hsub; now right].
      intros Heq. apply Hfresh. unfold attr_names.
      rewrite <- Heq. now apply list_elem_of_fmap_2.
    + apply IH; [exact Hnd|]. intros x Hx. apply Hsub. now right.
Qed.

Lemma scan_live_post fuel i e hits0 :
  loop_post sel e hits0 (scan_live sel fuel i e hits0).
Proof.
  revert i e hits0. induction fuel as [|fuel IH]; intros i e hits0.
  - apply loop_post_nil.
  - simpl. destruct (attributes e !! i) as [a|] eqn:Hi; [|apply loop_post_nil].
    destruct (sel a) as [b|] eqn:Hsel; [|apply IH].
    apply (loop_post_hit e hits0 a b); [|exact Hsel|apply IH].
    apply list_elem_of_lookup. eauto.
Qed.

(** The loop, whichever way the collaborator iterates. *)
Lemma for_attributes_post it e :
  NoDup (attr_names (attributes e)) ->
  loop_post sel e [] (for_attributes sel it e).
Proof.
  intros Hnd. destruct it; simpl.
  - now apply scan_snapshot_post.
  - apply scan_live_post.
Qed.

Lemma scan_live_S fuel i e hits0 :
  scan_live sel (S fuel) i e hits0 =
  match attributes e !! i with
  | None => (e, hits0)
  | Some a =>
      match sel a with
      | Some b => scan_live sel fuel (S i)
                    (removeAttribute e (DOM.name a)) (hits0 ++ [(a, b)])
      | None => scan_live sel fuel (S i) e hits0
      end
  end.
Proof. reflexivity. Qed.

(** More fuel than the attributes left to visit changes nothing: the
    position-based loop ends because the iterator is exhausted. *)
Lemma scan_live_fuel fuel i e hits0 :
  length (attributes e) <= fuel + i ->
  scan_live sel (S fuel) i e hits0 = scan_live sel fuel i e hits0.
Proof.
  revert i e hits0. induction fuel as [|fuel IH]; intros i e hits0 Hlen.
  - simpl. rewrite lookup_ge_None_2; [reflexivity | lia].
  - rewrite (scan_live_S (S fuel) i e hits0), (scan_live_S fuel i e hits0).
    destruct (attributes e !! i) as [a|]; [|reflexivity].
    destruct (sel a) as [b|]; apply IH; [|lia].
    unfold removeAttribute; simpl.
    pose proof (length_filter (fun x => DOM.name x ≠ DOM.name a) (attributes e)).
    lia.
Qed.

(** The live loop as [for_attributes] runs it has fuel to spare. *)
Lemma for_attributes_live_exhausts k e :
  scan_live sel (length (attributes e) + k) 0 e [] =
  for_attributes sel DOM.Live e.
Proof.
  induction k as [|k IH]; simpl.
  - now rewrite Nat.add_0_r.
  - rewrite Nat.add_succ_r, scan_live_fuel by lia. exact IH.
Qed.

(** The snapshot loop visits every attribute: its hits are the attributes
    that [sel] accepts, in their order on the node. *)
Lemma scan_snapshot_hits todo e hits0 :
  (scan_snapshot sel todo e hits0).2 =
  hits0 ++ omap (fun a => pair a <$> sel a) todo.
Proof.
  revert e hits0. induction todo as [|a todo IH]; intros e hits0; simpl.
  - now rewrite app_nil_r.
  - destruct (sel a) as [b|]; simpl; rewrite IH; [|reflexivity].
    now rewrite <- app_assoc.
Qed.

End LoopFacts.

(** ** The stable sort *)

Section SortFacts.
Context {A : Type} (key : A -> Z).

Lemma insert_sorted_perm x l : insert_sorted key x l ≡ₚ x :: l.
Proof.
  induction l as [|y l IH]; simpl; [reflexivity|].
  destruct (key x <=? key y)%Z; [reflexivity|].
  rewrite IH. apply Permutation_swap.
Qed.

Lemma list_sort_perm l : list_sort key l ≡ₚ l.
Proof.
  induction l as [|x l IH]; simpl; [reflexivity|].
  now rewrite insert_sorted_perm, IH.
Qed.

Lemma insert_sorted_sorted x l :
  StronglySorted (key_le key) l -> StronglySorted (key_le key) (insert_sorted key x l).
Proof.
  induction 1 as [|y l Hl IH Hy]; simpl.
  - repeat constructor.
  - destruct (Z.leb_spec (key x) (key y)) as [Hle | Hgt].
    + constructor; [now constructor|].
      constructor; [exact Hle|].
      eapply Forall_impl; [exact Hy|]. unfold key_le. intros; lia.
    + constructor; [exact IH|].
      rewrite insert_sorted_perm. constructor; [unfold key_le; lia | exact Hy].
Qed.

Lemma list_sort_sorted l : StronglySorted (key_le key) (list_sort key l).
Proof.
  induction l as [|x l IH]; simpl; [constructor|].
  now apply insert_sorted_sorted.
Qed.

(** Stability: among the items of one key, the order is untouched. *)
Lemma insert_sorted_stable q x l :
  filter (fun y => key y = q) (insert_sorted key x l) =
  filter (fun y => key y = q) (x :: l).
Proof.
  induction l as [|y l IH]; simpl; [reflexivity|].
  destruct (Z.leb_spec (key x) (key y)) as [Hle | Hgt]; [reflexivity|].
  rewrite (filter_cons _ y), IH, !(filter_cons _ x), (filter_cons _ y).
  destruct (decide (key y = q)), (decide (key x = q)); try reflexivity.
  lia.
Qed.

Lemma list_sort_stable q l :
  filter (fun y => key y = q) (list_sort key l) =
  filter (fun y => key y = q) l.
Proof.
  induction l as [|x l IH]; simpl; [reflexivity|].
  now rewrite insert_sorted_stable, !filter_cons, IH.
Qed.

End SortFacts.

Lemma insert_sorted_fmap {A B} (f : A -> B) (key : B -> Z) x l :
  insert_sorted key (f x) (f <$> l) = f <$> insert_sorted (key ∘ f) x l.
Proof.
  induction l as [|y l IH]; [reflexivity|].
  rewrite fmap_cons. cbn [insert_sorted compose].
  destruct (key (f x) <=? key (f y))%Z; [reflexivity|].
  now rewrite IH, fmap_cons.
Qed.

Lemma list_sort_fmap {A B} (f : A -> B) (key : B -> Z) l :
  list_sort key (f <$> l) = f <$> list_sort (key ∘ f) l.
Proof.
  induction l as [|x l IH]; [reflexivity|].
  rewrite fmap_cons. cbn [list_sort].
  now rewrite IH, insert_sorted_fmap.
Qed.

(** ** Consumption of attributes *)

Lemma without_without n1 n2 e :
  without n2 (without n1 e) = without (n1 ++ n2) e.
Proof.
  unfold without; simpl. f_equal.
  rewrite list_filter_filter. apply list_filter_iff.
  intros a. rewrite elem_of_app. tauto.
Qed.

Lemma without_perm n1 n2 e : n1 ≡ₚ n2 -> without n1 e = without n2 e.
Proof.
  intros H. unfold without. f_equal. apply list_filter_iff.
  intros a. now rewrite H.
Qed.

Lemma NoDup_names_without names e :
  NoDup (attr_names (attributes e)) ->
  NoDup (attr_names (attributes (without names e))).
Proof.
  unfold attr_names, without; simpl.
  generalize (attributes e). intros l. induction l as [|a l IH]; simpl.
  - intros _. constructor.
  - rewrite NoDup_cons. intros [Hn Hl]. rewrite filter_cons.
    destruct (decide (DOM.name a ∉ names)); [|now apply IH].
    rewrite fmap_cons, NoDup_cons. split; [|now apply IH].
    rewrite list_elem_of_fmap. intros (x & Hx & Hin).
    apply list_elem_of_filter in Hin as [_ Hin].
    apply Hn, list_elem_of_fmap. eauto.
Qed.

Lemma consumes_nil e : consumes e [] e.
Proof.
  split; [now rewrite without_nil|]. split; [constructor|].
  intros a H. now apply elem_of_nil in H.
Qed.

Lemma consumes_NoDup e taken e' :
  consumes e taken e' ->
  NoDup (attr_names (attributes e)) -> NoDup (attr_names (attributes e')).
Proof. intros (-> & _ & _). apply NoDup_names_without. Qed.

Lemma consumes_trans e t1 e1 t2 e2 :
  consumes e t1 e1 -> consumes e1 t2 e2 -> consumes e (t1 ++ t2) e2.
Proof.
  intros (-> & Hnd1 & Hin1) (-> & Hnd2 & Hin2).
  unfold consumes, attr_names. rewrite fmap_app. split; [|split].
  - apply without_without.
  - apply NoDup_app. split; [exact Hnd1|]. split; [|exact Hnd2].
    intros n Hn1 Hn2. apply list_elem_of_fmap in Hn2 as (a & -> & Ha).
    apply Hin2 in Ha. unfold without in Ha; simpl in Ha.
    apply list_elem_of_filter in Ha as [Ha _]. now apply Ha.
  - intros a Ha. apply elem_of_app in Ha as [Ha | Ha]; [now apply Hin1|].
    apply Hin2 in Ha. unfold without in Ha; simpl in Ha.
    now apply list_elem_of_filter in Ha as [_ Ha].
Qed.

Lemma consumes_perm e t1 t2 e' :
  t1 ≡ₚ t2 -> consumes e t1 e' -> consumes e t2 e'.
Proof.
  intros Hp (-> & Hnd & Hin). unfold consumes, attr_names.
  split; [|split].
  - apply without_perm. now rewrite Hp.
  - now rewrite <- Hp.
  - intros a Ha. apply Hin. now rewrite Hp.
Qed.

Lemma loop_consumes {B} (sel : DOM.Attr -> option B) e e' hits :
  loop_post sel e [] (e', hits) -> consumes e hits.*1 e'.
Proof.
  intros (new & Heq & Hnd & Hin). simpl in Heq.
  injection Heq as -> ->. split; [reflexivity|]. split; [exact Hnd|].
  intros a Ha. apply list_elem_of_fmap in Ha as ([a' b] & -> & Hab).
  now apply Hin in Hab as [Hab _].
Qed.

Lemma for_attributes_consumes {B} (sel : DOM.Attr -> option B) it e :
  NoDup (attr_names (attributes e)) ->
  consumes e (for_attributes sel it e).2.*1 (for_attributes sel it e).1.
Proof.
  intros Hnd. apply (loop_consumes sel).
  destruct (for_attributes sel it e) eqn:E. simpl.
  rewrite <- E. now apply for_attributes_post.
Qed.

Lemma for_attributes_nodeName {B} (sel : DOM.Attr -> option B) it e :
  nodeName (for_attributes sel it e).1 = nodeName e
  /\ _plugins (for_attributes sel it e).1 = _plugins e.
Proof.
  assert (Hs : forall todo e0 h,
             nodeName (scan_snapshot sel todo e0 h).1 = nodeName e0
             /\ _plugins (scan_snapshot sel todo e0 h).1 = _plugins e0).
  { induction todo as [|a todo IH]; intros e0 h; simpl; [auto|].
    destruct (sel a); [|apply IH].
    destruct (IH (removeAttribute e0 (DOM.name a)) (h ++ [(a, b)])) as [-> ->].
    auto. }
  assert (Hl : forall fuel i e0 h,
             nodeName (scan_live sel fuel i e0 h).1 = nodeName e0
             /\ _plugins (scan_live sel fuel i e0 h).1 = _plugins e0).
  { induction fuel as [|fuel IH]; intros i e0 h; simpl; [auto|].
    destruct (attributes e0 !! i) as [a|]; [|auto].
    destruct (sel a); [|apply IH].
    destruct (IH (S i) (removeAttribute e0 (DOM.name a)) (h ++ [(a, b)]))
      as [-> ->].
    auto. }
  destruct it; simpl; [apply Hs | apply Hl].
Qed.

(** ** Discovery *)

Module DiscoveryFacts.
Import Discovery.

Lemma kwargs_hits_consumes it e p :
  NoDup (attr_names (attributes e)) ->
  consumes e (kwargs_hits it e p).2.*1 (kwargs_hits it e p).1.
Proof. apply for_attributes_consumes. Qed.

Lemma kwargs_hits_nodeName it e p :
  nodeName (kwargs_hits it e p).1 = nodeName e
  /\ _plugins (kwargs_hits it e p).1 = _plugins e.
Proof. apply for_attributes_nodeName. Qed.

Lemma find_triggers_consumes it R e :
  NoDup (attr_names (attributes e)) ->
  consumes e (find_triggers it R e).2.*1 (find_triggers it R e).1.
Proof. apply for_attributes_consumes. Qed.

Lemma all_kwargs_app ds1 ds2 :
  all_kwargs (ds1 ++ ds2) = all_kwargs ds1 ++ all_kwargs ds2.
Proof. unfold all_kwargs. now rewrite fmap_app, concat_app. Qed.

Lemma all_triggers_app ds1 ds2 :
  all_triggers (ds1 ++ ds2) = all_triggers ds1 ++ all_triggers ds2.
Proof. apply omap_app. Qed.

Lemma all_received_app ds1 ds2 :
  all_received (ds1 ++ ds2) = all_received ds1 ++ all_received ds2.
Proof. unfold all_received. now rewrite fmap_app, concat_app. Qed.

(** The deliveries of lines 115-117, from any point of the loop on. *)
Lemma deliver_chain it triggers e ds0 :
  NoDup (attr_names (attributes e)) ->
  exists e' ds,
    foldl (deliver_step it) (e, ds0) triggers = (e', ds0 ++ ds)
    /\ consumes e (all_kwargs ds) e'
    /\ nodeName e' = nodeName e
    /\ (fun d => (as_trigger d, to_plugin d)) <$> ds =
       (fun x => (Some x.1, x.2)) <$> triggers.
Proof.
  revert e ds0. induction triggers as [|[a p] triggers IH]; intros e ds0 Hnd.
  - exists e, []. simpl. rewrite app_nil_r.
    split; [reflexivity|]. split; [apply consumes_nil|]. auto.
  - simpl. pose proof (kwargs_hits_consumes it e p Hnd) as Hc.
    pose proof (kwargs_hits_nodeName it e p) as [Hname _].
    destruct (kwargs_hits it e p) as [e1 hits]. simpl in Hc, Hname.
    destruct (IH e1 (ds0 ++ [mkDelivery p (Some a) hits])
                 (consumes_NoDup _ _ _ Hc Hnd))
      as (e' & ds & Hfold & Hc' & Hname' & Htr).
    exists e', (mkDelivery p (Some a) hits :: ds).
    rewrite Hfold, <- app_assoc. split; [reflexivity|]. split; [|split].
    + change (all_kwargs (mkDelivery p (Some a) hits :: ds))
        with (hits.*1 ++ all_kwargs ds).
      eapply consumes_trans; eassumption.
    + congruence.
    + rewrite !fmap_cons. simpl. now rewrite Htr.
Qed.

(** Lines 115-117 build the entries of the deliveries. *)
Lemma build_deliver it triggers e ds0 :
  foldl (build_step it) (e, entry_of <$> ds0)
        ((fun x => (DOM.value x.1, x.2)) <$> triggers) =
  ((foldl (deliver_step it) (e, ds0) triggers).1,
   entry_of <$> (foldl (deliver_step it) (e, ds0) triggers).2).
Proof.
  revert e ds0. induction triggers as [|[a p] triggers IH]; intros e ds0.
  - reflexivity.
  - rewrite fmap_cons. cbn [foldl]. unfold build_step at 2, deliver_step at 2 4.
    unfold _build_kwargs. cbn [fst snd].
    destruct (kwargs_hits it e p) as [e1 hits].
    rewrite <- (IH e1 (ds0 ++ [mkDelivery p (Some a) hits])).
    now rewrite fmap_app.
Qed.

Lemma list_sort_ext {A} (k1 k2 : A -> Z) l :
  (forall x, k1 x = k2 x) -> list_sort k1 l = list_sort k2 l.
Proof.
  intros Hk. induction l as [|x l IH]; simpl; [reflexivity|].
  rewrite IH. generalize (list_sort k2 l). intros s.
  induction s as [|y s IHs]; simpl; [reflexivity|].
  now rewrite !Hk, IHs.
Qed.

Lemma plugin_metas_hits it R e :
  plugin_metas it R e =
  ((find_triggers it R e).1,
   (fun hit => (DOM.value hit.1, hit.2))
     <$> list_sort attr_priority (find_triggers it R e).2).
Proof.
  unfold plugin_metas. destruct (find_triggers it R e) as [e1 hits]. simpl.
  f_equal. rewrite list_sort_fmap. reflexivity.
Qed.

Lemma build_step_nodeName it metas e acc :
  nodeName (foldl (build_step it) (e, acc) metas).1 = nodeName e.
Proof.
  revert e acc. induction metas as [|[arg p] metas IH]; intros e acc.
  - reflexivity.
  - cbn [foldl]. unfold build_step at 2, _build_kwargs.
    pose proof (kwargs_hits_nodeName it e p) as [Hn _].
    destruct (kwargs_hits it e p) as [e1 hits]. simpl in Hn.
    now rewrite IH.
Qed.

(** The tag name survives the loops of the first pass. *)
Lemma discover_tag it R e :
  nodeName (build_entries it (plugin_metas it R e).1
                          (plugin_metas it R e).2).1 = nodeName e.
Proof.
  unfold build_entries. rewrite build_step_nodeName, plugin_metas_hits.
  simpl. apply for_attributes_nodeName.
Qed.

(** A tag that names a plugin: line 121 raises. *)
Lemma discover_tag_plugin it R e tplug :
  PrefixLookupDict.__getitem__ R (nodeName e) = Some tplug ->
  outcome (discover it R e) = Raise TypeError.
Proof.
  intros Htag. unfold discover.
  pose proof (discover_tag it R e) as Hn.
  destruct (plugin_metas it R e) as [e1 metas]. simpl in Hn.
  destruct (build_entries it e1 metas) as [e2 plugins]. simpl in Hn.
  rewrite Hn, Htag.
  now destruct (_build_kwargs it e2 tplug).
Qed.

(** The first pass, read off the deliveries. *)
Lemma discover_deliveries it R e :
  attributes (elem_after (discover it R e)) =
    attributes (deliveries it R e).1
  /\ forall plugins,
      outcome (discover it R e) = Ok plugins ->
      plugins = entry_of <$> (deliveries it R e).2
      /\ PrefixLookupDict.__getitem__ R (nodeName e) = None
      /\ _plugins (elem_after (discover it R e)) = Some plugins.
Proof.
  pose proof (discover_tag it R e) as Hn.
  unfold discover, deliveries. rewrite plugin_metas_hits in *.
  destruct (find_triggers it R e) as [e1 hits]. cbn [fst snd] in *.
  unfold build_entries in *.
  pose proof (build_deliver it (list_sort attr_priority hits) e1 []) as Hb.
  rewrite fmap_nil in Hb. rewrite Hb in *. clear Hb.
  unfold deliver_entries.
  destruct (foldl (deliver_step it) (e1, []) (list_sort attr_priority hits))
    as [e2 ds]. cbn [fst snd] in *.
  rewrite Hn.
  destruct (PrefixLookupDict.__getitem__ R (nodeName e)) as [tplug|] eqn:Ht.
  - unfold _build_kwargs.
    destruct (kwargs_hits it e2 tplug) as [e3 h3]. simpl.
    split; [reflexivity|]. intros plugins H. discriminate.
  - simpl. split; [reflexivity|].
    intros plugins H. injection H as <-. auto.
Qed.

Lemma all_received_perm ds :
  all_received ds ≡ₚ all_triggers ds ++ all_kwargs ds.
Proof.
  induction ds as [|d ds IH]; [reflexivity|].
  change (all_received (d :: ds)) with (received d ++ all_received ds).
  change (all_kwargs (d :: ds)) with ((as_kwargs d).*1 ++ all_kwargs ds).
  replace (all_triggers (d :: ds))
    with (option_list (as_trigger d) ++ all_triggers ds)
    by (unfold all_triggers; simpl; now destruct (as_trigger d)).
  unfold received. rewrite IH, <- !app_assoc.
  apply Permutation_app_head.
  rewrite !app_assoc. apply Permutation_app_tail, Permutation_app_comm.
Qed.

Lemma all_triggers_of ds (triggers : list (DOM.Attr * Descriptor)) :
  (fun d => (as_trigger d, to_plugin d)) <$> ds =
  (fun x => (Some x.1, x.2)) <$> triggers ->
  all_triggers ds = triggers.*1.
Proof.
  revert triggers. induction ds as [|d ds IH]; intros [|x triggers] H;
    try discriminate; [reflexivity|].
  rewrite !fmap_cons in H. injection H as Ht _ Hrest.
  unfold all_triggers in *. simpl. rewrite Ht. simpl.
  f_equal. exact (IH _ Hrest).
Qed.

(** The whole first pass consumes exactly the attributes it hands out. *)
Lemma deliveries_consume it R e :
  NoDup (attr_names (attributes e)) ->
  consumes e (all_received (deliveries it R e).2) (deliveries it R e).1.
Proof.
  intros Hnd. unfold deliveries.
  pose proof (find_triggers_consumes it R e Hnd) as Hc1.
  destruct (find_triggers it R e) as [e1 hits]. cbn [fst snd] in Hc1.
  pose proof (consumes_NoDup _ _ _ Hc1 Hnd) as Hnd1.
  unfold deliver_entries.
  destruct (deliver_chain it (list_sort attr_priority hits) e1 [] Hnd1)
    as (e2 & ds & Hfold & Hc2 & _ & Htr).
  rewrite Hfold. cbn [app].
  pose proof (consumes_NoDup _ _ _ Hc2 Hnd1) as Hnd2.
  apply all_triggers_of in Htr.
  assert (Hperm : all_triggers ds ≡ₚ hits.*1).
  { rewrite Htr. apply fmap_Permutation, list_sort_perm. }
  destruct (PrefixLookupDict.__getitem__ R (nodeName e2)) as [tplug|].
  - pose proof (kwargs_hits_consumes it e2 tplug Hnd2) as Hc3.
    destruct (kwargs_hits it e2 tplug) as [e3 h3]. cbn [fst snd] in *.
    eapply consumes_perm;
      [|exact (consumes_trans _ _ _ _ _ Hc1 (consumes_trans _ _ _ _ _ Hc2 Hc3))].
    assert (Ht : all_triggers [mkDelivery tplug None h3] = []) by reflexivity.
    assert (Hk : all_kwargs [mkDelivery tplug None h3] = h3.*1)
      by (unfold all_kwargs; simpl; apply app_nil_r).
    rewrite all_received_perm, all_triggers_app, all_kwargs_app, Ht, Hk.
    rewrite app_nil_r, Hperm. reflexivity.
  - cbn [fst snd].
    eapply consumes_perm; [|exact (consumes_trans _ _ _ _ _ Hc1 Hc2)].
    now rewrite all_received_perm, Hperm.
Qed.

End DiscoveryFacts.

(** ** The node compiler *)

Module CompilerClaims.
Import Discovery DiscoveryFacts TplNodeImpl.

Lemma build_step_info it metas e acc :
  entry_info <$> (foldl (build_step it) (e, acc) metas).2 =
  (entry_info <$> acc) ++ ((fun x => ([x.1], x.2)) <$> metas).
Proof.
  revert e acc. induction metas as [|[arg p] metas IH]; intros e acc.
  - simpl. now rewrite app_nil_r.
  - cbn [foldl]. unfold build_step at 2.
    destruct (_build_kwargs it e p) as [e1 kw].
    rewrite IH, fmap_app, <- app_assoc. reflexivity.
Qed.

(** Lines 107-117: the entries are the trigger attributes, sorted. *)
Lemma entries_are_sorted_hits it R e :
  entry_info <$> (build_entries it (plugin_metas it R e).1
                                (plugin_metas it R e).2).2 =
  list_sort info_priority (hit_info <$> (find_triggers it R e).2).
Proof.
  unfold build_entries. rewrite build_step_info, plugin_metas_hits.
  cbn [fst snd fmap list_fmap app].
  rewrite list_sort_fmap, <- list_fmap_compose. reflexivity.
Qed.

Lemma sorted_keys {A} (key : A -> Z) l :
  StronglySorted (key_le key) l -> StronglySorted Z.le (key <$> l).
Proof.
  induction 1 as [|x l Hl IH Hx]; [constructor|].
  rewrite fmap_cons. constructor; [exact IH|].
  apply Forall_fmap. exact Hx.
Qed.

(** C7. Whatever the element and the registry, the assignment list built
    from the trigger attributes (lines 107-117) is in ascending order of
    descriptor priority, entries of one priority stand in the order in
    which their attributes were met, and every trigger attribute has its
    entry; when the tag names no plugin, this list is what the first pass
    returns and caches on the node. *)
Theorem assignment_list_sorted_stable it R e :
  let encountered := hit_info <$> (find_triggers it R e).2 in
  let plugins :=
    (build_entries it (plugin_metas it R e).1 (plugin_metas it R e).2).2 in
  StronglySorted Z.le ((fun en => d_priority (entry_meta en)) <$> plugins)
  /\ (forall q : Z,
        filter (fun x => d_priority x.2 = q) (entry_info <$> plugins) =
        filter (fun x => d_priority x.2 = q) encountered)
  /\ entry_info <$> plugins ≡ₚ encountered
  /\ (PrefixLookupDict.__getitem__ R (nodeName e) = None ->
      outcome (discover it R e) = Ok plugins
      /\ _plugins (elem_after (discover it R e)) = Some plugins).
Proof.
  cbv zeta. pose proof (entries_are_sorted_hits it R e) as Hinfo.
  split; [|split; [|split]].
  - replace ((fun en => d_priority (entry_meta en)) <$> _)
      with (info_priority <$>
            (entry_info <$> (build_entries it (plugin_metas it R e).1
                                           (plugin_metas it R e).2).2))
      by (now rewrite <- list_fmap_compose).
    rewrite Hinfo. apply sorted_keys, list_sort_sorted.
  - intros q. rewrite Hinfo. apply (list_sort_stable info_priority).
  - rewrite Hinfo. apply list_sort_perm.
  - intros Htag. pose proof (discover_tag it R e) as Hn.
    unfold discover.
    destruct (plugin_metas it R e) as [e1 metas]. cbn [fst snd] in *.
    destruct (build_entries it e1 metas) as [e2 plugins]. cbn [fst snd] in *.
    rewrite Hn, Htag. auto.
Qed.

Lemma assignment_list_sorted_stable_witness :
  PrefixLookupDict.__getitem__ Sample.registry (nodeName Sample.li_if_for)
    = None
  /\ ((fun en => (d_name (entry_meta en), entry_args en))
        <$> default [] (_plugins (elem_after
              (discover DOM.Snapshot Sample.registry Sample.li_if_for)))
      : list (str * list str))
     = [("For", ["x in xs"]); ("If", ["x"])].
Proof.
  split; [reflexivity|].
  destruct (assignment_list_sorted_stable
              DOM.Snapshot Sample.registry Sample.li_if_for)
    as (_ & _ & _ & Hcache).
  destruct (Hcache eq_refl) as [_ ->]. vm_compute. reflexivity.
Defined.

(** The two priorities of the spec, in both attribute orders and under
    both iteration disciplines: the priority-10 plugin comes first. *)
Example priority_10_before_20 :
  forall it e, In it [DOM.Snapshot; DOM.Live] ->
               In e [Sample.li_if_for; Sample.li_for_if] ->
    ((fun en => (d_priority (entry_meta en), entry_args en))
       <$> default [] (_plugins (elem_after (discover it Sample.registry e)))
     : list (Z * list str))
    = [(10%Z, ["x in xs"]); (20%Z, ["x"])].
Proof.
  intros it e [<- | [<- | []]] [<- | [<- | []]]; vm_compute; reflexivity.
Qed.

(** C5. On the first pass over a node whose attribute names are distinct,
    the entries are built from the deliveries: one trigger attribute and
    the keyword attributes for each plugin. Every delivered attribute was
    on the node and is off it afterwards, the other attributes stay, and
    no attribute occurs twice among all deliveries, so none reaches two
    plugins. Each loop takes an attribute off in the iteration that
    records it ([for_attributes_post]). *)
Theorem consumed_attributes_removed_not_shared it R e :
  NoDup (attr_names (attributes e)) ->
  let first_pass := discover it R e in
  let ds := (deliveries it R e).2 in
  (forall plugins, outcome first_pass = Ok plugins ->
                   plugins = entry_of <$> ds)
  /\ attributes (elem_after first_pass) =
     filter (fun a => DOM.name a ∉ attr_names (all_received ds))
            (attributes e)
  /\ NoDup (attr_names (all_received ds))
  /\ (forall a, a ∈ all_received ds -> a ∈ attributes e).
Proof.
  intros Hnd. cbv zeta.
  destruct (discover_deliveries it R e) as [Hattrs Hok].
  destruct (deliveries_consume it R e Hnd) as (Hwithout & Hnodup & Hin).
  split; [|split; [|split]].
  - intros plugins H. now apply Hok in H as [-> _].
  - now rewrite Hattrs, Hwithout.
  - exact Hnodup.
  - exact Hin.
Qed.

Lemma consumed_attributes_removed_not_shared_witness :
  NoDup (attr_names (attributes Sample.li_if_for))
  /\ attributes (elem_after
                   (discover DOM.Live Sample.registry Sample.li_if_for))
     = [Sample.attr "class" "row"]
  /\ attr_names (all_received
                   (deliveries DOM.Live Sample.registry Sample.li_if_for).2)
     = ["tpl-for"; "tpl-if"; "else_"].
Proof.
  assert (Hnd : NoDup (attr_names (attributes Sample.li_if_for))).
  { apply (@bool_decide_unpack _ (NoDup_dec _)). vm_compute. reflexivity. }
  split; [exact Hnd|].
  destruct (consumed_attributes_removed_not_shared
              DOM.Live Sample.registry Sample.li_if_for Hnd)
    as (_ & -> & _ & _).
  split; vm_compute; reflexivity.
Defined.

End CompilerClaims.

Module ConstructionClaims.
Import Discovery DiscoveryFacts TplNodeImpl CompilerClaims.

(** A first pass over a node whose tag names a plugin raises
    [TypeError] at line 121, whatever else is on the node. *)
Lemma tag_plugin_raises env it w e tplug :
  str_eqb (nodeName e) "#text" = false ->
  _plugins e = None ->
  PrefixLookupDict.__getitem__ (PLUGINS w) (nodeName e) = Some tplug ->
  (__init__ env it w (FromElement e)).2 = Raise TypeError.
Proof.
  intros Htext Hcache Htag. unfold __init__. rewrite Htext, Hcache.
  cbn [PLUGINS]. now rewrite (discover_tag_plugin it _ e tplug Htag).
Qed.

(** C3, at [<tpl-include name="avatar">]: the tag resolves to the
    descriptor of [Include], the pass takes [name] off the node as its
    keyword argument, and then raises [TypeError] instead of appending the
    entry; nothing is cached. *)
Theorem tag_plugin_first_pass_raises (env : externals) (it : DOM.iteration) :
  let r := __init__ env it Sample.world (FromElement Sample.include_tag) in
  d_class <$> PrefixLookupDict.__getitem__ Sample.registry "TPL-INCLUDE"
    = Some Sample.IncludeClass
  /\ r.2 = Raise TypeError
  /\ r.1.2 = FromElement (mkElement "TPL-INCLUDE" [] None).
Proof. destruct it; vm_compute; auto. Qed.

(** A pass over a node that carries a non-empty cached list pops its last
    entry and then raises: the local [p] of line 130 is only bound by the
    loop of lines 116-117, which a later pass does not run. *)
Lemma cached_pass_raises env it w e plugins en :
  str_eqb (nodeName e) "#text" = false ->
  _plugins e = Some (plugins ++ [en]) ->
  __init__ env it w (FromElement e) =
  (mkWorld (S (_HASH_SEQ w)) (PLUGINS w) (heap w),
   FromElement (set_plugins e plugins), Raise UnboundLocalError).
Proof.
  intros Htext Hcache. unfold __init__. rewrite Htext, Hcache.
  cbn [elem_after outcome local_p]. unfold list_pop.
  rewrite last_snoc, removelast_last. now destruct en as [[m a] k].
Qed.


(** C1, at [<li tpl-if="x" class="row" tpl-for="x in xs" else_="no">]:
    the first construction pops the [If] entry and builds an [If]
    instance, leaving the [For] entry cached; the second construction over
    the same node pops that entry and raises [UnboundLocalError] instead
    of building a [For] instance. *)
Theorem second_pass_unbound_plugin_class (env : externals)
        (it : DOM.iteration) :
  let first := __init__ env it Sample.world (FromElement Sample.li_if_for) in
  let second := __init__ env it first.1.1 first.1.2 in
  (exists node, first.2 = Ok node
                /\ constructed_as first.1.1 node = Some ("If", ["x"]))
  /\ cached_classes first.1.2 = Some ["For"]
  /\ second.2 = Raise UnboundLocalError
  /\ cached_classes second.1.2 = Some [].
Proof.
  destruct it; cbv zeta;
    (split; [eexists; split; vm_compute; reflexivity|]);
    repeat split; vm_compute; reflexivity.
Qed.

End ConstructionClaims.

(** ** Cloning *)

Module CloneFacts.
Import TplNodeImpl.

Lemma alloc_fresh st w : heap w !! (alloc st w).1 = None.
Proof.
  unfold alloc; simpl. apply not_elem_of_dom, is_fresh.
Qed.

Lemma plugin_clone_registry R r w :
  plugin_clone r (with_plugins R w) =
  (with_plugins R (plugin_clone r w).1, (plugin_clone r w).2).
Proof.
  unfold plugin_clone. cbn [with_plugins heap].
  destruct (heap w !! r) as [o|]; [|reflexivity].
  destruct (obj_state o); reflexivity.
Qed.

Lemma plugin_bind_registry R r h w :
  plugin_bind r h (with_plugins R w) =
  (with_plugins R (plugin_bind r h w).1, (plugin_bind r h w).2).
Proof.
  unfold plugin_bind. cbn [with_plugins heap].
  destruct (heap w !! r) as [[st ls]|]; [|reflexivity].
  destruct st; reflexivity.
Qed.

Lemma subscribe_registry R w x h :
  subscribe (with_plugins R w, x) h =
  (with_plugins R (subscribe (w, x) h).1, (subscribe (w, x) h).2).
Proof.
  unfold subscribe. destruct x as [r|err]; [|reflexivity].
  rewrite plugin_bind_registry.
  now destruct (plugin_bind r h w) as [w' [[]|err]].
Qed.

(** A node that [subscribe] returns has the plugin it was given. *)
Lemma subscribe_ok x h w' node :
  subscribe x h = (w', Ok node) -> x.2 = Ok (plugin node) /\ _hash node = h.
Proof.
  destruct x as [w [r|err]]; simpl; [|discriminate].
  destruct (plugin_bind r h w) as [w1 [[]|err]]; [|discriminate].
  intros [= _ <-]. now split.
Qed.

(** The constructor on a compiled node, step by step (lines 88-96). *)
Lemma init_from_node env it w n :
  __init__ env it w (FromNode n) =
  let w0 := mkWorld (S (_HASH_SEQ w)) (PLUGINS w) (heap w) in
  ((subscribe (plugin_clone (plugin n) w0) (_HASH_SEQ w)).1, FromNode n,
   (subscribe (plugin_clone (plugin n) w0) (_HASH_SEQ w)).2).
Proof.
  unfold __init__. cbv zeta.
  now destruct (subscribe _ _) as [w' node].
Qed.

(** Subscribing to a new instance that is not a template definition. *)
Lemma subscribe_alloc st w h :
  ~ is_definition st ->
  subscribe ((alloc st w).2, Ok (alloc st w).1) h =
  (with_heap (<[fresh (dom (heap w)) := mkObj st [h]]> (heap w)) w,
   Ok (mkTplNode h (fresh (dom (heap w))))).
Proof.
  intros Hst. unfold subscribe, plugin_bind, alloc. cbn [fst snd heap with_heap].
  rewrite lookup_insert_eq. cbn [fmap option_fmap option_map obj_state].
  unfold bind_change. cbn [heap with_heap _HASH_SEQ PLUGINS].
  rewrite alter_insert_eq. cbn [obj_state listeners app].
  destruct st; try reflexivity. now contradiction Hst.
Qed.

(** Cloning a node whose plugin is live and is not a template definition:
    one sequence number is taken, one instance is created, a copy of the
    node's plugin to which the new node alone is subscribed, and nothing
    else changes. *)
Lemma clone_live env it w n o :
  heap w !! plugin n = Some o ->
  ~ is_definition (obj_state o) ->
  clone env it w n =
  (mkWorld (S (_HASH_SEQ w)) (PLUGINS w)
           (<[fresh (dom (heap w)) :=
                mkObj (copy_state (obj_state o)) [_HASH_SEQ w]]> (heap w)),
   Ok (mkTplNode (_HASH_SEQ w) (fresh (dom (heap w))))).
Proof.
  intros Ho Hdef. unfold clone. rewrite init_from_node. cbv zeta.
  unfold plugin_clone. cbn [heap]. rewrite Ho.
  set (w0 := mkWorld (S (_HASH_SEQ w)) (PLUGINS w) (heap w)).
  destruct o as [st ls]. cbn [obj_state] in *.
  destruct st as [cls e args kw|tpl name|name inst];
    [|now contradiction Hdef|].
  - pose proof (subscribe_alloc (Constructed cls e args kw) w0 (_HASH_SEQ w))
      as Hs.
    destruct (alloc (Constructed cls e args kw) w0) as [r w1].
    cbn [fst snd] in *. rewrite Hs by (intros []). reflexivity.
  - pose proof (subscribe_alloc (IncludeState name None) w0 (_HASH_SEQ w))
      as Hs.
    destruct (alloc (IncludeState name None) w0) as [r w1].
    cbn [fst snd] in *. rewrite Hs by (intros []). reflexivity.
Qed.

(** Cloning a node whose plugin is a template definition: [clone] hands
    back the definition itself and line 95 raises. *)
Lemma clone_definition env it w n o :
  heap w !! plugin n = Some o ->
  is_definition (obj_state o) ->
  __init__ env it w (FromNode n) =
  (mkWorld (S (_HASH_SEQ w)) (PLUGINS w) (heap w), FromNode n, Raise TypeError).
Proof.
  intros Ho Hdef. rewrite init_from_node. cbv zeta.
  unfold plugin_clone. cbn [heap]. rewrite Ho.
  destruct o as [st ls]. cbn [obj_state] in *.
  destruct st as [cls e args kw|tpl name|name inst]; try now destruct Hdef.
  unfold TemplatePlugin_clone, subscribe, plugin_bind. cbn [heap].
  now rewrite Ho.
Qed.

(** What a clone leaves of the plugin instances that existed. *)
Lemma clone_live_frame env it w n o :
  heap w !! plugin n = Some o ->
  ~ is_definition (obj_state o) ->
  heap w !! fresh (dom (heap w)) = None
  /\ forall k o', heap w !! k = Some o' ->
                  k <> fresh (dom (heap w))
                  /\ heap (clone env it w n).1 !! k = Some o'.
Proof.
  intros Ho Hdef. rewrite (clone_live env it w n o Ho Hdef). cbn [fst heap].
  assert (Hf : heap w !! fresh (dom (heap w)) = None)
    by apply not_elem_of_dom, is_fresh.
  split; [exact Hf|]. intros k o' Hk.
  assert (Hne : fresh (dom (heap w)) <> k) by (intros <-; congruence).
  split; [congruence|]. now rewrite lookup_insert_ne.
Qed.

End CloneFacts.

Module CloneClaims.
Import TplNodeImpl CloneFacts.

(** C6. Constructing a node from an existing node gives the same result
    under any two registries, iteration disciplines and collaborators: the
    same node or exception, the same sequence counter and the same plugin
    instances; the registry is left as it was, the argument is not touched,
    and the plugin of the new node is the reference that the existing
    plugin's [clone] returned. *)
Theorem clone_independent_of_registry env1 env2 it1 it2
        (R1 R2 : Discovery.Registry) (w : World) (n : TplNode) :
  let r1 := __init__ env1 it1 (with_plugins R1 w) (FromNode n) in
  let r2 := __init__ env2 it2 (with_plugins R2 w) (FromNode n) in
  r1.2 = r2.2
  /\ heap r1.1.1 = heap r2.1.1
  /\ _HASH_SEQ r1.1.1 = _HASH_SEQ r2.1.1
  /\ PLUGINS r1.1.1 = R1 /\ PLUGINS r2.1.1 = R2
  /\ r1.1.2 = FromNode n
  /\ (forall node, r1.2 = Ok node ->
        _hash node = _HASH_SEQ w
        /\ (plugin_clone (plugin n)
              (mkWorld (S (_HASH_SEQ w)) (PLUGINS w) (heap w))).2
           = Ok (plugin node)).
Proof.
  cbv zeta. rewrite !init_from_node. cbv zeta.
  change (mkWorld (S (_HASH_SEQ (with_plugins R1 w)))
                  (PLUGINS (with_plugins R1 w)) (heap (with_plugins R1 w)))
    with (with_plugins R1 (mkWorld (S (_HASH_SEQ w)) (PLUGINS w) (heap w))).
  change (mkWorld (S (_HASH_SEQ (with_plugins R2 w)))
                  (PLUGINS (with_plugins R2 w)) (heap (with_plugins R2 w)))
    with (with_plugins R2 (mkWorld (S (_HASH_SEQ w)) (PLUGINS w) (heap w))).
  rewrite !plugin_clone_registry.
  change (_HASH_SEQ (with_plugins R1 w)) with (_HASH_SEQ w).
  change (_HASH_SEQ (with_plugins R2 w)) with (_HASH_SEQ w).
  destruct (plugin_clone (plugin n)
              (mkWorld (S (_HASH_SEQ w)) (PLUGINS w) (heap w)))
    as [w' x] eqn:Hclone.
  cbn [fst snd]. rewrite !subscribe_registry.
  destruct (subscribe (w', x) (_HASH_SEQ w)) as [w'' [node|err]] eqn:Hsub;
    cbn [fst snd with_plugins heap _HASH_SEQ PLUGINS].
  - do 6 (split; [reflexivity|]).
    intros node' [= <-].
    apply subscribe_ok in Hsub as [Hx Hh]. cbn [snd] in Hx. now split.
  - do 6 (split; [reflexivity|]).
    intros node H. discriminate.
Qed.

(** The registry does matter when the argument is markup: the same node
    compiles to different plugins under two registries. *)
Example markup_depends_on_registry env :
  let with_for := __init__ env DOM.Snapshot Sample.world
                           (FromElement Sample.li_for_if) in
  let without := __init__ env DOM.Snapshot
                          (with_plugins PrefixLookupDict.empty Sample.world)
                          (FromElement Sample.li_for_if) in
  (exists node, with_for.2 = Ok node
                /\ constructed_as with_for.1.1 node = Some ("If", ["x"]))
  /\ (exists node, without.2 = Ok node
                   /\ constructed_as without.1.1 node
                      = Some ("InterpolatedAttrsPlugin", [])).
Proof.
  cbv zeta. split; eexists; split; vm_compute; reflexivity.
Qed.

(** [TemplatePlugin.__init__] returns a template definition. *)
Lemma TemplatePlugin_init_definition fetch set_html _compile TagPlugin_init
      w e name src w' self :
  TemplatePlugin_init fetch set_html _compile TagPlugin_init w e name src
  = (w', Ok self) ->
  exists tpl, heap w' !! self = Some (mkObj (TemplateState tpl name) []).
Proof.
  unfold TemplatePlugin_init.
  destruct (TagPlugin_init e); [|discriminate].
  match goal with
  | |- context [match ?f with Ok _ => _ | Raise _ => _ end] =>
      destruct f as [e'|err]; [|discriminate]
  end.
  destruct (_compile w e') as [w1 [tpl|err]]; [|discriminate].
  unfold alloc. intros [= <- <-]. exists tpl.
  cbn [heap with_heap]. apply lookup_insert_eq.
Qed.

(** A class whose constructor is [TemplatePlugin.__init__] never becomes
    the plugin of a node: the call of line 130 raises, or it returns a
    definition and line 131 raises [TypeError]. *)
Lemma definition_is_never_installed env cls e args kw w h :
  body cls = TemplatePluginBody ->
  exists err, (subscribe (call_class env cls e args kw w) h).2 = Raise err.
Proof.
  intros Hbody. unfold call_class. rewrite Hbody.
  destruct (bind_arguments cls args kw) as [bound|err]; [|now exists err].
  destruct (bound !! _) as [name|]; [|now exists TypeError].
  destruct (TemplatePlugin_init _ _ _ _ w e name _) as [w' [self|err]] eqn:Hi;
    [|now exists err].
  apply TemplatePlugin_init_definition in Hi as (tpl & Hself).
  exists TypeError. unfold subscribe, plugin_bind. now rewrite Hself.
Qed.


Lemma clone_independent_of_registry_witness :
  (__init__ Sample.env DOM.Snapshot Sample.template_world
            (FromNode (mkTplNode 1 0))).2
  = (__init__ Sample.leaves DOM.Live
              (with_plugins PrefixLookupDict.empty Sample.template_world)
              (FromNode (mkTplNode 1 0))).2
  /\ (__init__ Sample.env DOM.Snapshot Sample.template_world
               (FromNode (mkTplNode 1 0))).2 = Ok (mkTplNode 2 2).
Proof.
  destruct (clone_independent_of_registry
              Sample.env Sample.leaves
              DOM.Snapshot DOM.Live Sample.registry PrefixLookupDict.empty
              Sample.template_world (mkTplNode 1 0))
    as (Hsame & _ & _ & _ & _ & _ & Hnode).
  split; [exact Hsame|].
  assert (H : (__init__ Sample.env DOM.Snapshot Sample.template_world
                        (FromNode (mkTplNode 1 0))).2 = Ok (mkTplNode 2 2))
    by (vm_compute; reflexivity).
  destruct (Hnode _ H) as [_ _]. exact H.
Defined.

(** The world of the samples is the one that constructing the definition
    node leaves behind, with the [TypeError] of line 131. *)
Example definition_node_is_not_built :
  __init__ Sample.env DOM.Snapshot Sample.world
           (FromElement Sample.template_div)
  = (Sample.template_world, FromElement (mkElement "DIV" [] (Some [])),
     Raise TypeError).
Proof. vm_compute. reflexivity. Qed.


End CloneClaims.

(** ** The update timer *)

Module TimerFacts.
Import Template.

Lemma start_timer_disarmed s :
  update_timer s = None ->
  _start_timer s =
  mkState (Some (next_interval s)) (subscribed s)
          (next_interval s :: intervals s) (S (next_interval s))
          (root_updates s).
Proof. intros H. unfold _start_timer. now rewrite H. Qed.

Lemma start_timer_armed s id : update_timer s = Some id -> _start_timer s = s.
Proof. intros H. unfold _start_timer. now rewrite H. Qed.

Lemma iter_fixed {A} (f : A -> A) n x : f x = x -> Nat.iter n f x = x.
Proof. intros H. induction n as [|n IH]; simpl; congruence. Qed.

Lemma emit_change_armed s id : update_timer s = Some id -> emit_change s = s.
Proof.
  intros H. unfold emit_change. apply iter_fixed.
  now apply (start_timer_armed s id).
Qed.

(** However many subscriptions there are, one notification sets one timer. *)
Lemma emit_change_disarmed s :
  (0 < subscribed s)%nat -> update_timer s = None ->
  emit_change s = _start_timer s.
Proof.
  intros Hsub Hnone. unfold emit_change.
  destruct (subscribed s) as [|k]; [lia|]. clear Hsub.
  induction k as [|k IH]; [reflexivity|].
  change (Nat.iter (S (S k)) _start_timer s)
    with (_start_timer (Nat.iter (S k) _start_timer s)).
  rewrite IH. rewrite (start_timer_disarmed s Hnone).
  reflexivity.
Qed.

Lemma iter_emit_armed n s id :
  update_timer s = Some id -> Nat.iter n emit_change s = s.
Proof. intros H. apply iter_fixed. now apply (emit_change_armed s id). Qed.

(** One tick of the armed timer. *)
Lemma update_armed emitted s id :
  update_timer s = Some id -> intervals s = [id] ->
  update emitted s =
  mkState None (subscribed s) [] (next_interval s) (S (root_updates s)).
Proof.
  intros Ht Hi. unfold update.
  rewrite (iter_emit_armed emitted _ id) by exact Ht.
  cbn [update_timer]. rewrite Ht.
  unfold set_update_timer, clear_interval. cbn. rewrite Hi.
  rewrite filter_cons_False by (intros H; now apply H). reflexivity.
Qed.

Lemma run_changes_armed n s id :
  update_timer s = Some id -> run (replicate n Change) s = s.
Proof.
  intros H. induction n as [|n IH]; [reflexivity|].
  unfold run in *. simpl. now rewrite (emit_change_armed s id H).
Qed.

(** With no live interval nothing comes due. *)
Lemma run_fires_idle fires s :
  Forall is_fire fires -> intervals s = [] -> run fires s = s.
Proof.
  intros Hf Hi. induction Hf as [|ev fires Hev _ IH]; [reflexivity|].
  unfold run in *. simpl. destruct ev as [|id k]; [destruct Hev|].
  simpl. rewrite Hi.
  rewrite bool_decide_eq_false_2 by apply not_elem_of_nil. exact IH.
Qed.

Lemma timer_inv_step s ev : timer_inv s -> timer_inv (step s ev).
Proof.
  intros Hinv. pose proof Hinv as [Hi Hlt]. destruct ev as [|id k]; simpl.
  - destruct (update_timer s) as [t|] eqn:Ht.
    + now rewrite (emit_change_armed s t Ht).
    + destruct (subscribed s) as [|m] eqn:Hs.
      * unfold emit_change. now rewrite Hs.
      * rewrite emit_change_disarmed by (lia || exact Ht).
        rewrite (start_timer_disarmed s Ht). split; cbn.
        -- now rewrite Hi.
        -- intros id H. inversion H. lia.
  - destruct (bool_decide (id ∈ intervals s)) eqn:Hin; [|exact Hinv].
    apply bool_decide_eq_true in Hin.
    rewrite Hi in Hin. destruct (update_timer s) as [t|] eqn:Ht;
      [|now apply elem_of_nil in Hin].
    rewrite (update_armed k s t) by (assumption || (rewrite Hi; reflexivity)).
    split; cbn; [reflexivity|]. intros ? H. discriminate.
Qed.

Lemma reachable_inv s : reachable s -> timer_inv s.
Proof.
  induction 1 as [next|s _ IH|s ev _ IH].
  - split; [reflexivity|]. intros id H. discriminate.
  - exact IH.
  - now apply timer_inv_step.
Qed.

End TimerFacts.

Module TimerClaim.
Import Template TimerFacts.

(** C4. For a bound template whose timer is disarmed, a burst of one or
    more change notifications arms exactly one timer and runs no update;
    when that timer comes due the root is updated once and the timer is
    cleared, also when the update itself emits notifications; after that no
    timer event runs another update, and the next change notification arms
    a new timer. *)
Theorem burst_coalesced_into_one_update (s : state) (n emitted : nat)
        (fires : list event) :
  reachable s -> (0 < subscribed s)%nat -> update_timer s = None ->
  Forall is_fire fires ->
  let id := next_interval s in
  let armed := run (replicate (S n) Change) s in
  let after := run (Fire id emitted :: fires) armed in
  (update_timer armed = Some id /\ intervals armed = [id]
   /\ root_updates armed = root_updates s)
  /\ (root_updates after = S (root_updates s)
      /\ update_timer after = None /\ intervals after = [])
  /\ update_timer (step after Change) = Some (S id).
Proof.
  intros Hreach Hsub Hnone Hfires. cbv zeta.
  destruct (reachable_inv s Hreach) as [Hi _].
  rewrite Hnone in Hi. simpl in Hi.
  assert (Harmed : run (replicate (S n) Change) s =
                   mkState (Some (next_interval s)) (subscribed s)
                           [next_interval s] (S (next_interval s))
                           (root_updates s)).
  { change (run (replicate (S n) Change) s)
      with (run (replicate n Change) (emit_change s)).
    rewrite emit_change_disarmed, (start_timer_disarmed s Hnone), Hi
      by assumption.
    now apply (run_changes_armed n _ (next_interval s)). }
  rewrite Harmed. split; [now cbn|].
  assert (Hafter : run (Fire (next_interval s) emitted :: fires)
                       (mkState (Some (next_interval s)) (subscribed s)
                                [next_interval s] (S (next_interval s))
                                (root_updates s)) =
                   mkState None (subscribed s) [] (S (next_interval s))
                           (S (root_updates s))).
  { unfold run. cbn [foldl step intervals].
    rewrite bool_decide_eq_true_2 by apply list_elem_of_here.
    rewrite (update_armed emitted _ (next_interval s)) by reflexivity.
    cbn. now apply run_fires_idle. }
  rewrite Hafter. split; [now cbn|].
  cbn [step]. rewrite emit_change_disarmed by (cbn; assumption || reflexivity).
  reflexivity.
Qed.

Lemma burst_coalesced_into_one_update_witness :
  let s := bind_ctx (__init__ 7) in
  let after := run ([Change; Change; Change] ++ [Fire 7 2; Fire 7 0; Fire 8 0]) s in
  root_updates after = 1%nat /\ update_timer after = None.
Proof.
  assert (Hr : reachable (bind_ctx (__init__ 7)))
    by (apply reach_bind, reach_init).
  assert (Hf : Forall is_fire [Fire 7 0; Fire 8 0])
    by (repeat constructor).
  destruct (burst_coalesced_into_one_update
              (bind_ctx (__init__ 7)) 2 2 [Fire 7 0; Fire 8 0]
              Hr (le_n 1) eq_refl Hf)
    as (_ & (Hu & Ht & _) & _).
  split; [exact Hu | exact Ht].
Defined.

End TimerClaim.

(** ** The named-template plugins *)

Section TagClaims.
Context {Rendered : Type}.
Variable env : TplNodeImpl.externals.
Variable it : DOM.iteration.
Variable fetch : str -> option str.
Variable set_html : Element -> option str -> Element.
Variable _compile : World -> Element -> World * result TplNode.
Variable TagPlugin_init : Element -> result unit.
Variable TagPlugin_bind_ctx : World -> nat -> Context -> World * result unit.
Variable node_bind_ctx : World -> TplNode -> Context -> World * result Rendered.

(** Had the request been made with [throw_on_error] on, a failed fetch
    would raise. *)
Lemma fetch_failure_raises_when_asked src :
  fetch src = None -> HTTPRequest fetch src true = Raise FetchError.
Proof. intros H. unfold HTTPRequest. now rewrite H. Qed.

(** C9. When the fetch of [src] fails, the request (made with
    [throw_on_error] off) yields no body and raises nothing; the constructor
    goes on to compile the element with an absent body and, the base class
    and the compiler raising nothing themselves, returns the definition
    holding the compiled node. *)
Theorem template_fetch_failure_absorbed (w w' : World) (el : Element)
        (name src : str) (tpl : TplNode) :
  fetch src = None ->
  TagPlugin_init el = Ok tt ->
  _compile w (set_html el None) = (w', Ok tpl) ->
  HTTPRequest fetch src false = Ok None
  /\ exists self w'',
      TemplatePlugin_init fetch set_html _compile TagPlugin_init
                          w el name (Some src) = (w'', Ok self)
      /\ heap w'' !! self = Some (mkObj (TemplateState tpl name) [])
      /\ heap w' !! self = None.
Proof.
  intros Hfetch Hbase Hcompile.
  assert (Hreq : HTTPRequest fetch src false = Ok None)
    by (unfold HTTPRequest; now rewrite Hfetch).
  split; [exact Hreq|].
  unfold TemplatePlugin_init. rewrite Hbase, Hreq, Hcompile.
  pose proof (CloneFacts.alloc_fresh (TemplateState tpl name) w') as Hfresh.
  destruct (alloc (TemplateState tpl name) w') as [self w''] eqn:Ha.
  exists self, w''. split; [reflexivity|]. split; [|exact Hfresh].
  unfold alloc in Ha. injection Ha as <- <-.
  cbn [heap with_heap]. apply lookup_insert_eq.
Qed.

(** C8. When the base class's [bind_ctx] has returned and the name of the
    include is not a key of the context's template cache, [bind_ctx] raises
    the [KeyError] of the lookup: nothing is instantiated or bound, and the
    include holds no template instance it did not hold before. *)
Theorem include_unknown_template_fails (w w1 : World) (self : nat)
        (ctx : Context) (name : option str) (inst : option TplNode)
        (ls : list nat) :
  TagPlugin_bind_ctx w self ctx = (w1, Ok tt) ->
  heap w1 !! self = Some (mkObj (IncludeState name inst) ls) ->
  name ≫= (fun n => TEMPLATE_CACHE ctx !! n) = None ->
  Include_bind_ctx env it TagPlugin_bind_ctx node_bind_ctx w self ctx
  = (w1, Raise (KeyError name)).
Proof.
  intros Hbase Hself Hmiss. unfold Include_bind_ctx.
  rewrite Hbase, Hself. cbn [fmap option_fmap option_map obj_state].
  now rewrite Hmiss.
Qed.

(** A name that is defined binds: the error is the missing key's. *)
Lemma include_known_template_binds (w w1 : World) (self definition : nat)
      (ctx : Context) (n : str) (inst : option TplNode) (ls : list nat) :
  TagPlugin_bind_ctx w self ctx = (w1, Ok tt) ->
  heap w1 !! self = Some (mkObj (IncludeState (Some n) inst) ls) ->
  TEMPLATE_CACHE ctx !! n = Some definition ->
  Include_bind_ctx env it TagPlugin_bind_ctx node_bind_ctx w self ctx =
  match TemplatePlugin_instantiate env it w1 definition ctx with
  | (w2, Ok i) => node_bind_ctx (set_tpl_instance self i w2) i ctx
  | (w2, Raise err) => (w2, Raise err)
  end.
Proof.
  intros Hbase Hself Hhit. unfold Include_bind_ctx.
  rewrite Hbase, Hself. cbn [fmap option_fmap option_map obj_state mbind option_bind].
  now rewrite Hhit.
Qed.

End TagClaims.

Lemma template_fetch_failure_absorbed_witness :
  Sample.no_network "templates/avatar.tpl" = None
  /\ is_ok (TemplatePlugin_init Sample.no_network Sample.set_html
              Sample._compile Sample.TagPlugin_init Sample.world
              Sample.empty_div "avatar" (Some "templates/avatar.tpl")).2
     = true.
Proof.
  split; [reflexivity|].
  destruct (template_fetch_failure_absorbed
              Sample.no_network Sample.set_html Sample._compile
              Sample.TagPlugin_init
              Sample.world
              (Sample._compile Sample.world Sample.empty_div).1
              Sample.empty_div "avatar" "templates/avatar.tpl"
              (mkTplNode 0 0) eq_refl eq_refl)
    as (_ & self & w'' & -> & _ & _).
  - vm_compute. reflexivity.
  - reflexivity.
Defined.

Lemma include_unknown_template_fails_witness :
  TEMPLATE_CACHE Sample.avatar_ctx !! ("missing" : str) = None
  /\ (Include_bind_ctx Sample.env DOM.Snapshot Sample.TagPlugin_bind_ctx
                       Sample.node_bind_ctx Sample.include_world 2
                       Sample.avatar_ctx).2
     = Raise (KeyError (Some "missing")).
Proof.
  assert (Hmiss : TEMPLATE_CACHE Sample.avatar_ctx !! ("missing" : str) = None)
    by (vm_compute; reflexivity).
  split; [exact Hmiss|].
  rewrite (include_unknown_template_fails
             Sample.env DOM.Snapshot Sample.TagPlugin_bind_ctx Sample.node_bind_ctx
             Sample.include_world Sample.include_world 2 Sample.avatar_ctx
             (Some "missing") None []).
  - reflexivity.
  - reflexivity.
  - vm_compute. reflexivity.
  - exact Hmiss.
Defined.


(** * Further properties of the code *)

(** ** PrefixLookupDict as a dictionary *)

Module DictFacts.
Import PyStr PrefixLookupDict PrefixLookupDictOps Spelling CanonicalFacts.

Section Alist.
Context {V : Type}.
Implicit Types (l : list (str * V)) (d : t V).

Lemma alist_get_set_eq k v l : alist_get k (alist_set k v l) = Some v.
Proof.
  induction l as [|[k' v'] l IH]; simpl.
  - now rewrite str_eqb_refl.
  - destruct (str_eqb_spec k k') as [->|Hne]; simpl.
    + now rewrite str_eqb_refl.
    + destruct (str_eqb_spec k k'); [contradiction | exact IH].
Qed.

Lemma alist_get_set_ne k k' v l :
  k <> k' -> alist_get k' (alist_set k v l) = alist_get k' l.
Proof.
  intros Hne. induction l as [|[k0 v0] l IH]; simpl.
  - destruct (str_eqb_spec k' k); [congruence | reflexivity].
  - destruct (str_eqb_spec k k0) as [->|Hk]; simpl.
    + destruct (str_eqb_spec k' k0); [congruence | reflexivity].
    + destruct (str_eqb_spec k' k0); [reflexivity | exact IH].
Qed.

Lemma alist_get_None k l : alist_get k l = None <-> k ∉ l.*1.
Proof.
  induction l as [|[k' v'] l IH]; simpl.
  - split; [intros _; apply not_elem_of_nil | reflexivity].
  - rewrite not_elem_of_cons.
    destruct (str_eqb_spec k k') as [->|Hne]; simpl.
    + split; [discriminate | intros [H _]; contradiction].
    + rewrite IH. tauto.
Qed.

Lemma alist_del_keys k l x : x ∈ (alist_del k l).*1 -> x ∈ l.*1.
Proof.
  induction l as [|[k' v'] l IH]; simpl; [auto|].
  destruct (str_eqb_spec k k') as [->|Hne]; simpl.
  - intros H. now right.
  - rewrite !elem_of_cons. intros [->|H]; [now left | right; auto].
Qed.

Lemma alist_del_NoDup k l : NoDup l.*1 -> NoDup (alist_del k l).*1.
Proof.
  induction l as [|[k' v'] l IH]; simpl; [auto|].
  rewrite NoDup_cons. intros [Hk Hl].
  destruct (str_eqb_spec k k') as [->|Hne]; simpl; [exact Hl|].
  apply NoDup_cons. split; [|auto].
  intros H. apply Hk. eapply alist_del_keys. exact H.
Qed.

Lemma alist_get_del_eq k l : NoDup l.*1 -> alist_get k (alist_del k l) = None.
Proof.
  induction l as [|[k' v'] l IH]; simpl; [auto|].
  rewrite NoDup_cons. intros [Hk Hl].
  destruct (str_eqb_spec k k') as [->|Hne]; simpl.
  - now apply alist_get_None.
  - destruct (str_eqb_spec k k'); [contradiction | auto].
Qed.

Lemma alist_get_del_ne k k' l :
  k <> k' -> alist_get k' (alist_del k l) = alist_get k' l.
Proof.
  intros Hne. induction l as [|[k0 v0] l IH]; simpl; [reflexivity|].
  destruct (str_eqb_spec k k0) as [->|Hk]; simpl.
  - destruct (str_eqb_spec k' k0); [congruence | reflexivity].
  - destruct (str_eqb_spec k' k0); [reflexivity | exact IH].
Qed.

Lemma alist_del_absent k l : alist_get k l = None -> alist_del k l = l.
Proof.
  induction l as [|[k' v'] l IH]; simpl; [reflexivity|].
  destruct (str_eqb_spec k k'); [discriminate|].
  intros H. now rewrite IH.
Qed.

Lemma alist_set_keys k v l x :
  x ∈ (alist_set k v l).*1 <-> x = k \/ x ∈ l.*1.
Proof.
  induction l as [|[k' v'] l IH]; simpl.
  - rewrite list_elem_of_singleton, elem_of_nil. tauto.
  - destruct (str_eqb_spec k k') as [->|Hne]; simpl;
      rewrite !elem_of_cons; [tauto|]. rewrite IH. tauto.
Qed.

Lemma alist_set_NoDup k v l : NoDup l.*1 -> NoDup (alist_set k v l).*1.
Proof.
  induction l as [|[k' v'] l IH]; simpl.
  - intros _. apply NoDup_singleton.
  - rewrite NoDup_cons. intros [Hk Hl].
    destruct (str_eqb_spec k k') as [->|Hne]; simpl.
    + apply NoDup_cons. now split.
    + apply NoDup_cons. split; [|auto].
      rewrite alist_set_keys. intros [->|H]; [congruence | contradiction].
Qed.

End Alist.

Lemma startswith_app a b : startswith (a ++ b) a = true.
Proof.
  induction a as [|c a IH]; simpl; [now destruct b|].
  now rewrite N.eqb_refl.
Qed.

Lemma slice_from_app a b : slice_from (length a) (a ++ b) = b.
Proof. apply drop_app_length. Qed.

Lemma canonical_empty_prefix key : _canonical "" key = squash key.
Proof. unfold _canonical. now rewrite startswith_empty. Qed.

Section Dict.
Context {V : Type}.
Implicit Types (d : t V).

Lemma update_prefix d (other : list (str * V)) :
  _prefix (update d other) = _prefix d.
Proof.
  revert d. induction other as [|kv other IH]; intros d; [reflexivity|].
  unfold update in *. simpl. now rewrite IH.
Qed.

Lemma update_keys_unique d (other : list (str * V)) :
  keys_unique d -> keys_unique (update d other).
Proof.
  revert d. induction other as [|kv other IH]; intros d Hd; [exact Hd|].
  unfold update in *. simpl. apply IH. now apply alist_set_NoDup.
Qed.

Lemma last_filter_cons {A} (P : A -> Prop) `{forall x, Decision (P x)} x l :
  last (filter P (x :: l)) =
  match last (filter P l) with
  | Some y => Some y
  | None => if decide (P x) then Some x else None
  end.
Proof.
  rewrite filter_cons. destruct (decide (P x)); [|now destruct (last _)].
  now rewrite last_cons.
Qed.

Lemma getitem_update d (other : list (str * V)) key :
  __getitem__ (update d other) key =
  match last_spelled (_prefix d) key other with
  | Some v => Some v
  | None => __getitem__ d key
  end.
Proof.
  revert d. induction other as [|[k v] other IH]; intros d; [reflexivity|].
  change (update d ((k, v) :: other)) with (update (__setitem__ d k v) other).
  rewrite IH. unfold last_spelled. cbn [_prefix __setitem__].
  rewrite last_filter_cons.
  destruct (last (filter _ other)) as [kv|]; [reflexivity|].
  unfold __getitem__, __setitem__. cbn [_prefix items fst snd].
  destruct (decide _) as [Heq|Hne]; simpl.
  - rewrite <- Heq. apply alist_get_set_eq.
  - now apply alist_get_set_ne.
Qed.

End Dict.

Lemma of_list_update l :
  of_list l = update empty ((fun x => (x, x)) <$> l).
Proof.
  unfold of_list, update. generalize (@empty str).
  induction l as [|x l IH]; intros d; [reflexivity|]. simpl. apply IH.
Qed.

Lemma getitem_of_list l key :
  __getitem__ (of_list l) key =
  last (filter (fun x => _canonical "" x = _canonical "" key) l).
Proof.
  rewrite of_list_update, getitem_update. cbn [_prefix empty].
  unfold last_spelled.
  induction l as [|x l IH]; [reflexivity|].
  rewrite fmap_cons, !last_filter_cons. cbn [fst].
  change (@__getitem__ str empty key) with (@None str) in *.
  destruct (last (filter _ ((fun x => (x, x)) <$> l))) as [[a b]|];
    destruct (last (filter _ l)) as [y|]; simpl in *;
    try congruence.
  now destruct (decide _).
Qed.

Lemma of_list_keys_unique l : keys_unique (of_list l).
Proof. rewrite of_list_update. apply update_keys_unique. constructor. Qed.

End DictFacts.

Module DictProps.
Import PyStr PrefixLookupDict PrefixLookupDictOps Spelling CanonicalFacts
       DictFacts.

(** X1. Reading after writing: [d[key] = v] followed by [d[key']] gives [v]
    when the two keys have the same canonical form, in particular when they
    are two spellings of one name, and otherwise what [d[key']] gave
    before. *)
Theorem setitem_then_getitem {V} (d : t V) (key key' : str) (v : V) :
  __getitem__ (__setitem__ d key v) key' =
    (if decide (_canonical (_prefix d) key = _canonical (_prefix d) key')
     then Some v else __getitem__ d key')
  /\ (same_name key key' ->
      __getitem__ (__setitem__ d key v) key' = Some v
      /\ __contains__ (__setitem__ d key v) key' = true).
Proof.
  assert (Hget : __getitem__ (__setitem__ d key v) key' =
                 if decide (_canonical (_prefix d) key
                            = _canonical (_prefix d) key')
                 then Some v else __getitem__ d key').
  { unfold __getitem__, __setitem__. cbn [_prefix items].
    destruct (decide _) as [->|Hne];
      [apply alist_get_set_eq | now apply alist_get_set_ne]. }
  split; [exact Hget|]. intros Hsame.
  assert (Hv : __getitem__ (__setitem__ d key v) key' = Some v).
  { rewrite Hget. rewrite decide_True; [reflexivity|].
    unfold _canonical. now rewrite (same_name_squash _ _ Hsame). }
  split; [exact Hv|]. unfold __contains__. rewrite Hv.
  now apply bool_decide_eq_true_2.
Qed.

Lemma setitem_then_getitem_witness :
  __getitem__ (__setitem__ (set_prefix (@empty nat) "tpl-") "tpl-for" 7)
              "TPL_For" = Some 7.
Proof.
  destruct (setitem_then_getitem (set_prefix (@empty nat) "tpl-")
              "tpl-for" "TPL_For" 7) as [_ H].
  apply H. spelled.
Defined.

(** X2. Deleting: on a dictionary that holds each key once, [del d[key]]
    raises [KeyError] exactly when [key] is not in [d]; otherwise the key
    is gone afterwards, every other key reads as before, and [remove] does
    the same but swallows the error and leaves [d] as it was. *)
Theorem delitem_removes_or_raises {V} (d : t V) (key : str) :
  keys_unique d ->
  match __delitem__ d key with
  | Ok d' =>
      __contains__ d key = true
      /\ __getitem__ d' key = None
      /\ (forall key', _canonical (_prefix d) key'
                       <> _canonical (_prefix d) key ->
                       __getitem__ d' key' = __getitem__ d key')
      /\ keys_unique d'
      /\ remove d key = d'
  | Raise err =>
      err = KeyError (Some (_canonical (_prefix d) key))
      /\ __contains__ d key = false
      /\ remove d key = d
  end.
Proof.
  intros Hu. unfold __delitem__, __contains__, __getitem__, remove.
  destruct (alist_get (_canonical (_prefix d) key) (items d)) as [v|] eqn:Hg.
  - cbn [_prefix items]. split; [now apply bool_decide_eq_true_2|].
    split; [now apply alist_get_del_eq|].
    split; [intros key' Hne; apply alist_get_del_ne; congruence|].
    split; [now apply alist_del_NoDup | reflexivity].
  - split; [reflexivity|].
    split; [apply bool_decide_eq_false_2; now intros [? ?]|].
    rewrite (alist_del_absent _ _ Hg). now destruct d.
Qed.

Lemma delitem_removes_or_raises_witness :
  keys_unique (of_list ["self"; "tpl_element"; "name"])
  /\ __contains__ (remove (of_list ["self"; "tpl_element"; "name"]) "self")
                  "SELF" = false
  /\ __delitem__ (of_list ["name"]) "src" = Raise (KeyError (Some "SRC")).
Proof.
  pose proof (of_list_keys_unique ["self"; "tpl_element"; "name"]) as Hu.
  split; [exact Hu|].
  pose proof (delitem_removes_or_raises
                (of_list ["self"; "tpl_element"; "name"]) "self" Hu) as H.
  change (__delitem__ (of_list ["self"; "tpl_element"; "name"]) "self")
    with (Ok (@mk str "" [("TPLELEMENT", "tpl_element"); ("NAME", "name")]))
      in H.
  destruct H as (_ & _ & _ & _ & ->).
  split; reflexivity.
Defined.

(** X3. After [set_prefix(prefix)] on a dictionary filled under the empty
    prefix, a key written with the prefix in front reads what the bare key
    read before, a key whose canonical form does not begin with the prefix
    still reads the same, and the spelling of the prefix does not matter. *)
Theorem set_prefix_resolves_prefixed_keys {V} (d : t V) (prefix key : str) :
  _prefix d = "" ->
  __getitem__ (set_prefix d prefix) (prefix ++ key) = __getitem__ d key
  /\ (startswith (squash key) (squash prefix) = false ->
      __getitem__ (set_prefix d prefix) key = __getitem__ d key)
  /\ (forall prefix', same_name prefix prefix' ->
                      set_prefix d prefix = set_prefix d prefix').
Proof.
  intros Hp. unfold __getitem__, set_prefix. cbn [_prefix items].
  rewrite Hp, canonical_empty_prefix. split; [|split].
  - unfold _canonical.
    now rewrite squash_app, startswith_app, slice_from_app.
  - intros Hno. unfold _canonical. now rewrite Hno.
  - intros prefix' Hs. now rewrite (same_name_squash _ _ Hs).
Qed.

Lemma set_prefix_resolves_prefixed_keys_witness :
  __getitem__ (set_prefix (of_list ["for"; "if"]) "tpl-") "tpl-for"
  = __getitem__ (of_list ["for"; "if"]) "for"
  /\ __getitem__ (of_list ["for"; "if"]) "for" = Some "for".
Proof.
  destruct (set_prefix_resolves_prefixed_keys
              (of_list ["for"; "if"]) "tpl-" "for" eq_refl) as [H _].
  split; [exact H | reflexivity].
Defined.

(** X4. Filling a dictionary from pairs: after [update(other)], and so
    after [PrefixLookupDict(init)], a key reads the value of the last pair
    of [other] whose key has the same canonical form, and what it read
    before when there is none; built from a list, a key reads the last
    item spelled like it. *)
Theorem update_last_write_wins {V} (d : t V) (other : list (str * V))
        (l : list str) (key : str) :
  __getitem__ (update d other) key =
    match last_spelled (_prefix d) key other with
    | Some v => Some v
    | None => __getitem__ d key
    end
  /\ __getitem__ (of_items other) key = last_spelled "" key other
  /\ __getitem__ (of_list l) key =
     last (filter (fun x => _canonical "" x = _canonical "" key) l).
Proof.
  split; [apply getitem_update|]. split.
  - change (of_items other) with (update empty other).
    rewrite getitem_update. cbn [_prefix empty].
    now destruct (last_spelled "" key other).
  - apply getitem_of_list.
Qed.

End DictProps.


(** ** Registering plugins *)

Module RegisterProps.
Import PyStr PrefixLookupDict PrefixLookupDictOps CanonicalFacts DictFacts
       TplNodeImpl.

Lemma getitem_remove {V} (d : t V) k key :
  keys_unique d ->
  __getitem__ (remove d k) key =
  if decide (_canonical (_prefix d) k = _canonical (_prefix d) key)
  then None else __getitem__ d key.
Proof.
  intros Hu. unfold __getitem__, remove. cbn [_prefix items].
  destruct (decide _) as [<-|Hne];
    [now apply alist_get_del_eq | now apply alist_get_del_ne].
Qed.

Lemma remove_keys_unique {V} (d : t V) k :
  keys_unique d -> keys_unique (remove d k).
Proof. intros Hu. unfold keys_unique, remove. simpl. now apply alist_del_NoDup. Qed.

(** The accepted argument names of a class: its variable names without
    [self] and [tpl_element]. *)
Lemma accepted_args vars x :
  __getitem__ (remove (remove (of_list vars) "self") "tpl_element") x =
  if decide (squash x = "SELF" \/ squash x = "TPLELEMENT") then None
  else last (filter (fun y => squash y = squash x) vars).
Proof.
  pose proof (of_list_keys_unique vars) as Hu.
  rewrite getitem_remove by now apply remove_keys_unique.
  rewrite getitem_remove by exact Hu.
  replace (_prefix (remove (of_list vars) "self")) with ("" : str)
    by (unfold remove; simpl; rewrite of_list_update;
        now rewrite update_prefix).
  replace (_prefix (of_list vars)) with ("" : str)
    by (rewrite of_list_update; now rewrite update_prefix).
  rewrite !canonical_empty_prefix.
  change (squash "tpl_element") with ("TPLELEMENT" : str).
  change (squash "self") with ("SELF" : str).
  destruct (decide (("TPLELEMENT" : str) = squash x)) as [H1|H1].
  { rewrite decide_True by (right; congruence). reflexivity. }
  destruct (decide (("SELF" : str) = squash x)) as [H2|H2].
  { rewrite decide_True by (left; congruence). reflexivity. }
  rewrite decide_False by (intros [?|?]; congruence).
  rewrite getitem_of_list. f_equal. apply list_filter_iff.
  intros y. now rewrite !canonical_empty_prefix.
Qed.

(** X5. [register_plugin] stores, under the class's registered name, a
    descriptor that holds the class, carries its [PRIORITY] (0 when there
    is none) and accepts as keyword arguments exactly the variable names
    of its constructor other than [self] and [tpl_element], under any
    spelling; an accepted spelling maps to the variable name as written in
    the constructor. *)
Theorem register_plugin_descriptor (R : Discovery.Registry) (c : plugin_class) :
  exists m,
    __getitem__ (register_plugin R c) (registered_name c) = Some m
    /\ d_class m = c
    /\ d_name m = registered_name c
    /\ d_priority m = default 0%Z (PRIORITY c)
    /\ forall x,
        __getitem__ (d_args m) x =
        if decide (squash x = "SELF" \/ squash x = "TPLELEMENT") then None
        else last (filter (fun y => squash y = squash x) (co_varnames c)).
Proof.
  unfold register_plugin. fold (registered_name c).
  eexists. split.
  - unfold __getitem__, __setitem__. cbn [_prefix items].
    apply alist_get_set_eq.
  - cbn [d_class d_name d_priority d_args]. repeat split.
    intros x. apply accepted_args.
Qed.

(** X6. Registering leaves every name with another canonical form as it
    was, and a second class registered under a name with the same
    canonical form replaces the first. *)
Theorem register_plugin_last_wins (R : Discovery.Registry)
        (c1 c2 : plugin_class) (key : str) :
  (_canonical (_prefix R) (registered_name c1)
   <> _canonical (_prefix R) key ->
   __getitem__ (register_plugin R c1) key = __getitem__ R key)
  /\ (_canonical (_prefix R) (registered_name c1)
      = _canonical (_prefix R) (registered_name c2) ->
      d_class <$> __getitem__ (register_plugin (register_plugin R c1) c2)
                              (registered_name c1)
      = Some c2).
Proof.
  unfold register_plugin. fold (registered_name c1) (registered_name c2).
  unfold __getitem__, __setitem__. cbn [_prefix items]. split.
  - intros Hne. now apply alist_get_set_ne.
  - intros Heq. rewrite <- Heq, alist_get_set_eq. reflexivity.
Qed.

Lemma register_plugin_last_wins_witness :
  __name__ <$> (d_class <$> __getitem__
    (register_plugin (register_plugin Sample.registry Sample.IncludeClass)
                     (mkClass "MyInclude" (Some "include") None ["self"] 1 0
                              ExternalBody))
    "Include")
  = Some ("MyInclude" : str)
  /\ __getitem__ (register_plugin Sample.registry Sample.IncludeClass) "for"
     = __getitem__ Sample.registry "for".
Proof.
  split.
  - exact (f_equal (fmap __name__)
             (proj2 (register_plugin_last_wins
                       Sample.registry Sample.IncludeClass
                       (mkClass "MyInclude" (Some "include") None ["self"] 1 0
                                ExternalBody) "x") eq_refl)).
  - apply (register_plugin_last_wins Sample.registry Sample.IncludeClass
             Sample.IncludeClass "for").
    vm_compute. discriminate.
Defined.

End RegisterProps.

(** ** Keyword arguments *)

Module KwargsProps.
Import PrefixLookupDict PrefixLookupDictOps DictFacts Discovery DiscoveryFacts.

Lemma kwargs_of_snoc hits a k :
  kwargs_of (hits ++ [(a, k)]) = <[k := DOM.value a]> (kwargs_of hits).
Proof. unfold kwargs_of. now rewrite foldl_snoc. Qed.

(** Every keyword argument comes from a matched attribute. *)
Lemma kwargs_of_lookup hits k v :
  kwargs_of hits !! k = Some v ->
  exists a, (a, k) ∈ hits /\ DOM.value a = v.
Proof.
  induction hits as [|[a k'] hits IH] using rev_ind.
  - unfold kwargs_of. simpl. rewrite lookup_empty. discriminate.
  - rewrite kwargs_of_snoc. destruct (decide (k' = k)) as [->|Hne].
    + rewrite lookup_insert_eq. intros [= <-]. exists a.
      split; [|reflexivity]. apply elem_of_app. right. apply list_elem_of_here.
    + rewrite lookup_insert_ne by exact Hne. intros H.
      destruct (IH H) as (a' & Hin & Hv). exists a'.
      split; [|exact Hv]. apply elem_of_app. now left.
Qed.

(** The item of a dictionary built from pairs is the value of one of them. *)
Lemma getitem_of_items_value {V} (l : list (str * V)) key v :
  __getitem__ (of_items l) key = Some v -> v ∈ l.*2.
Proof.
  change (of_items l) with (update empty l). rewrite getitem_update.
  cbn [_prefix empty]. unfold last_spelled.
  destruct (last (filter _ l)) as [[k' v']|] eqn:Hl; simpl.
  - intros [= <-]. apply last_Some_elem_of in Hl.
    apply list_elem_of_filter in Hl as [_ Hl].
    apply list_elem_of_fmap. exists (k', v'). auto.
  - discriminate.
Qed.

(** X7. [_build_kwargs] on a node with distinct attribute names: every
    keyword argument it returns is named by an argument name of the plugin
    as the constructor writes it, and holds the value of an attribute that
    was on the node, whose name is spelled like that argument and is off
    the node afterwards; the node only loses attributes and keeps its tag. *)
Theorem build_kwargs_from_attributes it (e : Element) (p : Descriptor) :
  NoDup (attr_names (attributes e)) ->
  let r := _build_kwargs it e p in
  (forall k v, r.2 !! k = Some v ->
     k ∈ (items (d_args p)).*2
     /\ exists a, a ∈ attributes e /\ DOM.value a = v
                  /\ (DOM.name a ∉ attr_names (attributes r.1))
                  /\ __getitem__ (of_items (items (d_args p))) (DOM.name a)
                     = Some k)
  /\ (forall a, a ∈ attributes r.1 -> a ∈ attributes e)
  /\ nodeName r.1 = nodeName e.
Proof.
  intros Hnd. cbv zeta. unfold _build_kwargs.
  pose proof (kwargs_hits_nodeName it e p) as [Hname _].
  unfold kwargs_hits in *.
  set (sel := fun attr : DOM.Attr =>
                __getitem__ (of_items (items (d_args p))) (DOM.name attr)) in *.
  destruct (for_attributes_post sel it e Hnd) as (hits & Heq & Hnodup & Hin).
  rewrite Heq in *. cbn [fst snd app] in *. split; [|split].
  - intros k v Hkv. destruct (kwargs_of_lookup _ _ _ Hkv) as (a & Ha & Hv).
    destruct (Hin _ _ Ha) as [Hae Hsel]. split.
    + eapply getitem_of_items_value. exact Hsel.
    + exists a. repeat split; try assumption.
      unfold without, attr_names; simpl. rewrite list_elem_of_fmap.
      intros (x & Hx & Hxin). apply list_elem_of_filter in Hxin as [Hxn _].
      apply Hxn. rewrite <- Hx. unfold attr_names.
      apply list_elem_of_fmap. exists a. split; [reflexivity|].
      apply list_elem_of_fmap. exists (a, k). auto.
  - intros a Ha. unfold without in Ha; simpl in Ha.
    now apply list_elem_of_filter in Ha as [_ Ha].
  - exact Hname.
Qed.

Lemma build_kwargs_from_attributes_witness :
  NoDup (attr_names (attributes Sample.li_if_for))
  /\ nodeName (_build_kwargs DOM.Live Sample.li_if_for
                 (mkDescriptor Sample.IfClass (of_list ["cond"; "else_"]) "If" 20)).1
     = "LI".
Proof.
  assert (Hnd : NoDup (attr_names (attributes Sample.li_if_for))).
  { apply (@bool_decide_unpack _ (NoDup_dec _)). vm_compute. reflexivity. }
  split; [exact Hnd|].
  destruct (build_kwargs_from_attributes DOM.Live Sample.li_if_for
              (mkDescriptor Sample.IfClass (of_list ["cond"; "else_"]) "If" 20) Hnd)
    as (_ & _ & ->).
  reflexivity.
Defined.

End KwargsProps.


(** ** The constructor of TplNode *)

Module ConstructorFacts.
Import Discovery DiscoveryFacts TplNodeImpl CloneFacts.

Lemma construct_frame cls e args kw h w0 :
  let r := construct cls e args kw h w0 in
  _HASH_SEQ r.1 = _HASH_SEQ w0
  /\ PLUGINS r.1 = PLUGINS w0
  /\ _hash r.2 = h
  /\ heap w0 !! plugin r.2 = None
  /\ heap r.1 !! plugin r.2 = Some (mkObj (Constructed cls e args kw) [h])
  /\ (forall k o, heap w0 !! k = Some o -> heap r.1 !! k = Some o).
Proof.
  cbv zeta. unfold construct.
  pose proof (alloc_fresh (Constructed cls e args kw) w0) as Hf.
  unfold alloc in *. cbn [fst snd] in *.
  unfold bind_change. cbn [heap with_heap _HASH_SEQ PLUGINS fst snd plugin _hash].
  repeat split.
  - exact Hf.
  - now rewrite lookup_alter_eq, lookup_insert_eq.
  - intros k o Hk.
    assert (Hne : fresh (dom (heap w0)) <> k) by (intros <-; congruence).
    now rewrite lookup_alter_ne, lookup_insert_ne.
Qed.

Lemma for_attributes_none {B} (sel : DOM.Attr -> option B) it e :
  (forall a, a ∈ attributes e -> sel a = None) ->
  for_attributes sel it e = (e, []).
Proof.
  intros Hnone. destruct it; simpl.
  - assert (H : forall todo, (forall a, a ∈ todo -> a ∈ attributes e) ->
                             scan_snapshot sel todo e [] = (e, [])).
    { induction todo as [|a todo IH]; intros Hsub; [reflexivity|]. simpl.
      rewrite (Hnone a) by (apply Hsub; left).
      apply IH. intros x Hx. apply Hsub. now right. }
    now apply H.
  - generalize (length (attributes e)) 0. intros fuel.
    induction fuel as [|fuel IH]; intros i; [reflexivity|]. simpl.
    destruct (attributes e !! i) as [a|] eqn:Hi; [|reflexivity].
    rewrite (Hnone a) by (apply list_elem_of_lookup; eauto). apply IH.
Qed.

(** A first pass over a node on which nothing resolves. *)
Lemma discover_nothing it R e :
  (forall a, a ∈ attributes e ->
             PrefixLookupDict.__getitem__ R (DOM.name a) = None) ->
  PrefixLookupDict.__getitem__ R (nodeName e) = None ->
  discover it R e = mkPass (set_plugins e []) None (Ok []).
Proof.
  intros Hattrs Htag. unfold discover, plugin_metas, find_triggers.
  rewrite for_attributes_none by exact Hattrs. simpl.
  now rewrite Htag.
Qed.

(** *** What a construction leaves of the class attributes and of the
        existing instances *)

Lemma same_frame_refl w : same_frame w w.
Proof.
  split; [reflexivity|]. split; [reflexivity|].
  intros k [st ls] Hk. eauto.
Qed.

Lemma same_frame_trans a b c :
  same_frame a b -> same_frame b c -> same_frame a c.
Proof.
  intros (Hh1 & Hp1 & Hk1) (Hh2 & Hp2 & Hk2).
  split; [congruence|]. split; [congruence|].
  intros k o Hk. destruct (Hk1 k o Hk) as (ls & Hb).
  exact (Hk2 k _ Hb).
Qed.

Lemma same_frame_keeps a b : same_frame a b -> keeps a b.
Proof. intros (Hh & Hp & Hk). split; [lia|]. now split. Qed.

Lemma keeps_trans a b c : keeps a b -> keeps b c -> keeps a c.
Proof.
  intros (Hh1 & Hp1 & Hk1) (Hh2 & Hp2 & Hk2).
  split; [lia|]. split; [congruence|].
  intros k o Hk. destruct (Hk1 k o Hk) as (ls & Hb).
  exact (Hk2 k _ Hb).
Qed.

Lemma alloc_frame st w :
  same_frame w (alloc st w).2
  /\ heap (alloc st w).2 !! (alloc st w).1 = Some (mkObj st []).
Proof.
  pose proof (alloc_fresh st w) as Hf. unfold alloc in *. cbn [fst snd] in *.
  cbn [heap with_heap]. split; [|apply lookup_insert_eq].
  split; [reflexivity|]. split; [reflexivity|].
  intros k [st' ls'] Hk.
  assert (Hne : fresh (dom (heap w)) <> k) by (intros <-; congruence).
  exists ls'. cbn [heap with_heap obj_state]. now rewrite lookup_insert_ne.
Qed.

Lemma bind_change_frame r h w : same_frame w (bind_change r h w).
Proof.
  split; [reflexivity|]. split; [reflexivity|].
  intros k [st ls] Hk. unfold bind_change. cbn [heap with_heap].
  destruct (decide (r = k)) as [->|Hne].
  - rewrite lookup_alter_eq, Hk. simpl. eauto.
  - rewrite lookup_alter_ne by exact Hne. eauto.
Qed.

Lemma plugin_clone_frame r w :
  same_frame w (plugin_clone r w).1
  /\ forall r', (plugin_clone r w).2 = Ok r' ->
                is_Some (heap (plugin_clone r w).1 !! r').
Proof.
  unfold plugin_clone. destruct (heap w !! r) as [[st ls]|] eqn:Hr.
  2:{ split; [apply same_frame_refl | discriminate]. }
  cbn [obj_state]. destruct st as [cls e args kw|tpl name|name inst].
  - pose proof (alloc_frame (Constructed cls e args kw) w) as [Hf Hn].
    destruct (alloc _ w) as [r1 w1]. cbn [fst snd] in *.
    split; [exact Hf|]. intros r' [= <-]. eauto.
  - unfold TemplatePlugin_clone. cbn [fst snd].
    split; [apply same_frame_refl|]. intros r' [= <-]. eauto.
  - pose proof (alloc_frame (IncludeState name None) w) as [Hf Hn].
    destruct (alloc _ w) as [r1 w1]. cbn [fst snd] in *.
    split; [exact Hf|]. intros r' [= <-]. eauto.
Qed.

(** Line 95, 131: the subscription creates nothing, and a node comes back
    only for a live plugin. *)
Lemma subscribe_frame x h :
  same_frame x.1 (subscribe x h).1
  /\ forall node, (subscribe x h).2 = Ok node ->
       x.2 = Ok (plugin node) /\ _hash node = h
       /\ is_Some (heap (subscribe x h).1 !! plugin node).
Proof.
  destruct x as [w [r|err]]; cbn [fst snd subscribe].
  2:{ split; [apply same_frame_refl | discriminate]. }
  unfold plugin_bind.
  destruct (heap w !! r) as [[st ls]|] eqn:Hr;
    cbn [fmap option_fmap option_map obj_state].
  2:{ split; [apply same_frame_refl | discriminate]. }
  assert (Hlive : is_Some (heap (bind_change r h w) !! r)).
  { unfold bind_change. cbn [heap with_heap].
    rewrite lookup_alter_eq, Hr. simpl. eauto. }
  destruct st; cbn [fst snd];
    try (split; [apply bind_change_frame|]; intros node [= <-]; auto).
  split; [apply same_frame_refl | discriminate].
Qed.

(** The call of a plugin class: only the compiler behind
    [TemplatePlugin.__init__] can touch the sequence counter. *)
Lemma call_class_frame env cls e args kw w :
  (body cls <> TemplatePluginBody ->
   same_frame w (call_class env cls e args kw w).1)
  /\ (quiet env -> keeps w (call_class env cls e args kw w).1).
Proof.
  unfold call_class.
  destruct (bind_arguments cls args kw) as [bound|err].
  2:{ split; intros _; [|apply same_frame_keeps]; apply same_frame_refl. }
  destruct (body cls).
  - split; [congruence|]. intros Hq.
    destruct (bound !! _) as [name|];
      [|apply same_frame_keeps, same_frame_refl].
    unfold TemplatePlugin_init.
    destruct (ext_TagPlugin_init env e);
      [|apply same_frame_keeps, same_frame_refl].
    match goal with
    | |- context [match ?f with Ok _ => _ | Raise _ => _ end] =>
        destruct f as [e'|err]; [|apply same_frame_keeps, same_frame_refl]
    end.
    pose proof (Hq w e') as Hc.
    destruct (ext_compile env w e') as [w1 [tpl|err]]; cbn [fst] in Hc;
      [|exact Hc].
    pose proof (alloc_frame (TemplateState tpl name) w1) as [Hf _].
    destruct (alloc _ w1) as [r1 w2]. cbn [fst snd] in *.
    eapply keeps_trans; [exact Hc | now apply same_frame_keeps].
  - assert (H : same_frame w
                  (Include_init (ext_TagPlugin_init env)
                     (ext_TagPlugin_init_from env) w (inl e)
                     (bound !! ("name" : str))).1).
    { unfold Include_init.
      destruct (ext_TagPlugin_init env e); [|apply same_frame_refl].
      pose proof (alloc_frame (IncludeState (bound !! ("name" : str)) None) w)
        as [Hf _].
      now destruct (alloc _ w) as [r1 w1]. }
    split; intros _; [|apply same_frame_keeps]; exact H.
  - pose proof (alloc_frame (Constructed (__name__ cls) e args kw) w) as [Hf _].
    destruct (alloc _ w) as [r1 w1]. cbn [fst snd] in *.
    split; intros _; [|apply same_frame_keeps]; exact Hf.
Qed.

Lemma init_post_raise env w0 h a err : init_post env w0 h (w0, a, Raise err).
Proof.
  split; [intros _; apply same_frame_keeps, same_frame_refl | discriminate].
Qed.

Lemma init_post_construct env w0 h a cls e args kw :
  init_post env w0 h ((construct cls e args kw h w0).1, a,
                      Ok (construct cls e args kw h w0).2).
Proof.
  pose proof (construct_frame cls e args kw h w0)
    as (Hh & Hp & Hn & _ & Hnew & Hold).
  assert (Hf : same_frame w0 (construct cls e args kw h w0).1).
  { split; [exact Hh|]. split; [exact Hp|].
    intros k [st ls] Hk. exists ls. now apply Hold. }
  split; [intros _; now apply same_frame_keeps|].
  cbn [fst snd]. intros node [= <-]. split; [exact Hf|].
  split; [exact Hn|]. eauto.
Qed.

Lemma init_post_subscribe env w0 h a x :
  (quiet env -> keeps w0 x.1) ->
  (forall node, (subscribe x h).2 = Ok node -> same_frame w0 x.1) ->
  init_post env w0 h ((subscribe x h).1, a, (subscribe x h).2).
Proof.
  intros Hq Hok. destruct (subscribe_frame x h) as [Hf Hnode].
  split; cbn [fst snd].
  - intros H. eapply keeps_trans; [now apply Hq | now apply same_frame_keeps].
  - intros node Hn. destruct (Hnode node Hn) as (_ & Hh & Hlive).
    split; [|now split].
    eapply same_frame_trans; [exact (Hok node Hn) | exact Hf].
Qed.

End ConstructorFacts.

Module ConstructorProps.
Import Discovery DiscoveryFacts TplNodeImpl CloneFacts ConstructorFacts.

(** X8. A first pass over an element none of whose attribute names and
    whose tag name resolve in the registry never raises: the node keeps all
    its attributes, an empty assignment list is cached on it, and the new
    node's plugin is the attribute-interpolation plugin when there are
    attributes and the generic tag plugin when there are none. *)
Theorem unmatched_node_falls_back env it (w : World) (e : Element) :
  str_eqb (nodeName e) "#text" = false ->
  _plugins e = None ->
  (forall a, a ∈ attributes e ->
             PrefixLookupDict.__getitem__ (PLUGINS w) (DOM.name a) = None) ->
  PrefixLookupDict.__getitem__ (PLUGINS w) (nodeName e) = None ->
  exists w' node,
    __init__ env it w (FromElement e)
    = (w', FromElement (set_plugins e []), Ok node)
    /\ constructed_as w' node =
       Some (match attributes e with
             | [] => "GenericTagPlugin"
             | _ :: _ => "InterpolatedAttrsPlugin"
             end, []).
Proof.
  intros Htext Hcache Hattrs Htag. unfold __init__.
  rewrite Htext, Hcache. cbn [PLUGINS].
  rewrite (discover_nothing it _ e Hattrs Htag).
  cbn [elem_after outcome local_p list_pop last attributes set_plugins].
  set (w0 := mkWorld (S (_HASH_SEQ w)) (PLUGINS w) (heap w)).
  fold (set_plugins e []).
  match goal with
  | |- context [construct ?c ?el ?ar ?kw ?h ?w1] =>
      pose proof (construct_frame c el ar kw h w1) as (_ & _ & _ & _ & Hnew & _);
      destruct (construct c el ar kw h w1) as [w' node]
  end.
  cbn [fst snd] in Hnew.
  exists w', node. split; [reflexivity|].
  unfold constructed_as. rewrite Hnew. cbn [obj_state].
  now destruct (attributes e).
Qed.

Lemma unmatched_node_falls_back_witness :
  exists w' node,
    __init__ Sample.env DOM.Live Sample.world (FromElement Sample.empty_div)
    = (w', FromElement (set_plugins Sample.empty_div []), Ok node)
    /\ constructed_as w' node = Some ("GenericTagPlugin", []).
Proof.
  apply (unmatched_node_falls_back Sample.env DOM.Live Sample.world
           Sample.empty_div).
  - reflexivity.
  - reflexivity.
  - intros a Ha. now apply elem_of_nil in Ha.
  - reflexivity.
Defined.

Lemma let_world_node {A B C} (c : A * B) (a : C) :
  (let '(w', node) := c in (w', a, node)) = (c.1, a, c.2).
Proof. now destruct c. Qed.

Lemma let_world_ok {A B C} (c : A * B) (a : C) :
  (let '(w', node) := c in (w', a, Ok node)) = (c.1, a, Ok c.2).
Proof. now destruct c. Qed.

(** Every run of the constructor, whatever its argument. *)
Lemma init_frame env it w arg :
  init_post env (mkWorld (S (_HASH_SEQ w)) (PLUGINS w) (heap w)) (_HASH_SEQ w)
            (__init__ env it w arg).
Proof.
  set (w0 := mkWorld (S (_HASH_SEQ w)) (PLUGINS w) (heap w)).
  destruct arg as [n|e].
  - rewrite init_from_node. cbv zeta. fold w0.
    apply init_post_subscribe.
    + intros _. apply same_frame_keeps, plugin_clone_frame.
    + intros node _. apply plugin_clone_frame.
  - unfold __init__. cbv zeta. fold w0.
    destruct (str_eqb (nodeName e) "#text").
    { rewrite let_world_ok. apply init_post_construct. }
    set (ps := match _plugins e with
               | Some plugins => mkPass e None (Ok plugins)
               | None => discover it _ e
               end).
    destruct (outcome ps) as [plugins|err]; [|apply init_post_raise].
    destruct (list_pop plugins) as [[rest [[m a] k]]|].
    + destruct (local_p ps) as [p|]; [|apply init_post_raise].
      rewrite let_world_node. apply init_post_subscribe.
      * apply call_class_frame.
      * intros node Hnode.
        destruct (body (d_class p)) eqn:Hbody;
          try (apply call_class_frame; congruence).
        destruct (CloneClaims.definition_is_never_installed
                    env (d_class p) (set_plugins (elem_after ps) rest) a k w0
                    (_HASH_SEQ w) Hbody) as (err & Herr).
        congruence.
    + rewrite let_world_ok. apply init_post_construct.
Qed.

(** A compiler that is the constructor itself keeps what [quiet] asks. *)
Lemma init_keeps env it w arg :
  quiet env -> keeps w (__init__ env it w arg).1.1.
Proof.
  intros Hq. destruct (init_frame env it w arg) as [Hk _].
  eapply keeps_trans; [|exact (Hk Hq)].
  split; [simpl; lia|]. split; [reflexivity|].
  intros k [st ls] H. simpl. eauto.
Qed.

Lemma sample_env_quiet : quiet Sample.env.
Proof.
  intros w e. cbn [ext_compile Sample.env]. unfold Sample._compile.
  pose proof (init_keeps Sample.leaves DOM.Snapshot w (FromElement e)) as H.
  destruct (__init__ Sample.leaves DOM.Snapshot w (FromElement e))
    as [[w' a] r]. apply H.
  intros w1 e1. apply same_frame_keeps, same_frame_refl.
Qed.







(** X11. Once an assignment list is cached on an element, a further
    construction over it neither reads the registry nor touches the
    attributes: under any two registries, iteration disciplines and
    collaborators it gives the same result, leaves the same element behind
    and the same plugin instances, and the element has the attributes it
    had. *)
Theorem cached_pass_ignores_registry env1 env2 it1 it2 (R1 R2 : Registry)
        (w : World) (e : Element) (ps : list Entry) :
  _plugins e = Some ps ->
  let r1 := __init__ env1 it1 (with_plugins R1 w) (FromElement e) in
  let r2 := __init__ env2 it2 (with_plugins R2 w) (FromElement e) in
  r1.2 = r2.2
  /\ r1.1.2 = r2.1.2
  /\ heap r1.1.1 = heap r2.1.1
  /\ attributes <$> arg_element r1.1.2 = Some (attributes e).
Proof.
  intros Hcache. cbv zeta. unfold __init__. rewrite Hcache.
  cbn [with_plugins _HASH_SEQ PLUGINS heap elem_after outcome local_p].
  destruct (str_eqb (nodeName e) "#text").
  - unfold construct, alloc, bind_change. cbn. auto.
  - destruct (list_pop ps) as [[rest [[m a] k]]|].
    + cbn. auto.
    + unfold construct, alloc, bind_change. cbn. auto.
Qed.

Lemma cached_pass_ignores_registry_witness :
  (__init__ Sample.env DOM.Snapshot Sample.world
            (FromElement (set_plugins Sample.li_if_for []))).2
  = (__init__ Sample.leaves DOM.Live
              (with_plugins PrefixLookupDict.empty Sample.world)
              (FromElement (set_plugins Sample.li_if_for []))).2.
Proof.
  apply (cached_pass_ignores_registry
           Sample.env Sample.leaves
           DOM.Snapshot DOM.Live Sample.registry PrefixLookupDict.empty
           Sample.world (set_plugins Sample.li_if_for []) [] eq_refl).
Defined.

End ConstructorProps.

(** ** More on the update timer *)

Module TimerProps.
Import Template TimerFacts.

(** X12. In every state a template goes through, the browser holds at most
    one live interval for it, the one recorded in [update_timer], and that
    identifier is older than the next one the browser hands out. *)
Theorem at_most_one_live_interval (s : state) :
  reachable s ->
  intervals s = option_list (update_timer s)
  /\ (length (intervals s) <= 1)%nat
  /\ (forall id, id ∈ intervals s -> (id < next_interval s)%nat).
Proof.
  intros Hr. destruct (reachable_inv s Hr) as [Hi Hlt].
  split; [exact Hi|]. rewrite Hi.
  destruct (update_timer s) as [t|]; simpl.
  - split; [lia|]. intros id Hid.
    apply list_elem_of_singleton in Hid as ->. now apply Hlt.
  - split; [lia|]. intros id Hid. now apply elem_of_nil in Hid.
Qed.

Lemma at_most_one_live_interval_witness :
  intervals (run [Change; Change; Fire 3 1; Change] (bind_ctx (__init__ 3)))
  = [4%nat].
Proof.
  destruct (at_most_one_live_interval
              (run [Change; Change; Fire 3 1; Change] (bind_ctx (__init__ 3))))
    as (-> & _ & _).
  - change (reachable
              (step (step (step (step (bind_ctx (__init__ 3)) Change) Change)
                          (Fire 3 1)) Change)).
    repeat apply reach_step. apply reach_bind, reach_init.
  - reflexivity.
Defined.

Lemma iter_emit_disarmed k s :
  update_timer s = None ->
  Nat.iter k emit_change s =
  if ((0 <? k) && (0 <? subscribed s))%nat then _start_timer s else s.
Proof.
  intros Hnone. destruct k as [|k]; [reflexivity|].
  destruct (subscribed s) as [|m] eqn:Hs.
  - rewrite iter_fixed by (unfold emit_change; now rewrite Hs).
    now rewrite andb_false_r.
  - change ((0 <? S k) && (0 <? S m))%nat with true. cbv iota.
    induction k as [|k IH].
    + simpl. apply emit_change_disarmed; [lia | exact Hnone].
    + change (Nat.iter (S (S k)) emit_change s)
        with (emit_change (Nat.iter (S k) emit_change s)).
      rewrite IH. apply (emit_change_armed _ (next_interval s)).
      now rewrite (start_timer_disarmed s Hnone).
Qed.

(** X13. [Template.update] always ends with the timer disarmed and no
    interval live, whether it was armed or not when the update began and
    however many change notifications the root emits while it is being
    updated: those notifications do not leave a timer behind. *)
Theorem update_always_disarms (emitted : nat) (s : state) :
  timer_inv s ->
  update_timer (update emitted s) = None
  /\ intervals (update emitted s) = []
  /\ root_updates (update emitted s) = S (root_updates s)
  /\ subscribed (update emitted s) = subscribed s.
Proof.
  intros [Hi Hlt]. destruct (update_timer s) as [t|] eqn:Ht.
  - rewrite (update_armed emitted s t Ht) by (now rewrite Hi). now cbn.
  - simpl in Hi. unfold update.
    set (s1 := mkState (update_timer s) (subscribed s) (intervals s)
                       (next_interval s) (S (root_updates s))).
    assert (Hnone1 : update_timer s1 = None) by exact Ht.
    rewrite (iter_emit_disarmed emitted s1 Hnone1).
    destruct ((0 <? emitted) && (0 <? subscribed s1))%nat.
    + rewrite (start_timer_disarmed s1 Hnone1). cbn. rewrite Hi.
      destruct (decide (next_interval s <> next_interval s)) as [Hne|_];
        [now contradiction Hne | now cbn].
    + cbn. rewrite Ht. cbn. now rewrite Hi.
Qed.

Lemma update_always_disarms_witness :
  timer_inv (bind_ctx (__init__ 0))
  /\ update_timer (update 3 (bind_ctx (__init__ 0))) = None
  /\ intervals (update 3 (bind_ctx (__init__ 0))) = [].
Proof.
  assert (H : timer_inv (bind_ctx (__init__ 0))).
  { split; [reflexivity|]. intros id Hid. discriminate. }
  split; [exact H|].
  destruct (update_always_disarms 3 (bind_ctx (__init__ 0)) H)
    as (Ht & Hi & _).
  split; [exact Ht | exact Hi].
Defined.

(** X14. A template that was never bound to a context does nothing: no
    sequence of change notifications and timer events arms its timer or
    updates its root. *)
Theorem unbound_template_is_inert (next : nat) (evs : list event) :
  run evs (__init__ next) = __init__ next.
Proof.
  unfold run. induction evs as [|ev evs IH]; [reflexivity|].
  simpl. destruct ev as [|id k]; exact IH.
Qed.

Lemma run_step_inv evs s : timer_inv s -> timer_inv (run evs s).
Proof.
  revert s. induction evs as [|ev evs IH]; intros s Hs; [exact Hs|].
  unfold run in *. simpl. apply IH. now apply timer_inv_step.
Qed.

(** X15. Every update is paid for by a change notification: along any
    sequence of events, the root is updated at most as many times as there
    are notifications in the sequence, plus one if a timer was armed before
    it. *)
Theorem updates_bounded_by_changes (evs : list event) (s : state) :
  timer_inv s ->
  (root_updates (run evs s) + armed (run evs s)
   <= root_updates s + armed s + num_changes evs)%nat.
Proof.
  revert s. induction evs as [|ev evs IH]; intros s Hs; [simpl; lia|].
  change (run (ev :: evs) s) with (run evs (step s ev)).
  specialize (IH (step s ev) (timer_inv_step s ev Hs)).
  assert (Hstep : (root_updates (step s ev) + armed (step s ev)
                   + num_changes evs
                   <= root_updates s + armed s + num_changes (ev :: evs))%nat);
    [|lia].
  destruct Hs as [Hi Hlt]. destruct ev as [|id k]; simpl.
  - destruct (update_timer s) as [t|] eqn:Ht.
    + rewrite (emit_change_armed s t Ht). lia.
    + destruct (subscribed s) as [|m] eqn:Hsub.
      * unfold emit_change. rewrite Hsub. simpl. lia.
      * rewrite emit_change_disarmed by (lia || exact Ht).
        rewrite (start_timer_disarmed s Ht). unfold armed. cbn. rewrite Ht. lia.
  - destruct (bool_decide (id ∈ intervals s)) eqn:Hin; [|lia].
    apply bool_decide_eq_true in Hin. rewrite Hi in Hin.
    destruct (update_timer s) as [t|] eqn:Ht; [|now apply elem_of_nil in Hin].
    rewrite (update_armed k s t Ht) by (now rewrite Hi).
    unfold armed. cbn. rewrite Ht. lia.
Qed.

Lemma updates_bounded_by_changes_witness :
  (root_updates (run [Change; Fire 0 2; Fire 0 0; Change; Change; Fire 1 0]
                     (bind_ctx (__init__ 0))) <= 3)%nat.
Proof.
  assert (H : timer_inv (bind_ctx (__init__ 0))).
  { split; [reflexivity|]. intros id Hid. discriminate. }
  pose proof (updates_bounded_by_changes
                [Change; Fire 0 2; Fire 0 0; Change; Change; Fire 1 0]
                (bind_ctx (__init__ 0)) H) as Hb.
  simpl num_changes in Hb.
  change (armed (bind_ctx (__init__ 0))) with 0%nat in Hb.
  change (root_updates (bind_ctx (__init__ 0))) with 0%nat in Hb.
  lia.
Defined.

End TimerProps.

(** ** Defining and including templates *)

Section TagProps.
Context {Rendered : Type}.
Variable env : TplNodeImpl.externals.
Variable it : DOM.iteration.
Variable TagPlugin_bind_ctx : World -> nat -> Context -> World * result unit.
Variable node_bind_ctx : World -> TplNode -> Context -> World * result Rendered.

(** X16. Binding a definition makes it includable: [TemplatePlugin.bind]
    puts the definition under its name in the context's cache, replacing
    whatever the name referred to and leaving the other names alone, and in
    the resulting context an include of that name gets past the lookup and
    binds an instance of this definition. *)
Theorem bound_definition_is_included (w : World) (t : nat) (tpl : TplNode)
        (name : str) (ls : list nat) (ctx : Context) :
  heap w !! t = Some (mkObj (TemplateState tpl name) ls) ->
  exists ctx',
    TemplatePlugin_bind w t ctx = Ok ctx'
    /\ TEMPLATE_CACHE ctx' !! name = Some t
    /\ (forall n, n <> name ->
                  TEMPLATE_CACHE ctx' !! n = TEMPLATE_CACHE ctx !! n)
    /\ forall w0 w1 self inst ls',
        TagPlugin_bind_ctx w0 self ctx' = (w1, Ok tt) ->
        heap w1 !! self = Some (mkObj (IncludeState (Some name) inst) ls') ->
        Include_bind_ctx env it TagPlugin_bind_ctx node_bind_ctx w0 self ctx' =
        match TemplatePlugin_instantiate env it w1 t ctx' with
        | (w2, Ok i) => node_bind_ctx (set_tpl_instance self i w2) i ctx'
        | (w2, Raise err) => (w2, Raise err)
        end.
Proof.
  intros Ht. exists (mkContext (<[name := t]> (TEMPLATE_CACHE ctx))).
  split; [unfold TemplatePlugin_bind; now rewrite Ht|].
  cbn [TEMPLATE_CACHE]. split; [apply lookup_insert_eq|].
  split; [intros n Hn; now apply lookup_insert_ne|].
  intros w0 w1 self inst ls' Hbase Hself.
  apply (include_known_template_binds env it TagPlugin_bind_ctx node_bind_ctx
           w0 w1 self t _ name inst ls' Hbase Hself).
  cbn [TEMPLATE_CACHE]. apply lookup_insert_eq.
Qed.

(** X17. A successful lookup: when the include's name is in the cache and
    refers to a live definition whose compiled node has a live plugin, the
    include is handed a new node, which it records as its instance before
    binding it; the node carries the next sequence number, and the
    definition is still in place afterwards. The one exception is a
    compiled node whose own plugin is a template definition: cloning it
    raises [TypeError] (line 95), and so does the include. *)
Theorem include_binds_new_instance (w w1 : World) (self t : nat)
        (ctx : Context) (name : str) (inst : option TplNode)
        (ls lt : list nat) (tpl : TplNode) (tname : str) (o : plugin_obj) :
  TagPlugin_bind_ctx w self ctx = (w1, Ok tt) ->
  heap w1 !! self = Some (mkObj (IncludeState (Some name) inst) ls) ->
  TEMPLATE_CACHE ctx !! name = Some t ->
  heap w1 !! t = Some (mkObj (TemplateState tpl tname) lt) ->
  heap w1 !! plugin tpl = Some o ->
  (~ is_definition (obj_state o) ->
   exists w3 i,
     Include_bind_ctx env it TagPlugin_bind_ctx node_bind_ctx w self ctx
     = node_bind_ctx w3 i ctx
     /\ _hash i = _HASH_SEQ w1
     /\ _HASH_SEQ w3 = S (_HASH_SEQ w1)
     /\ (exists ls', heap w3 !! self
                     = Some (mkObj (IncludeState (Some name) (Some i)) ls'))
     /\ (exists lt', heap w3 !! t = Some (mkObj (TemplateState tpl tname) lt')))
  /\ (is_definition (obj_state o) ->
      Include_bind_ctx env it TagPlugin_bind_ctx node_bind_ctx w self ctx
      = (mkWorld (S (_HASH_SEQ w1)) (PLUGINS w1) (heap w1), Raise TypeError)).
Proof.
  intros Hbase Hself Hhit Ht Ho.
  rewrite (include_known_template_binds env it TagPlugin_bind_ctx node_bind_ctx
             w w1 self t ctx name inst ls Hbase Hself Hhit).
  unfold TemplatePlugin_instantiate. rewrite Ht.
  cbn [fmap option_fmap option_map obj_state].
  split; intros Hdef.
  2:{ unfold TplNodeImpl.clone.
      now rewrite (CloneFacts.clone_definition env it w1 tpl o Ho Hdef). }
  destruct (CloneFacts.clone_live_frame env it w1 tpl o Ho Hdef)
    as [_ Hkeep].
  destruct (Hkeep _ _ Hself) as [_ Hself2].
  destruct (Hkeep _ _ Ht) as [_ Ht2].
  rewrite (CloneFacts.clone_live env it w1 tpl o Ho Hdef) in *.
  cbn [fst] in Hself2, Ht2.
  eexists (set_tpl_instance self _ _), _.
  split; [reflexivity|]. split; [reflexivity|]. split; [reflexivity|].
  unfold set_tpl_instance. cbn [heap with_heap]. split.
  - rewrite lookup_alter_eq. cbn [heap] in Hself2. rewrite Hself2.
    simpl. eauto.
  - assert (Hne : self <> t) by (intros ->; congruence).
    rewrite lookup_alter_ne by exact Hne. cbn [heap] in Ht2. eauto.
Qed.

End TagProps.

Lemma bound_definition_is_included_witness :
  exists ctx',
    TemplatePlugin_bind Sample.template_world 1 (mkContext ∅) = Ok ctx'
    /\ TEMPLATE_CACHE ctx' !! ("avatar" : str) = Some 1%nat.
Proof.
  destruct (bound_definition_is_included
              Sample.env DOM.Snapshot Sample.TagPlugin_bind_ctx
              Sample.node_bind_ctx
              Sample.template_world 1 (mkTplNode 1 0) "avatar" []
              (mkContext ∅))
    as (ctx' & Hb & Hc & _).
  - vm_compute. reflexivity.
  - exists ctx'. split; [exact Hb | exact Hc].
Defined.

Lemma include_binds_new_instance_witness :
  exists w3 i,
    Include_bind_ctx Sample.env DOM.Snapshot Sample.TagPlugin_bind_ctx
                     Sample.node_bind_ctx
                     (with_heap (<[2%nat := mkObj (IncludeState (Some "avatar") None) []]>
                                   (heap Sample.template_world))
                                Sample.template_world)
                     2 Sample.avatar_ctx
    = Sample.node_bind_ctx w3 i Sample.avatar_ctx
    /\ _hash i = 2%nat.
Proof.
  destruct (include_binds_new_instance
              Sample.env DOM.Snapshot Sample.TagPlugin_bind_ctx
              Sample.node_bind_ctx
              (with_heap (<[2%nat := mkObj (IncludeState (Some "avatar") None) []]>
                            (heap Sample.template_world))
                         Sample.template_world)
              (with_heap (<[2%nat := mkObj (IncludeState (Some "avatar") None) []]>
                            (heap Sample.template_world))
                         Sample.template_world)
              2 1 Sample.avatar_ctx "avatar" None [] []
              (mkTplNode 1 0) "avatar"
              (mkObj (Constructed "GenericTagPlugin"
                                  (mkElement "DIV" [] (Some [])) [] ∅) [1%nat]))
    as [Hnew _].
  - reflexivity.
  - vm_compute. reflexivity.
  - vm_compute. reflexivity.
  - vm_compute. reflexivity.
  - vm_compute. reflexivity.
  - destruct (Hnew (fun H => H)) as (w3 & i & Hb & Hh & _).
    exists w3, i. split; [exact Hb | exact Hh].
Defined.

(** ** The shape of canonical keys *)

Module CanonicalProps.
Import PyStr PrefixLookupDict Spelling CanonicalFacts.

Lemma upper_length s : length (upper s) <= 3 * length s.
Proof.
  induction s as [|c s IH]; [reflexivity|].
  simpl. rewrite length_app. pose proof (upper_cp_length c). lia.
Qed.

Lemma squash_length s : length (squash s) <= 3 * length s.
Proof.
  unfold squash, strip_char.
  pose proof (length_filter (fun x => x <> chr "_")
                (filter (fun x => x <> chr "-") (upper s))).
  pose proof (length_filter (fun x => x <> chr "-") (upper s)).
  pose proof (upper_length s). lia.
Qed.

(** X18. A canonical key holds no hyphen and no underscore, every code
    point of it is its own uppercase form, so that uppercasing the key
    changes nothing, and the key has at most three code points for each
    code point of the key it comes from. *)
Theorem canonical_is_plain_and_bounded (prefix key : str) :
  all_plain (_canonical prefix key)
  /\ upper (_canonical prefix key) = _canonical prefix key
  /\ length (_canonical prefix key) <= 3 * length key.
Proof.
  pose proof (canonical_all_plain prefix key) as Hplain.
  split; [exact Hplain|]. split.
  - apply upper_fixed. eapply Forall_impl; [exact Hplain|].
    now intros x (Hx & _).
  - unfold _canonical. pose proof (squash_length key) as Hs.
    destruct (startswith (squash key) prefix); [|exact Hs].
    unfold slice_from. rewrite length_drop. lia.
Qed.

(** The bound is met, and the key can be longer than the key it comes
    from: code point 912 has an uppercase form of three code points. *)
Example canonical_can_grow :
  _canonical "" [912%N] = [921%N; 776%N; 769%N]
  /\ _canonical "" [223%N] = "SS".
Proof. split; reflexivity. Qed.

End CanonicalProps.

(** ** Discovery over a snapshot of the attributes *)

Module SnapshotProps.
Import Discovery DiscoveryFacts.

Lemma filter_ext_elem {A} (P Q : A -> Prop) `{forall x, Decision (P x)}
      `{forall x, Decision (Q x)} (l : list A) :
  (forall x, x ∈ l -> (P x <-> Q x)) -> filter P l = filter Q l.
Proof.
  induction l as [|x l IH]; intros Hpq; [reflexivity|].
  rewrite !filter_cons.
  assert (Hx : P x <-> Q x) by (apply Hpq; left).
  rewrite IH by (intros y Hy; apply Hpq; now right).
  destruct (decide (P x)), (decide (Q x)); tauto.
Qed.

Lemma same_name_same_attr (l : list DOM.Attr) a b :
  NoDup (attr_names l) -> a ∈ l -> b ∈ l -> DOM.name a = DOM.name b -> a = b.
Proof.
  unfold attr_names. induction l as [|x l IH]; intros Hnd Ha Hb Hn.
  - now apply elem_of_nil in Ha.
  - rewrite fmap_cons in Hnd. apply NoDup_cons in Hnd as [Hx Hnd].
    apply elem_of_cons in Ha as [->|Ha]; apply elem_of_cons in Hb as [->|Hb].
    + reflexivity.
    + exfalso. apply Hx. rewrite Hn. now apply list_elem_of_fmap_2.
    + exfalso. apply Hx. rewrite <- Hn. now apply list_elem_of_fmap_2.
    + now apply IH.
Qed.

Lemma snapshot_loop_complete {B} (sel : DOM.Attr -> option B) e :
  NoDup (attr_names (attributes e)) ->
  (for_attributes sel DOM.Snapshot e).2
  = omap (fun a => pair a <$> sel a) (attributes e)
  /\ attributes (for_attributes sel DOM.Snapshot e).1
     = filter (fun a => sel a = None) (attributes e).
Proof.
  intros Hnd.
  assert (Hhits : (for_attributes sel DOM.Snapshot e).2
                  = omap (fun a => pair a <$> sel a) (attributes e))
    by (simpl; now rewrite scan_snapshot_hits).
  split; [exact Hhits|].
  destruct (for_attributes_post sel DOM.Snapshot e Hnd)
    as (new & Heq & _ & Hin).
  rewrite Heq in *. cbn [fst snd app] in *. subst new.
  unfold without. cbn [attributes].
  apply filter_ext_elem. intros a Ha. split.
  - intros Hnot. destruct (sel a) as [b|] eqn:Hsel; [|reflexivity].
    exfalso. apply Hnot. unfold attr_names.
    apply list_elem_of_fmap. exists a. split; [reflexivity|].
    apply list_elem_of_fmap. exists (a, b). split; [reflexivity|].
    apply list_elem_of_omap. exists a. split; [exact Ha|]. now rewrite Hsel.
  - intros Hnone Hin'. unfold attr_names in Hin'.
    apply list_elem_of_fmap in Hin' as (a' & Hn & Hin').
    apply list_elem_of_fmap in Hin' as ([a'' b] & -> & Hab).
    cbn [fst] in Hn.
    destruct (Hin _ _ Hab) as [Ha'' Hsel].
    assert (a = a'') by (now apply (same_name_same_attr (attributes e))).
    congruence.
Qed.

(** Every trigger attribute is among the attributes handed out. *)
Lemma triggers_are_received it R e hit :
  NoDup (attr_names (attributes e)) ->
  hit ∈ (find_triggers it R e).2 ->
  hit.1 ∈ all_received (deliveries it R e).2.
Proof.
  intros Hnd Hhit. unfold deliveries.
  pose proof (find_triggers_consumes it R e Hnd) as Hc1.
  destruct (find_triggers it R e) as [e1 hits]. cbn [fst snd] in *.
  pose proof (consumes_NoDup _ _ _ Hc1 Hnd) as Hnd1.
  unfold deliver_entries.
  destruct (deliver_chain it (list_sort attr_priority hits) e1 [] Hnd1)
    as (e2 & ds & Hfold & _ & _ & Htr).
  rewrite Hfold. cbn [app].
  apply all_triggers_of in Htr.
  assert (Hin : hit.1 ∈ all_triggers ds).
  { rewrite Htr. apply list_elem_of_fmap_2. now rewrite list_sort_perm. }
  destruct (PrefixLookupDict.__getitem__ R (nodeName e2)) as [tplug|].
  - destruct (kwargs_hits it e2 tplug) as [e3 h3]. cbn [fst snd].
    rewrite all_received_perm, all_triggers_app.
    apply elem_of_app. left. apply elem_of_app. now left.
  - cbn [fst snd]. rewrite all_received_perm. apply elem_of_app. now left.
Qed.

(** X19. When the markup collaborator iterates over a snapshot of the
    attributes of a node with distinct attribute names, discovery is
    complete: the triggers are exactly the attributes whose name resolves
    in the registry, in their order on the node; [_build_kwargs] leaves
    exactly the attributes that match no argument of the plugin; and after
    the first pass no attribute left on the node resolves in the registry. *)
Theorem snapshot_discovery_is_complete (R : Registry) (e : Element) :
  NoDup (attr_names (attributes e)) ->
  (find_triggers DOM.Snapshot R e).2
  = omap (fun a => pair a <$> PrefixLookupDict.__getitem__ R (DOM.name a))
         (attributes e)
  /\ (forall p,
        attributes (_build_kwargs DOM.Snapshot e p).1
        = filter (fun a =>
                    PrefixLookupDict.__getitem__
                      (PrefixLookupDict.of_items
                         (PrefixLookupDict.items (d_args p))) (DOM.name a)
                    = None) (attributes e))
  /\ (forall a, a ∈ attributes (elem_after (discover DOM.Snapshot R e)) ->
                a ∈ attributes e
                /\ PrefixLookupDict.__getitem__ R (DOM.name a) = None).
Proof.
  intros Hnd.
  destruct (snapshot_loop_complete
              (fun a => PrefixLookupDict.__getitem__ R (DOM.name a)) e Hnd)
    as [Hhits _].
  split; [exact Hhits|]. split.
  - intros p. unfold _build_kwargs.
    pose proof (snapshot_loop_complete
                  (fun a => PrefixLookupDict.__getitem__
                              (PrefixLookupDict.of_items
                                 (PrefixLookupDict.items (d_args p)))
                              (DOM.name a)) e Hnd) as [_ Hrest].
    replace (let '(element', hits) := kwargs_hits DOM.Snapshot e p in
             (element', kwargs_of hits)).1
      with (kwargs_hits DOM.Snapshot e p).1
      by (now destruct (kwargs_hits DOM.Snapshot e p)).
    exact Hrest.
  - intros a Ha.
    destruct (discover_deliveries DOM.Snapshot R e) as [Hattrs _].
    destruct (deliveries_consume DOM.Snapshot R e Hnd) as (Hw & _ & _).
    rewrite Hattrs, Hw in Ha. unfold without in Ha. cbn [attributes] in Ha.
    apply list_elem_of_filter in Ha as [Hnot Ha]. split; [exact Ha|].
    destruct (PrefixLookupDict.__getitem__ R (DOM.name a)) as [m|] eqn:Hm;
      [|reflexivity].
    exfalso. apply Hnot. unfold attr_names.
    apply (list_elem_of_fmap_2 DOM.name).
    apply (triggers_are_received DOM.Snapshot R e (a, m) Hnd).
    unfold find_triggers in *. rewrite Hhits.
    apply list_elem_of_omap. exists a. split; [exact Ha|]. now rewrite Hm.
Qed.

Lemma snapshot_discovery_is_complete_witness :
  NoDup (attr_names (attributes Sample.li_if_for))
  /\ ((fun hit : DOM.Attr * Descriptor => DOM.name hit.1)
        <$> (find_triggers DOM.Snapshot Sample.registry Sample.li_if_for).2
      : list str)
     = ["tpl-if"; "tpl-for"].
Proof.
  assert (Hnd : NoDup (attr_names (attributes Sample.li_if_for))).
  { apply (@bool_decide_unpack _ (NoDup_dec _)). vm_compute. reflexivity. }
  split; [exact Hnd|].
  destruct (snapshot_discovery_is_complete
              Sample.registry Sample.li_if_for Hnd) as (-> & _ & _).
  vm_compute. reflexivity.
Defined.

End SnapshotProps.
